(** * Rule engine, transaction monitor and validation agent

    A shallow embedding of the JavaScript sources

      - [src/rules-engine/rule-processor.js]  (class [RuleProcessor])
      - [src/server.js]                       (class [TransactionMonitor])
      - the validation agent                  (class [AIValidationAgent])

    JavaScript values are embedded as a first-order datatype; functions
    that can throw return a [completion]; the objects that the classes keep
    in their fields become records that are passed explicitly.

    Conventions of the embedding.

    - Numbers are IEEE doubles in the source.  Here a number is [NaN],
      an infinity, or a rational; arithmetic on rationals is exact and
      there is a single zero.  The numbers that the theorems below
      compute with are small integers and ratios of small integers.
    - An object is the ordered list of its own properties.  Members
      inherited from [Object.prototype] (such as [constructor]) are not
      part of the embedding.  The sources look a name that comes from
      the data up in an object of their own in one place, the table of
      the operators: [RuleProcessor.inherited_names] lists the names
      that the table inherits, and the statements that would not hold
      for them leave them out.
    - A value is a tree.  Two references to one object are two copies,
      and an object that contains itself has no counterpart here: the
      result of a transaction holds the transaction, which in the
      source holds the result in turn, so that [JSON.stringify] throws
      on both.
    - The monitor and the agent are event emitters.  Their methods are
      given first for listeners that return, and then among listeners
      that can throw (the definitions named [..._among]).
    - Arrays are dense lists.
    - [===] between two objects or arrays compares references in the
      source.  The operands met here come from two separate documents (a
      rule and a transaction), so such a comparison is [false].
    - What the engine and the libraries ([lodash], [moment]) compute on
      text is collected in the class [Host]; every theorem holds for
      every host. *)

From Stdlib Require Import List String Ascii ZArith QArith Qround Bool Lia.
From Stdlib Require Import DecimalString Permutation.
Import ListNotations.

Local Open Scope string_scope.
Local Open Scope list_scope.
Local Open Scope Z_scope.

Set Warnings "-register-all".

(* ===================================================================== *)
(** * JavaScript values *)
(* ===================================================================== *)

Module JS.

(** ** Numbers *)

Inductive number : Type :=
| NaN
| PosInf
| NegInf
| Fin (q : Q).

Definition num_of_Z (z : Z) : number := Fin (inject_Z z).
Definition num_of_nat (n : nat) : number := num_of_Z (Z.of_nat n).

Definition Qltb (x y : Q) : bool := negb (Qle_bool y x).

(** [==] on numbers: [NaN] differs from everything. *)
Definition num_eqb (a b : number) : bool :=
  match a, b with
  | Fin x, Fin y => Qeq_bool x y
  | PosInf, PosInf => true
  | NegInf, NegInf => true
  | _, _ => false
  end.

(** [<] on numbers: [false] as soon as one side is [NaN]. *)
Definition num_ltb (a b : number) : bool :=
  match a, b with
  | NaN, _ | _, NaN => false
  | _, NegInf => false
  | NegInf, _ => true
  | PosInf, _ => false
  | Fin _, PosInf => true
  | Fin x, Fin y => Qltb x y
  end.

Definition num_is_nan (a : number) : bool :=
  match a with NaN => true | _ => false end.

(** [<=], [>], [>=] are not the negations of each other: all of them
    are [false] on [NaN]. *)
Definition num_leb (a b : number) : bool :=
  negb (num_is_nan a) && negb (num_is_nan b) && negb (num_ltb b a).
Definition num_gtb (a b : number) : bool := num_ltb b a.
Definition num_geb (a b : number) : bool := num_leb b a.

Definition Qsign (q : Q) : comparison := (0 ?= q)%Q.

Definition num_add (a b : number) : number :=
  match a, b with
  | NaN, _ | _, NaN => NaN
  | PosInf, NegInf | NegInf, PosInf => NaN
  | PosInf, _ | _, PosInf => PosInf
  | NegInf, _ | _, NegInf => NegInf
  | Fin x, Fin y => Fin (Qred (x + y))
  end.

Definition num_neg (a : number) : number :=
  match a with
  | NaN => NaN
  | PosInf => NegInf
  | NegInf => PosInf
  | Fin x => Fin (Qred (- x))
  end.

Definition num_sub (a b : number) : number := num_add a (num_neg b).

Definition inf_of_sign (c : comparison) : number :=
  match c with
  | Lt => PosInf
  | Gt => NegInf
  | Eq => NaN
  end.

Definition num_sign (a : number) : comparison :=
  match a with
  | NaN => Eq
  | PosInf => Lt
  | NegInf => Gt
  | Fin x => Qsign x
  end.

Definition sign_mul (c d : comparison) : comparison :=
  match c, d with
  | Eq, _ | _, Eq => Eq
  | Lt, Lt | Gt, Gt => Lt
  | _, _ => Gt
  end.

Definition num_mul (a b : number) : number :=
  match a, b with
  | NaN, _ | _, NaN => NaN
  | Fin x, Fin y => Fin (Qred (x * y))
  | _, _ => inf_of_sign (sign_mul (num_sign a) (num_sign b))
  end.

Definition num_div (a b : number) : number :=
  match a, b with
  | NaN, _ | _, NaN => NaN
  | Fin x, Fin y =>
      if Qeq_bool y 0 then inf_of_sign (Qsign x) else Fin (Qred (x / y))
  | Fin _, _ => Fin 0
  | _, Fin y =>
      inf_of_sign (sign_mul (num_sign a) (match Qsign y with Eq => Lt | s => s end))
  | _, _ => NaN
  end.

(** [Math.round]: the nearest integer, halves going up. *)
Definition Math_round (a : number) : number :=
  match a with
  | Fin x => Fin (inject_Z (Qfloor (x + (1 # 2))))
  | _ => a
  end.

Definition Math_max (a b : number) : number :=
  match a, b with
  | NaN, _ | _, NaN => NaN
  | _, _ => if num_ltb a b then b else a
  end.

Definition Math_min (a b : number) : number :=
  match a, b with
  | NaN, _ | _, NaN => NaN
  | _, _ => if num_ltb b a then b else a
  end.

(** ** Values *)

Inductive value : Type :=
| VUndefined
| VNull
| VBoolean (b : bool)
| VNumber (n : number)
| VString (s : string)
| VArray (elements : list value)
| VObject (properties : list (string * value)).

Definition VInt (z : Z) : value := VNumber (num_of_Z z).
Definition VNat (n : nat) : value := VNumber (num_of_nat n).

(** ToBoolean. *)
Definition truthy (v : value) : bool :=
  match v with
  | VUndefined | VNull => false
  | VBoolean b => b
  | VNumber NaN => false
  | VNumber (Fin q) => negb (Qeq_bool q 0)
  | VNumber _ => true
  | VString s => negb (s =? "")%string
  | VArray _ | VObject _ => true
  end.

(** [a || b] *)
Definition or_else (a b : value) : value := if truthy a then a else b.

Definition nullish (v : value) : bool :=
  match v with
  | VUndefined | VNull => true
  | _ => false
  end.

Definition typeof (v : value) : string :=
  match v with
  | VUndefined => "undefined"
  | VNull => "object"
  | VBoolean _ => "boolean"
  | VNumber _ => "number"
  | VString _ => "string"
  | VArray _ | VObject _ => "object"
  end.

Definition isArray (v : value) : bool :=
  match v with VArray _ => true | _ => false end.

(** [a === b] *)
Definition strict_equals (a b : value) : bool :=
  match a, b with
  | VUndefined, VUndefined => true
  | VNull, VNull => true
  | VBoolean x, VBoolean y => Bool.eqb x y
  | VNumber x, VNumber y => num_eqb x y
  | VString x, VString y => (x =? y)%string
  | _, _ => false
  end.

(** SameValueZero, the comparison of [Array.prototype.includes]. *)
Definition same_value_zero (a b : value) : bool :=
  match a, b with
  | VNumber NaN, VNumber NaN => true
  | _, _ => strict_equals a b
  end.

Definition array_includes (xs : list value) (a : value) : bool :=
  existsb (fun x => same_value_zero x a) xs.

(** ** Exceptions and completions *)

Inductive exn : Type :=
| Error (message : string)
| TypeError (message : string).

Definition exn_message (e : exn) : string :=
  match e with
  | Error m => m
  | TypeError m => m
  end.

(** The outcome of running a piece of code: a value, an exception, or
    the recursion budget of the embedding used up.  The last case is
    shown not to occur for the functions that take a budget. *)
Inductive completion (A : Type) : Type :=
| Ok (a : A)
| Throw (e : exn)
| OutOfFuel.

Arguments Ok {A} a.
Arguments Throw {A} e.
Arguments OutOfFuel {A}.

Definition bind {A B : Type} (m : completion A) (k : A -> completion B) : completion B :=
  match m with
  | Ok a => k a
  | Throw e => Throw e
  | OutOfFuel => OutOfFuel
  end.

Definition fmap {A B : Type} (f : A -> B) (m : completion A) : completion B :=
  bind m (fun a => Ok (f a)).

(** [try { m } catch (e) { handler e }] *)
Definition try_catch {A : Type} (m : completion A) (handler : exn -> completion A)
  : completion A :=
  match m with
  | Throw e => handler e
  | other => other
  end.

Declare Scope js_scope.
Delimit Scope js_scope with js.
Notation "x <- m ;; k" := (bind m (fun x => k))
  (at level 100, m at next level, right associativity) : js_scope.

(** ** Properties *)

Fixpoint assoc (k : string) (props : list (string * value)) : option value :=
  match props with
  | [] => None
  | (k', v) :: rest => if (k' =? k)%string then Some v else assoc k rest
  end.

Definition digit_of (c : ascii) : option nat :=
  let n := nat_of_ascii c in
  if (48 <=? n)%nat && (n <=? 57)%nat then Some (n - 48)%nat else None.

Fixpoint digits_value (acc : nat) (s : string) : option nat :=
  match s with
  | EmptyString => Some acc
  | String c rest =>
      match digit_of c with
      | Some d => digits_value (10 * acc + d)%nat rest
      | None => None
      end
  end.

(** A property key that is an array index: a decimal numeral without a
    leading zero. *)
Definition index_of_key (k : string) : option nat :=
  match k with
  | EmptyString => None
  | String "0"%char EmptyString => Some 0%nat
  | String "0"%char _ => None
  | _ => digits_value 0 k
  end.

Definition char_at (s : string) (i : nat) : value :=
  match String.get i s with
  | Some c => VString (String c EmptyString)
  | None => VUndefined
  end.

(** [v[k]] for a receiver that is neither [undefined] nor [null]. *)
Definition get (v : value) (k : string) : value :=
  match v with
  | VObject props =>
      match assoc k props with
      | Some x => x
      | None => VUndefined
      end
  | VArray xs =>
      if (k =? "length")%string then VNat (List.length xs)
      else match index_of_key k with
           | Some i => nth i xs VUndefined
           | None => VUndefined
           end
  | VString s =>
      if (k =? "length")%string then VNat (String.length s)
      else match index_of_key k with
           | Some i => char_at s i
           | None => VUndefined
           end
  | _ => VUndefined
  end.

Definition describe_nullish (v : value) : string :=
  match v with
  | VNull => "null"
  | _ => "undefined"
  end.

(** [v.k]: reading a property of [undefined] or [null] throws. *)
Definition member (v : value) (k : string) : completion value :=
  if nullish v
  then Throw (TypeError ("Cannot read properties of " ++ describe_nullish v
                           ++ " (reading '" ++ k ++ "')")%string)
  else Ok (get v k).

(** [k in Object(v)], own properties only. *)
Definition has_property (v : value) (k : string) : bool :=
  match v with
  | VObject props =>
      match assoc k props with Some _ => true | None => false end
  | VArray xs =>
      (k =? "length")%string ||
      match index_of_key k with
      | Some i => (i <? List.length xs)%nat
      | None => false
      end
  | VString s =>
      (k =? "length")%string ||
      match index_of_key k with
      | Some i => (i <? String.length s)%nat
      | None => false
      end
  | _ => false
  end.

(** [o.k = x] on the property list of an object: an existing key keeps
    its place, a new key goes last. *)
Fixpoint set_assoc (k : string) (x : value) (props : list (string * value))
  : list (string * value) :=
  match props with
  | [] => [(k, x)]
  | (k', v) :: rest =>
      if (k' =? k)%string then (k, x) :: rest
      else (k', v) :: set_assoc k x rest
  end.

(** [v.k = x] for a receiver that is an object, which is what the
    sources assign to; any other receiver is returned as it is. *)
Definition set (v : value) (k : string) (x : value) : value :=
  match v with
  | VObject props => VObject (set_assoc k x props)
  | _ => v
  end.

(** The decimal numeral of an index. *)
Definition key_of_index (i : nat) : string :=
  NilZero.string_of_uint (Nat.to_uint i).

Fixpoint indexed (i : nat) (xs : list value) : list (string * value) :=
  match xs with
  | [] => []
  | x :: rest => (key_of_index i, x) :: indexed (S i) rest
  end.

(** The own enumerable properties copied by a spread [{...v}]: those of
    an object, the elements of an array and the characters of a text,
    the last two under their indices. *)
Definition own_properties (v : value) : list (string * value) :=
  match v with
  | VObject props => props
  | VArray xs => indexed 0 xs
  | VString s =>
      indexed 0 (map (fun c => VString (String c "")) (list_ascii_of_string s))
  | _ => []
  end.

(** An object literal [{...base, k1: x1, ..., kn: xn}]. *)
Definition extend (base : list (string * value))
  (updates : list (string * value)) : list (string * value) :=
  fold_left (fun acc kv => set_assoc (fst kv) (snd kv) acc) updates base.

(** The nesting depth of a value. *)
Fixpoint depth (v : value) : nat :=
  match v with
  | VArray xs =>
      S ((fix go (xs : list value) : nat :=
            match xs with
            | [] => O
            | x :: rest => Nat.max (depth x) (go rest)
            end) xs)
  | VObject props =>
      S ((fix go (props : list (string * value)) : nat :=
            match props with
            | [] => O
            | (_, x) :: rest => Nat.max (depth x) (go rest)
            end) props)
  | _ => O
  end.

(** ** Text *)

Fixpoint includes (hay needle : string) : bool :=
  String.prefix needle hay ||
  match hay with
  | EmptyString => false
  | String _ rest => includes rest needle
  end.

Definition startsWith (hay needle : string) : bool := String.prefix needle hay.

Definition endsWith (hay needle : string) : bool :=
  let n := String.length hay in
  let m := String.length needle in
  (m <=? n)%nat && (String.substring (n - m) m hay =? needle)%string.

(** ** The host: the engine and the imported libraries

    The functions of the engine ([Number.prototype.toString], the
    conversion of text to a number, [parseFloat], [toLowerCase]) and of
    the libraries [lodash] (its path syntax) and [moment] (dates) that
    the sources call.  They are total and do not throw.

    - [lodash_isKey s] is lodash's test that the text [s] is a property
      name rather than a path (its [reIsPlainProp] and [reIsDeepProp]).
    - [lodash_stringToPath s] is the list of keys of the path [s].
    - [moment_isBefore a b] is [moment(a).isBefore(moment(b))], and
      [moment_isBetween a s e] is
      [moment(a).isBetween(moment(s), moment(e), null, '[]')].
    - [regex_test p s] is [new RegExp(p, 'i').test(s)]. *)
Class Host : Type := {
  number_toString : number -> string;
  string_toNumber : string -> number;
  parseFloat_string : string -> number;
  toLowerCase : string -> string;
  lodash_isKey : string -> bool;
  lodash_stringToPath : string -> list string;
  moment_isBefore : value -> value -> bool;
  moment_isAfter : value -> value -> bool;
  moment_isBetween : value -> value -> value -> bool;
  JSON_stringify : value -> string;
  regex_test : string -> string -> bool
}.

Section Conversions.
Context {host : Host}.

(** ToString.  An array prints its elements separated by commas, with
    nothing for [undefined] and [null]. *)
Fixpoint ToString (v : value) : string :=
  match v with
  | VUndefined => "undefined"
  | VNull => "null"
  | VBoolean true => "true"
  | VBoolean false => "false"
  | VNumber n => number_toString n
  | VString s => s
  | VArray xs =>
      (fix join (xs : list value) : string :=
         match xs with
         | [] => ""
         | x :: rest =>
             let here := if nullish x then "" else ToString x in
             match rest with
             | [] => here
             | _ :: _ => here ++ "," ++ join rest
             end
         end%string) xs
  | VObject _ => "[object Object]"
  end.

(** ToPrimitive: arrays and objects go through their [toString]. *)
Definition ToPrimitive (v : value) : value :=
  match v with
  | VArray _ | VObject _ => VString (ToString v)
  | _ => v
  end.

Definition ToNumber (v : value) : number :=
  match ToPrimitive v with
  | VUndefined => NaN
  | VNull => Fin 0
  | VBoolean b => if b then Fin 1 else Fin 0
  | VNumber n => n
  | VString s => string_toNumber s
  | _ => NaN
  end.

(** [parseFloat(v)] prints its argument and reads a number back from the
    front of the text; a number is read back as itself. *)
Definition parseFloat (v : value) : number :=
  match v with
  | VNumber n => n
  | _ => parseFloat_string (ToString v)
  end.

(** The comparison behind [<], [>], [<=] and [>=]: [None] when one side
    is [NaN]. *)
Definition is_less_than (a b : value) : option bool :=
  match ToPrimitive a, ToPrimitive b with
  | VString x, VString y => Some (String.ltb x y)
  | pa, pb =>
      let na := ToNumber pa in
      let nb := ToNumber pb in
      if num_is_nan na || num_is_nan nb then None else Some (num_ltb na nb)
  end.

Definition js_lt (a b : value) : bool :=
  match is_less_than a b with Some true => true | _ => false end.
Definition js_gt (a b : value) : bool := js_lt b a.
Definition js_le (a b : value) : bool :=
  match is_less_than b a with Some false => true | _ => false end.
Definition js_ge (a b : value) : bool :=
  match is_less_than a b with Some false => true | _ => false end.

(** [a + b] *)
Definition js_add (a b : value) : value :=
  match ToPrimitive a, ToPrimitive b with
  | VString x, pb => VString (x ++ ToString pb)
  | pa, VString y => VString (ToString pa ++ y)
  | pa, pb => VNumber (num_add (ToNumber pa) (ToNumber pb))
  end.

(** [a * b] *)
Definition js_mul (a b : value) : number := num_mul (ToNumber a) (ToNumber b).

(** ** [lodash]'s [get] *)

(** lodash's [toKey] *)
Definition toKey (v : value) : string := ToString v.

(** lodash's [castPath]: an array is the list of its keys; a number, a
    boolean, [undefined] and [null] are one key; a text is one key when
    it is a property name or a property of the object, and a path
    otherwise. *)
Definition castPath (path object : value) : list string :=
  match path with
  | VArray keys => map toKey keys
  | VString _ | VObject _ =>
      let s := ToString path in
      if lodash_isKey s || has_property object s then [s]
      else lodash_stringToPath s
  | _ => [toKey path]
  end.

(** The loop of lodash's [baseGet]: [Some] of the value reached when the
    whole path was walked, [None] when the walk stopped on [undefined] or
    [null] with keys left. *)
Fixpoint walk (object : value) (keys : list string) : option value :=
  match keys with
  | [] => Some object
  | k :: rest => if nullish object then None else walk (get object k) rest
  end.

(** Modelled from the spec: lodash is an imported library, not a source
    of this repository.  [_.get(object, path)] is the dot-path traversal
    of the specification, with the answer [undefined] for an empty path,
    for a missing key and for a missing intermediate key. *)
Definition lodash_get (object path : value) : value :=
  if nullish object then VUndefined
  else
    match castPath path object with
    | [] => VUndefined
    | keys =>
        match walk object keys with
        | Some v => v
        | None => VUndefined
        end
    end.

End Conversions.

End JS.

Import JS.
Local Open Scope js_scope.

(* ===================================================================== *)
(** * [rule-processor.js]: class [RuleProcessor] *)
(* ===================================================================== *)

Module RuleProcessor.

(** What one action returned: the five object literals of
    [executeAction]. *)
Inductive actionResult : Type :=
| Flagged (reason : value)
    (* { flagged: true, reason } *)
| NotificationSent (recipient : value) (message : string)
    (* { notification_sent: true, recipient, message } *)
| Scored (score : number) (threshold : value)
    (* { score, threshold } *)
| Logged (event : value) (data : value)
    (* { logged: true, event, data } *)
| Rejected (reason : value).
    (* { rejected: true, reason } *)

(** One entry of the list built by [executeActions]: the two object
    literals it pushes. *)
Inductive executedAction : Type :=
| Executed (type config : value) (result : actionResult)
    (* { type, config, result, success: true } *)
| Failed (type config : value) (error : string).
    (* { type, config, result: null, success: false, error } *)

Definition action_type (a : executedAction) : value :=
  match a with
  | Executed t _ _ => t
  | Failed t _ _ => t
  end.

Definition action_success (a : executedAction) : bool :=
  match a with
  | Executed _ _ _ => true
  | Failed _ _ _ => false
  end.

(** The readings of the clock made by one call of [evaluateRule]:
    [Date.now() - startTime] and [new Date().toISOString()]. *)
Record timing : Type := {
  elapsed : number;
  now_iso : string
}.

(** The object returned by [evaluateRule]. *)
Record ruleResult : Type := {
  ruleId : value;
  ruleName : value;
  result : bool;
  actions : list executedAction;
  executionTime : number;
  error : option string;            (* [null] or the message *)
  timestamp : string;
  transactionId : value
}.

(** The object returned by [processTransaction]. *)
Record report : Type := {
  report_transactionId : value;
  report_timestamp : string;
  totalRules : nat;
  passedRules : nat;
  failedRules : nat;
  errors : nat;
  results : list ruleResult
}.

(** The truth value of [r.error]. *)
Definition has_error (r : ruleResult) : bool :=
  match error r with
  | Some m => truthy (VString m)
  | None => false
  end.

Section WithHost.
Context {host : Host}.

(** ** The operators *)

(** [!a || a === '' || (Array.isArray(a) && a.length === 0)] *)
Definition is_empty (a : value) : bool :=
  negb (truthy a) || strict_equals a (VString "")
  || (isArray a && strict_equals (get a "length") (VInt 0)).

Definition lower (v : value) : string := toLowerCase (ToString v).

(** The table [this.operators]. *)
Definition operators : list (string * (value -> value -> completion bool)) :=
  [ ("equals", fun a b => Ok (strict_equals a b));
    ("not_equals", fun a b => Ok (negb (strict_equals a b)));
    ("greater_than", fun a b => Ok (num_gtb (parseFloat a) (parseFloat b)));
    ("less_than", fun a b => Ok (num_ltb (parseFloat a) (parseFloat b)));
    ("greater_than_or_equal",
      fun a b => Ok (num_geb (parseFloat a) (parseFloat b)));
    ("less_than_or_equal",
      fun a b => Ok (num_leb (parseFloat a) (parseFloat b)));
    ("contains", fun a b => Ok (includes (lower a) (lower b)));
    ("not_contains", fun a b => Ok (negb (includes (lower a) (lower b))));
    ("in", fun a b =>
       Ok (match b with VArray xs => array_includes xs a | _ => false end));
    ("not_in", fun a b =>
       Ok (match b with VArray xs => negb (array_includes xs a) | _ => true end));
    ("starts_with", fun a b => Ok (startsWith (lower a) (lower b)));
    ("ends_with", fun a b => Ok (endsWith (lower a) (lower b)));
    ("is_empty", fun a _ => Ok (is_empty a));
    ("is_not_empty", fun a _ => Ok (negb (is_empty a)));
    ("date_before", fun a b => Ok (moment_isBefore a b));
    ("date_after", fun a b => Ok (moment_isAfter a b));
    ("date_between", fun a b =>
       start <- member b "start" ;;
       end_ <- member b "end" ;;
       Ok (moment_isBetween a start end_)) ].

(** [this.operators[operator]] *)
Fixpoint lookup_operator (name : string)
  (table : list (string * (value -> value -> completion bool)))
  : option (value -> value -> completion bool) :=
  match table with
  | [] => None
  | (k, f) :: rest => if (k =? name)%string then Some f else lookup_operator name rest
  end.


(** The names of the members that [this.operators], an object literal,
    inherits from [Object.prototype].  For one of these names
    [this.operators[operator]] is not [undefined], although the table
    has no such key: the test [!operatorFunc] lets the name pass and the
    inherited member is called in place of an operator.  The lookup
    above reads the table alone: it is the lookup of the source for
    every name but these. *)
Definition inherited_names : list string :=
  [ "constructor"; "toString"; "toLocaleString"; "valueOf";
    "hasOwnProperty"; "isPrototypeOf"; "propertyIsEnumerable";
    "__proto__"; "__defineGetter__"; "__defineSetter__";
    "__lookupGetter__"; "__lookupSetter__" ].

(** ** [getFieldValue] *)

Definition getFieldValue (field context : value) : value :=
  lodash_get context field.

(** ** [parseCondition] *)

(** [xs.every(f)] and [xs.some(f)] on the elements of an array. *)
Fixpoint every (f : value -> completion bool) (xs : list value) : completion bool :=
  match xs with
  | [] => Ok true
  | x :: rest => b <- f x ;; if b then every f rest else Ok false
  end.

Fixpoint some (f : value -> completion bool) (xs : list value) : completion bool :=
  match xs with
  | [] => Ok false
  | x :: rest => b <- f x ;; if b then Ok true else some f rest
  end.

(** The receiver of [.every] and [.some] has to be an array. *)
Definition call_on_array (receiver : value) (method : string)
  (k : list value -> completion bool) : completion bool :=
  match receiver with
  | VArray xs => k xs
  | _ => Throw (TypeError (method ++ " is not a function")%string)
  end.

(** [parseCondition], with a budget for the depth of the recursion. *)
Fixpoint parseCondition_fuel (fuel : nat) (condition context : value)
  : completion bool :=
  match fuel with
  | O => OutOfFuel
  | S fuel' =>
      if negb (truthy condition) then Ok false
      else if truthy (get condition "and") then
        call_on_array (get condition "and") "condition.and.every"
          (every (fun subCondition => parseCondition_fuel fuel' subCondition context))
      else if truthy (get condition "or") then
        call_on_array (get condition "or") "condition.or.some"
          (some (fun subCondition => parseCondition_fuel fuel' subCondition context))
      else if truthy (get condition "not") then
        fmap negb (parseCondition_fuel fuel' (get condition "not") context)
      else
        let field := get condition "field" in
        let operator := get condition "operator" in
        let value := get condition "value" in
        if negb (truthy field) || negb (truthy operator) then
          Throw (Error "Condition must have field and operator")
        else
          let fieldValue := getFieldValue field context in
          match lookup_operator (ToString operator) operators with
          | None =>
              Throw (Error ("Unsupported operator: " ++ ToString operator)%string)
          | Some operatorFunc => operatorFunc fieldValue value
          end
  end.

(** [parseCondition(condition, context)]: the budget is the depth of
    the condition, which the recursion cannot exceed. *)
Definition parseCondition (condition context : value) : completion bool :=
  parseCondition_fuel (S (depth condition)) condition context.

(** ** [interpolateMessage] *)

(** The text put in place of the placeholder [{field}]: the callback
    returns [this.getFieldValue(field, data) || match], which [replace]
    turns into text. *)
Definition replacement (data : value) (field : string) : string :=
  ToString (or_else (getFieldValue (VString field) data)
                    (VString ("{" ++ field ++ "}")%string)).

(** [template.replace(/\{([^}]+)\}/g, callback)], read from left to
    right.  A match is an opening brace, then one character or more
    other than a closing brace, then a closing brace; [inside] is [None]
    outside of a candidate match and [Some field] after its opening brace
    and the characters [field].  A candidate that does not become a match
    stays in the text: [{}] because nothing stands between its braces,
    and an opening brace that no closing brace follows. *)
Fixpoint replace_placeholders (data : value) (inside : option string)
  (template : string) : string :=
  match template with
  | EmptyString =>
      match inside with
      | None => ""
      | Some field => "{" ++ field
      end
  | String c rest =>
      match inside with
      | None =>
          if (c =? "{")%char then replace_placeholders data (Some "") rest
          else String c (replace_placeholders data None rest)
      | Some field =>
          if (c =? "}")%char then
            (if (field =? "")%string then "{}" else replacement data field)
            ++ replace_placeholders data None rest
          else
            replace_placeholders data (Some (field ++ String c "")) rest
      end
  end%string.

(** [interpolateMessage(template, data)]: only a text has a [replace]
    method that can be called. *)
Definition interpolateMessage (template data : value) : completion string :=
  match template with
  | VString s => Ok (replace_placeholders data None s)
  | VUndefined | VNull =>
      Throw (TypeError ("Cannot read properties of " ++ describe_nullish template
                          ++ " (reading 'replace')")%string)
  | _ => Throw (TypeError "template.replace is not a function")
  end.

(** ** [calculateRiskScore] *)

(** The values produced by [for (const x of v)]. *)
Definition iterate (v : value) (what : string) : completion (list value) :=
  match v with
  | VArray xs => Ok xs
  | VString s =>
      Ok (map (fun c => VString (String c "")) (list_ascii_of_string s))
  | _ => Throw (TypeError (what ++ " is not iterable")%string)
  end.

(** The inner loop: the points of the first range that holds the field
    value, times the weight; [None] when no range holds it. *)
Fixpoint first_range (fieldValue weight : value) (ranges : list value)
  : completion (option number) :=
  match ranges with
  | [] => Ok None
  | range :: rest =>
      min <- member range "min" ;;
      if js_ge fieldValue min then
        max <- member range "max" ;;
        if js_le fieldValue max then
          points <- member range "points" ;;
          Ok (Some (js_mul points weight))
        else first_range fieldValue weight rest
      else first_range fieldValue weight rest
  end.

(** The outer loop, from the score reached so far. *)
Fixpoint add_factors (transactionData : value) (score : number)
  (factors : list value) : completion number :=
  match factors with
  | [] => Ok score
  | factor :: rest =>
      field <- member factor "field" ;;
      let fieldValue := getFieldValue field transactionData in
      let weight := or_else (get factor "weight") (VInt 1) in
      if truthy (get factor "ranges") then
        ranges <- iterate (get factor "ranges") "factor.ranges" ;;
        found <- first_range fieldValue weight ranges ;;
        match found with
        | Some points => add_factors transactionData (num_add score points) rest
        | None => add_factors transactionData score rest
        end
      else add_factors transactionData score rest
  end.

Definition calculateRiskScore (config transactionData : value)
  : completion number :=
  configured <- member config "factors" ;;
  factors <- iterate (or_else configured (VArray [])) "config.factors" ;;
  score <- add_factors transactionData (Fin 0) factors ;;
  Ok (Math_min (Math_max score (Fin 0)) (Fin 100)).

(** ** [executeAction] *)

Definition executeAction (action transactionData : value)
  : completion actionResult :=
  type <- member action "type" ;;
  let config := get action "config" in
  if strict_equals type (VString "flag_transaction") then
    reason <- member config "reason" ;;
    Ok (Flagged reason)
  else if strict_equals type (VString "send_notification") then
    recipient <- member config "recipient" ;;
    message <- interpolateMessage (get config "message") transactionData ;;
    Ok (NotificationSent recipient message)
  else if strict_equals type (VString "calculate_score") then
    score <- calculateRiskScore config transactionData ;;
    Ok (Scored score (get config "threshold"))
  else if strict_equals type (VString "log_event") then
    event <- member config "event" ;;
    Ok (Logged event transactionData)
  else if strict_equals type (VString "reject_transaction") then
    reason <- member config "reason" ;;
    Ok (Rejected reason)
  else
    Throw (Error ("Unknown action type: " ++ ToString type)%string).

(** ** [executeActions] *)

(** One turn of the loop: the [try] pushes the entry of a success, the
    [catch] the entry of a failure. *)
Definition executeOne (action transactionData : value)
  : completion executedAction :=
  try_catch
    (actionResult <- executeAction action transactionData ;;
     Ok (Executed (get action "type") (get action "config") actionResult))
    (fun error =>
       type <- member action "type" ;;
       config <- member action "config" ;;
       Ok (Failed type config (exn_message error))).

Fixpoint executeEach (actions : list value) (transactionData : value)
  : completion (list executedAction) :=
  match actions with
  | [] => Ok []
  | action :: rest =>
      entry <- executeOne action transactionData ;;
      executedActions <- executeEach rest transactionData ;;
      Ok (entry :: executedActions)
  end.

Definition executeActions (actions transactionData : value)
  : completion (list executedAction) :=
  each <- iterate actions "actions" ;;
  executeEach each transactionData.

(** ** [evaluateRule] *)

Definition evaluateRule (t : timing) (rule transactionData : value)
  : completion ruleResult :=
  try_catch
    (id <- member rule "id" ;;
     name <- member rule "name" ;;
     transactionId <- member transactionData "id" ;;
     triggered <-
       (if truthy (get rule "conditions")
        then parseCondition (get rule "conditions") transactionData
        else Ok false) ;;
     executed <-
       (if triggered && truthy (get rule "actions")
        then executeActions (get rule "actions") transactionData
        else Ok []) ;;
     Ok {| ruleId := id;
           ruleName := name;
           result := triggered;
           actions := executed;
           executionTime := elapsed t;
           error := None;
           timestamp := now_iso t;
           transactionId := transactionId |})
    (fun error =>
       id <- member rule "id" ;;
       name <- member rule "name" ;;
       transactionId <- member transactionData "id" ;;
       Ok {| ruleId := id;
             ruleName := name;
             result := false;
             actions := [];
             executionTime := elapsed t;
             error := Some (exn_message error);
             timestamp := now_iso t;
             transactionId := transactionId |}).

(** ** [processTransaction] *)

(** The loop over the rules; [clock n] is what the clock reads during
    the [n]-th evaluation. *)
Fixpoint evaluateEnabled (clock : nat -> timing) (n : nat)
  (rules : list value) (transactionData : value)
  : completion (list ruleResult) :=
  match rules with
  | [] => Ok []
  | rule :: rest =>
      enabled <- member rule "enabled" ;;
      if negb (strict_equals enabled (VBoolean false)) then
        r <- evaluateRule (clock n) rule transactionData ;;
        more <- evaluateEnabled clock (S n) rest transactionData ;;
        Ok (r :: more)
      else evaluateEnabled clock n rest transactionData
  end.

Definition processTransaction (clock : nat -> timing) (now : string)
  (rules transactionData : value) : completion report :=
  each <- iterate rules "rules" ;;
  evaluated <- evaluateEnabled clock O each transactionData ;;
  transactionId <- member transactionData "id" ;;
  Ok {| report_transactionId := transactionId;
        report_timestamp := now;
        totalRules := List.length evaluated;
        passedRules := List.length (filter result evaluated);
        failedRules := List.length (filter (fun r => negb (result r)) evaluated);
        errors := List.length (filter has_error evaluated);
        results := evaluated |}.

End WithHost.

End RuleProcessor.

(* ===================================================================== *)
(** * [server.js]: class [TransactionMonitor] *)
(* ===================================================================== *)

Module TransactionMonitor.

Import RuleProcessor.

(** [this.config] *)
Record config : Type := {
  batchSize : nat;
  maxRetries : number;
  retryDelay : number;
  enableRealTimeProcessing : bool
}.

(** The values the constructor gives to an empty [options]. *)
Definition default_config : config :=
  {| batchSize := 10;
     maxRetries := num_of_Z 3;
     retryDelay := num_of_Z 1000;
     enableRealTimeProcessing := true |}.

(** [this.metrics] *)
Record metrics : Type := {
  totalTransactions : nat;
  processedTransactions : nat;
  failedTransactions : nat;
  averageProcessingTime : number;
  lastProcessingTime : option string
}.

(** The object returned by [createResultSummary]. *)
Record summary : Type := {
  totalRulesEvaluated : nat;
  rulesTriggered : nat;
  rulesFlagged : nat;
  hasErrors : bool;
  riskScore : number;
  recommendation : string
}.

(** The [result] built by [processTransaction].  In the source the
    transaction and its result point to each other; here the result
    holds the transaction. *)
Record processingResult : Type := {
  pr_transactionId : value;
  pr_timestamp : string;
  processingTime : number;
  ruleResults : report;
  pr_transaction : value;
  pr_summary : summary
}.

(** The [failureResult] built by [handleTransactionError]. *)
Record failureResult : Type := {
  fr_transactionId : value;
  fr_timestamp : string;
  fr_processingTime : number;
  fr_error : string;
  fr_retryCount : value;
  fr_transaction : value
}.

(** The arguments of the calls of [aiValidator.queueValidation] made by
    [queueForAIValidation]. *)
Inductive validationRequest : Type :=
| RuleExecution (priority : string) (ruleResult : ruleResult)
    (transactionData : value)
| Performance (processingTime : number) (ruleCount : nat)
    (transactionId : value).

(** The events given to [this.emit]. *)
Inductive event : Type :=
| transaction_queued (transaction : value)
| transaction_processed (r : processingResult)
| transaction_failed (f : failureResult)
| rules_updated (newRules : value).

(** The callbacks handed to [setTimeout] and [setImmediate]. *)
Inductive callback : Type :=
| Requeue (transaction : value)
    (* () => this.transactionQueue.unshift(transaction) *)
| NextBatch.
    (* () => this.processNextBatch() *)

Inductive scheduled : Type :=
| Timeout (delay : number) (cb : callback)
| Immediate (cb : callback).

(** The fields of a [TransactionMonitor], the callbacks that wait to be
    run, the events emitted and the requests sent to the validator so
    far.

    A transaction object is created by [enhanceTransaction] and is then
    held by the queue, by the batch being processed or by one waiting
    callback, one at a time; [processingQueue] keeps a second reference
    of which only the [id] is read, and the [id] is never written again.
    The transaction is therefore passed along as a value.

    [statusLog] is not a field of the class.  It lists, oldest first,
    every value given to the [status] of a transaction, with the [id] of
    the transaction: two of the assignments happen within one call and
    could otherwise not be counted. *)
Record monitor : Type := {
  cfg : config;
  hasValidator : bool;
  rules : value;
  transactionQueue : list value;
  processingQueue : list value;
  transactionHistory : list processingResult;
  stats : metrics;
  pending : list scheduled;
  emitted : list event;
  requested : list validationRequest;
  statusLog : list (value * string)
}.

(** The monitor after its constructor, with a validator attached. *)
Definition fresh : monitor :=
  {| cfg := default_config;
     hasValidator := true;
     rules := VArray [];
     transactionQueue := [];
     processingQueue := [];
     transactionHistory := [];
     stats :=
       {| totalTransactions := 0;
          processedTransactions := 0;
          failedTransactions := 0;
          averageProcessingTime := Fin 0;
          lastProcessingTime := None |};
     pending := [];
     emitted := [];
     requested := [];
     statusLog := [] |}.

(** [getDefaultRules()] *)
Definition getDefaultRules : value :=
  VArray
    [ VObject
        [ ("id", VString "high_amount_transaction");
          ("name", VString "High Amount Transaction");
          ("enabled", VBoolean true);
          ("conditions",
            VObject [ ("field", VString "amount");
                      ("operator", VString "greater_than");
                      ("value", VInt 10000) ]);
          ("actions",
            VArray
              [ VObject
                  [ ("type", VString "flag_transaction");
                    ("config",
                      VObject
                        [ ("reason",
                            VString "High amount transaction requires review") ]) ];
                VObject
                  [ ("type", VString "calculate_score");
                    ("config",
                      VObject
                        [ ("threshold", VInt 80);
                          ("factors",
                            VArray
                              [ VObject
                                  [ ("field", VString "amount");
                                    ("weight", VInt 1);
                                    ("ranges",
                                      VArray
                                        [ VObject [ ("min", VInt 10000);
                                                    ("max", VInt 50000);
                                                    ("points", VInt 30) ];
                                          VObject [ ("min", VInt 50000);
                                                    ("max", VInt 100000);
                                                    ("points", VInt 60) ];
                                          VObject [ ("min", VInt 100000);
                                                    ("max", VNumber PosInf);
                                                    ("points", VInt 90) ] ]) ] ]) ]) ] ]) ];
      VObject
        [ ("id", VString "suspicious_location");
          ("name", VString "Suspicious Location");
          ("enabled", VBoolean true);
          ("conditions",
            VObject
              [ ("and",
                  VArray
                    [ VObject [ ("field", VString "location.country");
                                ("operator", VString "in");
                                ("value",
                                  VArray [ VString "Unknown";
                                           VString "Restricted" ]) ];
                      VObject [ ("field", VString "amount");
                                ("operator", VString "greater_than");
                                ("value", VInt 1000) ] ]) ]);
          ("actions",
            VArray
              [ VObject
                  [ ("type", VString "flag_transaction");
                    ("config",
                      VObject
                        [ ("reason",
                            VString "Transaction from suspicious location") ]) ];
                VObject
                  [ ("type", VString "send_notification");
                    ("config",
                      VObject
                        [ ("recipient", VString "security@company.com");
                          ("message",
                            VString
                              "Suspicious transaction detected from {location.country} for amount {amount}") ]) ] ]) ];
      VObject
        [ ("id", VString "frequent_transactions");
          ("name", VString "Frequent Transactions");
          ("enabled", VBoolean true);
          ("conditions",
            VObject [ ("field", VString "user.transactionCount24h");
                      ("operator", VString "greater_than");
                      ("value", VInt 20) ]);
          ("actions",
            VArray
              [ VObject
                  [ ("type", VString "log_event");
                    ("config",
                      VObject
                        [ ("event",
                            VString "frequent_transactions_detected") ]) ] ]) ] ].

(** The readings of the clock and the identifier drawn during one call. *)
Record readings : Type := {
  uuid : string;
  now : string;
  rule_clock : nat -> timing;
  duration : number
}.

Definition with_queue (m : monitor) (q : list value) : monitor :=
  {| cfg := cfg m; hasValidator := hasValidator m; rules := rules m;
     transactionQueue := q; processingQueue := processingQueue m;
     transactionHistory := transactionHistory m; stats := stats m;
     pending := pending m; emitted := emitted m; requested := requested m;
     statusLog := statusLog m |}.

Definition with_processing (m : monitor) (q : list value) : monitor :=
  {| cfg := cfg m; hasValidator := hasValidator m; rules := rules m;
     transactionQueue := transactionQueue m; processingQueue := q;
     transactionHistory := transactionHistory m; stats := stats m;
     pending := pending m; emitted := emitted m; requested := requested m;
     statusLog := statusLog m |}.

Definition with_history (m : monitor) (h : list processingResult) : monitor :=
  {| cfg := cfg m; hasValidator := hasValidator m; rules := rules m;
     transactionQueue := transactionQueue m;
     processingQueue := processingQueue m;
     transactionHistory := h; stats := stats m;
     pending := pending m; emitted := emitted m; requested := requested m;
     statusLog := statusLog m |}.

Definition with_stats (m : monitor) (s : metrics) : monitor :=
  {| cfg := cfg m; hasValidator := hasValidator m; rules := rules m;
     transactionQueue := transactionQueue m;
     processingQueue := processingQueue m;
     transactionHistory := transactionHistory m; stats := s;
     pending := pending m; emitted := emitted m; requested := requested m;
     statusLog := statusLog m |}.

Definition with_pending (m : monitor) (p : list scheduled) : monitor :=
  {| cfg := cfg m; hasValidator := hasValidator m; rules := rules m;
     transactionQueue := transactionQueue m;
     processingQueue := processingQueue m;
     transactionHistory := transactionHistory m; stats := stats m;
     pending := p; emitted := emitted m; requested := requested m;
     statusLog := statusLog m |}.


(** [this.emit(...)], for listeners that return: the event is added to
    those emitted.  What a listener that throws does to the method that
    emits is followed in the definitions named [..._among], further
    down. *)
Definition emit (m : monitor) (e : event) : monitor :=
  {| cfg := cfg m; hasValidator := hasValidator m; rules := rules m;
     transactionQueue := transactionQueue m;
     processingQueue := processingQueue m;
     transactionHistory := transactionHistory m; stats := stats m;
     pending := pending m; emitted := emitted m ++ [e];
     requested := requested m; statusLog := statusLog m |}.

(** [this.aiValidator.queueValidation(...)] *)
Definition request (m : monitor) (r : validationRequest) : monitor :=
  {| cfg := cfg m; hasValidator := hasValidator m; rules := rules m;
     transactionQueue := transactionQueue m;
     processingQueue := processingQueue m;
     transactionHistory := transactionHistory m; stats := stats m;
     pending := pending m; emitted := emitted m;
     requested := requested m ++ [r]; statusLog := statusLog m |}.

Definition log_status (m : monitor) (transaction : value) (s : string)
  : monitor :=
  {| cfg := cfg m; hasValidator := hasValidator m; rules := rules m;
     transactionQueue := transactionQueue m;
     processingQueue := processingQueue m;
     transactionHistory := transactionHistory m; stats := stats m;
     pending := pending m; emitted := emitted m; requested := requested m;
     statusLog := statusLog m ++ [(get transaction "id", s)] |}.

(** [setTimeout(cb, delay)] and [setImmediate(cb)] *)
Definition schedule (m : monitor) (s : scheduled) : monitor :=
  with_pending m (pending m ++ [s]).

(** [xs.slice(-n)] *)
Definition slice_last {A : Type} (n : nat) (xs : list A) : list A :=
  skipn (List.length xs - n) xs.

(** ** [isValidTransaction] *)

Definition requiredFields : list string := ["amount"; "userId"; "type"].

Definition isValidTransaction (transaction : value) : bool :=
  if negb (truthy transaction)
     || negb (typeof transaction =? "object")%string
  then false
  else if negb (forallb (has_property transaction) requiredFields)
  then false
  else
    match get transaction "amount" with
    | VNumber amount => negb (num_ltb amount (Fin 0))
    | _ => false
    end.

(** ** [enhanceTransaction] *)

Definition enhanceTransaction (r : readings) (transaction : value) : value :=
  VObject
    (extend (own_properties transaction)
       [ ("id", or_else (get transaction "id") (VString (uuid r)));
         ("timestamp", or_else (get transaction "timestamp") (VString (now r)));
         ("processedAt", VNull);
         ("retryCount", VInt 0);
         ("status", VString "pending");
         ("metadata",
           VObject
             (extend [ ("receivedAt", VString (now r));
                       ("source", VString "ui");
                       ("version", VString "1.0") ]
                     (own_properties (get transaction "metadata")))) ]).

(** ** [monitorTransaction] *)

Definition count_submission (s : metrics) : metrics :=
  {| totalTransactions := S (totalTransactions s);
     processedTransactions := processedTransactions s;
     failedTransactions := failedTransactions s;
     averageProcessingTime := averageProcessingTime s;
     lastProcessingTime := lastProcessingTime s |}.

Definition monitorTransaction (m : monitor) (r : readings)
  (transactionData : value) : completion (value * monitor) :=
  if negb (isValidTransaction transactionData) then
    Throw (Error "Invalid transaction data provided")
  else
    let enhancedTransaction := enhanceTransaction r transactionData in
    let m := log_status m enhancedTransaction "pending" in
    let m := with_queue m (transactionQueue m ++ [enhancedTransaction]) in
    let m := with_stats m (count_submission (stats m)) in
    let m := emit m (transaction_queued enhancedTransaction) in
    let m := if enableRealTimeProcessing (cfg m)
             then schedule m (Immediate NextBatch) else m in
    Ok (get enhancedTransaction "id", m).

(** ** [createResultSummary] and its helpers *)

Definition is_successful (kind : string) (a : executedAction) : bool :=
  strict_equals (action_type a) (VString kind) && action_success a.

(** [action.result.score || 0] *)
Definition score_or_zero (a : executedAction) : number :=
  match a with
  | Executed _ _ (Scored s _) => if truthy (VNumber s) then s else Fin 0
  | _ => Fin 0
  end.

(** The two nested loops of [calculateOverallRiskScore]: the sum and the
    number of the scores. *)
Definition add_scores (acc : number * nat) (rule : ruleResult) : number * nat :=
  fold_left
    (fun '(totalScore, scoreCount) action =>
       (num_add totalScore (score_or_zero action), S scoreCount))
    (filter (is_successful "calculate_score") (actions rule))
    acc.

(** The scores that the two loops add, in their order, and [score || 0]
    on a number. *)
Definition added_scores (triggeredRules : list ruleResult) : list number :=
  flat_map
    (fun rule =>
       map score_or_zero (filter (is_successful "calculate_score") (actions rule)))
    triggeredRules.


Definition calculateOverallRiskScore (triggeredRules : list ruleResult)
  : number :=
  if (List.length triggeredRules =? 0)%nat then Fin 0
  else
    let '(totalScore, scoreCount) :=
      fold_left add_scores triggeredRules (Fin 0, O) in
    if (0 <? scoreCount)%nat
    then Math_round (num_div totalScore (num_of_nat scoreCount))
    else Fin 0.

Definition generateRecommendation (triggeredRules flaggedRules : list ruleResult)
  : string :=
  if (0 <? List.length flaggedRules)%nat then "REVIEW_REQUIRED"
  else if (2 <? List.length triggeredRules)%nat then "MONITOR_CLOSELY"
  else if (0 <? List.length triggeredRules)%nat then "NORMAL_MONITORING"
  else "APPROVED".

Definition is_flagged (r : ruleResult) : bool :=
  existsb (is_successful "flag_transaction") (actions r).

Definition createResultSummary (ruleResults : report) : summary :=
  let triggeredRules := filter result (results ruleResults) in
  let flaggedRules := filter is_flagged triggeredRules in
  {| totalRulesEvaluated := totalRules ruleResults;
     rulesTriggered := List.length triggeredRules;
     rulesFlagged := List.length flaggedRules;
     hasErrors := (0 <? errors ruleResults)%nat;
     riskScore := calculateOverallRiskScore triggeredRules;
     recommendation := generateRecommendation triggeredRules flaggedRules |}.

(** ** [queueForAIValidation] and [updateMetrics] *)

Definition queueForAIValidation (m : monitor) (r : processingResult) : monitor :=
  let m :=
    fold_left
      (fun m ruleResult =>
         request m (RuleExecution (if has_error ruleResult then "high" else "normal")
                      ruleResult (pr_transaction r)))
      (results (ruleResults r)) m in
  request m (Performance (processingTime r) (totalRules (ruleResults r))
               (pr_transactionId r)).

Definition updateMetrics (m : monitor) (r : processingResult) : monitor :=
  let s := stats m in
  let processed := S (processedTransactions s) in
  let totalTime :=
    num_add (num_mul (averageProcessingTime s) (num_of_nat (processed - 1)))
            (processingTime r) in
  with_stats m
    {| totalTransactions := totalTransactions s;
       processedTransactions := processed;
       failedTransactions := failedTransactions s;
       averageProcessingTime := num_div totalTime (num_of_nat processed);
       lastProcessingTime := Some (pr_timestamp r) |}.

Section WithHost.
Context {host : Host}.

(** ** [handleTransactionError] *)

Definition count_failure (s : metrics) : metrics :=
  {| totalTransactions := totalTransactions s;
     processedTransactions := processedTransactions s;
     failedTransactions := S (failedTransactions s);
     averageProcessingTime := averageProcessingTime s;
     lastProcessingTime := lastProcessingTime s |}.

Definition handleTransactionError (m : monitor) (r : readings)
  (transaction : value) (error : exn) : monitor :=
  let retryCount :=
    js_add (or_else (get transaction "retryCount") (VInt 0)) (VInt 1) in
  let transaction := set transaction "retryCount" retryCount in
  let m := log_status m transaction "failed" in
  let transaction := set transaction "status" (VString "failed") in
  let transaction := set transaction "error" (VString (exn_message error)) in
  if js_lt retryCount (VNumber (maxRetries (cfg m))) then
    let m := log_status m transaction "pending" in
    let transaction := set transaction "status" (VString "pending") in
    schedule m
      (Timeout (js_mul (VNumber (retryDelay (cfg m))) retryCount)
               (Requeue transaction))
  else
    let m := with_stats m (count_failure (stats m)) in
    emit m
      (transaction_failed
         {| fr_transactionId := get transaction "id";
            fr_timestamp := now r;
            fr_processingTime := Fin 0;
            fr_error := exn_message error;
            fr_retryCount := retryCount;
            fr_transaction := transaction |}).

(** ** [processTransaction] *)

(** The [finally] block: the first entry of [processingQueue] with the
    [id] of the transaction is taken out. *)
Fixpoint remove_first_with_id (id : value) (queue : list value) : list value :=
  match queue with
  | [] => []
  | t :: rest =>
      if strict_equals (get t "id") id then rest
      else t :: remove_first_with_id id rest
  end.

(** [processTransaction(transaction)].  The body runs without a pause up
    to the end of the [try] or of the [catch]; the [finally] block, which
    only touches [processingQueue], is run here right after it. *)
Definition processTransaction (m : monitor) (r : readings)
  (transaction : value) : completion monitor :=
  let m := log_status m transaction "processing" in
  let transaction := set transaction "status" (VString "processing") in
  let transaction := set transaction "processedAt" (VString (now r)) in
  m <- try_catch
         (ruleResults <-
            RuleProcessor.processTransaction (rule_clock r) (now r)
              (rules m) transaction ;;
          let m := log_status m transaction "completed" in
          let transaction := set transaction "status" (VString "completed") in
          let result :=
            {| pr_transactionId := get transaction "id";
               pr_timestamp := now r;
               processingTime := duration r;
               ruleResults := ruleResults;
               pr_transaction := transaction;
               pr_summary := createResultSummary ruleResults |} in
          let m := if hasValidator m then queueForAIValidation m result else m in
          let m := updateMetrics m result in
          let history := transactionHistory m ++ [result] in
          let m :=
            with_history m
              (if (1000 <? List.length history)%nat
               then slice_last 1000 history else history) in
          Ok (emit m (transaction_processed result)))
         (fun error => Ok (handleTransactionError m r transaction error)) ;;
  Ok (with_processing m
        (remove_first_with_id (get transaction "id") (processingQueue m))).

(** ** [processNextBatch] *)



(** ** The callbacks that wait *)


Definition callback_of (s : scheduled) : callback :=
  match s with
  | Timeout _ cb => cb
  | Immediate cb => cb
  end.



(** ** [updateRules] *)


(** ** Listeners and the validator

    [this.emit(...)] runs the listeners of the event before it returns,
    and [queueForAIValidation] calls [queueValidation] of the validator,
    which emits an event of its own.  When a listener throws, the
    exception comes out of [emit] inside the method that emitted.  The
    definitions above are those of a monitor whose listeners and whose
    validator return.  The definitions below take what these do as a
    parameter: [heard e] is the exception that a listener of the event
    [e] throws, if one does, and [refused q] the exception that comes out
    of [queueValidation] for the request [q].  Listeners are taken not
    to call the monitor back. *)
Record surroundings : Type := {
  heard : event -> option exn;
  refused : validationRequest -> option exn
}.

Definition quiet (s : surroundings) : Prop :=
  (forall e, heard s e = None) /\ (forall q, refused s q = None).



(** The loop of [queueForAIValidation] stops at the first request that
    the validator does not take. *)
Fixpoint request_each (s : surroundings) (m : monitor)
  (requests : list validationRequest) : monitor * option exn :=
  match requests with
  | [] => (m, None)
  | q :: rest =>
      let m := request m q in
      match refused s q with
      | Some error => (m, Some error)
      | None => request_each s m rest
      end
  end.

Definition queueForAIValidation_among (s : surroundings) (m : monitor)
  (r : processingResult) : monitor * option exn :=
  request_each s m
    (map (fun ruleResult =>
            RuleExecution (if has_error ruleResult then "high" else "normal")
              ruleResult (pr_transaction r))
       (results (ruleResults r))
     ++ [Performance (processingTime r) (totalRules (ruleResults r))
           (pr_transactionId r)]).

(** [handleTransactionError]: the monitor after the call, and the
    exception of a listener of [transaction_failed], with which the
    promise of the method is rejected. *)
Definition handleTransactionError_among (s : surroundings) (m : monitor)
  (r : readings) (transaction : value) (error : exn) : monitor * option exn :=
  let retryCount :=
    js_add (or_else (get transaction "retryCount") (VInt 0)) (VInt 1) in
  let transaction := set transaction "retryCount" retryCount in
  let m := log_status m transaction "failed" in
  let transaction := set transaction "status" (VString "failed") in
  let transaction := set transaction "error" (VString (exn_message error)) in
  if js_lt retryCount (VNumber (maxRetries (cfg m))) then
    let m := log_status m transaction "pending" in
    let transaction := set transaction "status" (VString "pending") in
    (schedule m
       (Timeout (js_mul (VNumber (retryDelay (cfg m))) retryCount)
                (Requeue transaction)),
     None)
  else
    let m := with_stats m (count_failure (stats m)) in
    let failureResult :=
      {| fr_transactionId := get transaction "id";
         fr_timestamp := now r;
         fr_processingTime := Fin 0;
         fr_error := exn_message error;
         fr_retryCount := retryCount;
         fr_transaction := transaction |} in
    (emit m (transaction_failed failureResult),
     heard s (transaction_failed failureResult)).

(** [processTransaction].  What a listener or the validator throws
    inside the [try] is caught like an exception of the evaluation, with
    the monitor and the transaction as the [try] left them: a
    transaction that was counted as processed is then counted again, as
    waiting for a retry or as failed.  The promise of the method, which
    [processNextBatch] does not read, is rejected when
    [handleTransactionError] is. *)
Definition processTransaction_among (s : surroundings) (m : monitor)
  (r : readings) (transaction : value) : completion monitor :=
  let m := log_status m transaction "processing" in
  let transaction := set transaction "status" (VString "processing") in
  let transaction := set transaction "processedAt" (VString (now r)) in
  m <- match
         RuleProcessor.processTransaction (rule_clock r) (now r)
           (rules m) transaction
       with
       | OutOfFuel => OutOfFuel
       | Throw error =>
           Ok (fst (handleTransactionError_among s m r transaction error))
       | Ok ruleResults =>
           let m := log_status m transaction "completed" in
           let transaction := set transaction "status" (VString "completed") in
           let result :=
             {| pr_transactionId := get transaction "id";
                pr_timestamp := now r;
                processingTime := duration r;
                ruleResults := ruleResults;
                pr_transaction := transaction;
                pr_summary := createResultSummary ruleResults |} in
           let '(m, thrown) :=
             if hasValidator m then queueForAIValidation_among s m result
             else (m, None) in
           match thrown with
           | Some error =>
               Ok (fst (handleTransactionError_among s m r transaction error))
           | None =>
               let m := updateMetrics m result in
               let history := transactionHistory m ++ [result] in
               let m :=
                 with_history m
                   (if (1000 <? List.length history)%nat
                    then slice_last 1000 history else history) in
               let m := emit m (transaction_processed result) in
               match heard s (transaction_processed result) with
               | Some error =>
                   Ok (fst (handleTransactionError_among s m r transaction error))
               | None => Ok m
               end
           end
       end ;;
  Ok (with_processing m
        (remove_first_with_id (get transaction "id") (processingQueue m))).

Fixpoint processEach_among (s : surroundings) (m : monitor)
  (clock : nat -> readings) (n : nat) (batch : list value)
  : completion monitor :=
  match batch with
  | [] => Ok m
  | transaction :: rest =>
      m <- processTransaction_among s m (clock n) transaction ;;
      processEach_among s m clock (S n) rest
  end.

Definition processNextBatch_among (s : surroundings) (m : monitor)
  (clock : nat -> readings) : completion monitor :=
  match transactionQueue m with
  | [] => Ok m
  | queue =>
      let batch := firstn (batchSize (cfg m)) queue in
      let m := with_queue m (skipn (batchSize (cfg m)) queue) in
      let m := with_processing m (processingQueue m ++ batch) in
      processEach_among s m clock O batch
  end.




End WithHost.

End TransactionMonitor.

(* ===================================================================== *)
(** * The validation agent: class [AIValidationAgent] *)
(* ===================================================================== *)

Module AIValidationAgent.

Import RuleProcessor.

(** One entry of [validation.issues]. *)
Record issue : Type := {
  issue_type : string;
  severity : string;
  message : string;
  suggestion : string
}.

(** The object [validation] built by the [validate...] methods. *)
Record verdict : Type := {
  passed : bool;
  issues : list issue;
  score : number;
  details : value
}.

Definition issue_to_value (i : issue) : value :=
  VObject [ ("type", VString (issue_type i));
            ("severity", VString (severity i));
            ("message", VString (message i));
            ("suggestion", VString (suggestion i)) ].

Definition verdict_to_value (v : verdict) : value :=
  VObject [ ("passed", VBoolean (passed v));
            ("issues", VArray (map issue_to_value (issues v)));
            ("score", VNumber (score v));
            ("details", details v) ].

(** One value of the map [rulePerformanceMetrics]. *)
Record ruleMetrics : Type := {
  executionCount : nat;
  totalExecutionTime : number;
  averageExecutionTime : number;
  successCount : nat;
  errorCount : nat;
  lastExecuted : option string
}.

(** One entry of [this.anomalies]. *)
Record anomaly : Type := {
  anomaly_type : string;
  anomaly_timestamp : string;
  errorRate : number;
  threshold : number
}.

Inductive event : Type :=
| validation_queued (validation : value)
| validation_completed (validation : value)
| validation_failed (validation : value) (error : exn)
| anomaly_detected (type : string) (errorRate threshold : number).

(** The fields of an [AIValidationAgent] that the embedded methods use,
    the events emitted so far, the number of [setImmediate] callbacks
    that wait, and the contents handed to [fs.writeFile], oldest
    first. *)
Record agent : Type := {
  maxConcurrentValidations : nat;
  executionTimeThreshold : number;
  errorRateThreshold : number;
  validationQueue : list value;
  activeValidations : list value;
  validationHistory : list value;
  rulePerformanceMetrics : list (value * ruleMetrics);
  anomalies : list anomaly;
  emitted : list event;
  immediates : nat;
  written : list (list value)
}.

(** The agent after its constructor. *)
Definition fresh : agent :=
  {| maxConcurrentValidations := 3;
     executionTimeThreshold := num_of_Z 1000;
     errorRateThreshold := Fin (5 # 100);
     validationQueue := [];
     activeValidations := [];
     validationHistory := [];
     rulePerformanceMetrics := [];
     anomalies := [];
     emitted := [];
     immediates := 0;
     written := [] |}.

(** The readings of the clock and the identifier drawn during one call. *)
Record readings : Type := {
  fresh_id : string;
  now : string;
  took : number
}.

Definition with_queue (a : agent) (q : list value) : agent :=
  {| maxConcurrentValidations := maxConcurrentValidations a;
     executionTimeThreshold := executionTimeThreshold a;
     errorRateThreshold := errorRateThreshold a;
     validationQueue := q;
     activeValidations := activeValidations a;
     validationHistory := validationHistory a;
     rulePerformanceMetrics := rulePerformanceMetrics a;
     anomalies := anomalies a; emitted := emitted a;
     immediates := immediates a; written := written a |}.

Definition with_active (a : agent) (ids : list value) : agent :=
  {| maxConcurrentValidations := maxConcurrentValidations a;
     executionTimeThreshold := executionTimeThreshold a;
     errorRateThreshold := errorRateThreshold a;
     validationQueue := validationQueue a;
     activeValidations := ids;
     validationHistory := validationHistory a;
     rulePerformanceMetrics := rulePerformanceMetrics a;
     anomalies := anomalies a; emitted := emitted a;
     immediates := immediates a; written := written a |}.

Definition with_history (a : agent) (h : list value) : agent :=
  {| maxConcurrentValidations := maxConcurrentValidations a;
     executionTimeThreshold := executionTimeThreshold a;
     errorRateThreshold := errorRateThreshold a;
     validationQueue := validationQueue a;
     activeValidations := activeValidations a;
     validationHistory := h;
     rulePerformanceMetrics := rulePerformanceMetrics a;
     anomalies := anomalies a; emitted := emitted a;
     immediates := immediates a; written := written a |}.

Definition with_metrics (a : agent) (ms : list (value * ruleMetrics)) : agent :=
  {| maxConcurrentValidations := maxConcurrentValidations a;
     executionTimeThreshold := executionTimeThreshold a;
     errorRateThreshold := errorRateThreshold a;
     validationQueue := validationQueue a;
     activeValidations := activeValidations a;
     validationHistory := validationHistory a;
     rulePerformanceMetrics := ms;
     anomalies := anomalies a; emitted := emitted a;
     immediates := immediates a; written := written a |}.

Definition with_anomalies (a : agent) (xs : list anomaly) : agent :=
  {| maxConcurrentValidations := maxConcurrentValidations a;
     executionTimeThreshold := executionTimeThreshold a;
     errorRateThreshold := errorRateThreshold a;
     validationQueue := validationQueue a;
     activeValidations := activeValidations a;
     validationHistory := validationHistory a;
     rulePerformanceMetrics := rulePerformanceMetrics a;
     anomalies := xs; emitted := emitted a;
     immediates := immediates a; written := written a |}.

(** [this.emit(...)], for listeners that return: the event is added to
    those emitted.  What a listener that throws does to the method that
    emits is followed in the definitions named [..._among], further
    down. *)
Definition emit (a : agent) (e : event) : agent :=
  {| maxConcurrentValidations := maxConcurrentValidations a;
     executionTimeThreshold := executionTimeThreshold a;
     errorRateThreshold := errorRateThreshold a;
     validationQueue := validationQueue a;
     activeValidations := activeValidations a;
     validationHistory := validationHistory a;
     rulePerformanceMetrics := rulePerformanceMetrics a;
     anomalies := anomalies a; emitted := emitted a ++ [e];
     immediates := immediates a; written := written a |}.

(** [setImmediate(() => this.processValidationQueue())] *)
Definition setImmediate (a : agent) : agent :=
  {| maxConcurrentValidations := maxConcurrentValidations a;
     executionTimeThreshold := executionTimeThreshold a;
     errorRateThreshold := errorRateThreshold a;
     validationQueue := validationQueue a;
     activeValidations := activeValidations a;
     validationHistory := validationHistory a;
     rulePerformanceMetrics := rulePerformanceMetrics a;
     anomalies := anomalies a; emitted := emitted a;
     immediates := S (immediates a); written := written a |}.

(** [saveValidationHistory]: the history is printed by
    [JSON.stringify] and goes to [fs.writeFile]; a failure of the write
    is caught and logged.  The history is a list of values, which are
    trees, and [JSON.stringify] prints every tree; on a history that
    holds a cycle, as the requests that the monitor sends do in the
    source, it throws, and nothing is written. *)
Definition saveValidationHistory (a : agent) : agent :=
  {| maxConcurrentValidations := maxConcurrentValidations a;
     executionTimeThreshold := executionTimeThreshold a;
     errorRateThreshold := errorRateThreshold a;
     validationQueue := validationQueue a;
     activeValidations := activeValidations a;
     validationHistory := validationHistory a;
     rulePerformanceMetrics := rulePerformanceMetrics a;
     anomalies := anomalies a; emitted := emitted a;
     immediates := immediates a;
     written := written a ++ [validationHistory a] |}.

(** [xs.slice(-n)] *)
Definition slice_last {A : Type} (n : nat) (xs : list A) : list A :=
  skipn (List.length xs - n) xs.

Section WithHost.
Context {host : Host}.

(** ** [calculateConditionComplexity] *)

(** [xs.reduce((sum, x) => sum + f(x), 0)] on the elements of an
    array. *)
Fixpoint sum_of (f : value -> completion nat) (xs : list value)
  : completion nat :=
  match xs with
  | [] => Ok O
  | x :: rest => n <- f x ;; total <- sum_of f rest ;; Ok (n + total)%nat
  end.

Definition reduce_on_array (receiver : value) (method : string)
  (k : list value -> completion nat) : completion nat :=
  match receiver with
  | VArray xs => k xs
  | _ => Throw (TypeError (method ++ " is not a function")%string)
  end.

(** [calculateConditionComplexity], with a budget for the depth of the
    recursion. *)
Fixpoint calculateConditionComplexity_fuel (fuel : nat) (conditions : value)
  (depth : nat) : completion nat :=
  match fuel with
  | O => OutOfFuel
  | S fuel' =>
      if negb (truthy conditions) then Ok O
      else if truthy (get conditions "and") then
        sum <- reduce_on_array (get conditions "and") "conditions.and.reduce"
                 (sum_of (fun cond =>
                    calculateConditionComplexity_fuel fuel' cond (S depth))) ;;
        Ok (depth + sum)%nat
      else if truthy (get conditions "or") then
        sum <- reduce_on_array (get conditions "or") "conditions.or.reduce"
                 (sum_of (fun cond =>
                    calculateConditionComplexity_fuel fuel' cond (S depth))) ;;
        Ok (depth + sum)%nat
      else if truthy (get conditions "not") then
        inner <- calculateConditionComplexity_fuel fuel'
                   (get conditions "not") (S depth) ;;
        Ok (depth + (inner + 1))%nat
      else Ok (depth + 1)%nat
  end.

(** [calculateConditionComplexity(conditions, depth)] *)
Definition calculateConditionComplexity (conditions : value) (depth : nat)
  : completion nat :=
  calculateConditionComplexity_fuel (S (JS.depth conditions)) conditions depth.

(** ** [flattenConditions] *)

(** [xs.forEach(x => f(x, result))] with the list [result] passed
    along. *)
Fixpoint each_into (f : value -> list value -> completion (list value))
  (xs : list value) (acc : list value) : completion (list value) :=
  match xs with
  | [] => Ok acc
  | x :: rest => acc <- f x acc ;; each_into f rest acc
  end.

Definition forEach_on_array (receiver : value) (method : string)
  (k : list value -> completion (list value)) : completion (list value) :=
  match receiver with
  | VArray xs => k xs
  | _ => Throw (TypeError (method ++ " is not a function")%string)
  end.

Fixpoint flattenConditions_fuel (fuel : nat) (conditions : value)
  (acc : list value) : completion (list value) :=
  match fuel with
  | O => OutOfFuel
  | S fuel' =>
      if negb (truthy conditions) then Ok acc
      else if truthy (get conditions "and") then
        forEach_on_array (get conditions "and") "conditions.and.forEach"
          (fun xs => each_into (flattenConditions_fuel fuel') xs acc)
      else if truthy (get conditions "or") then
        forEach_on_array (get conditions "or") "conditions.or.forEach"
          (fun xs => each_into (flattenConditions_fuel fuel') xs acc)
      else if truthy (get conditions "not") then
        flattenConditions_fuel fuel' (get conditions "not") acc
      else if truthy (get conditions "field")
              && truthy (get conditions "operator") then
        Ok (acc ++ [conditions])
      else Ok acc
  end.

Definition flattenConditions (conditions : value) : completion (list value) :=
  flattenConditions_fuel (S (JS.depth conditions)) conditions [].

(** ** [areConditionsContradictory] and [findContradictoryConditions] *)

Definition contradictoryPairs : list (string * string) :=
  [ ("equals", "not_equals");
    ("greater_than", "less_than_or_equal");
    ("less_than", "greater_than_or_equal");
    ("contains", "not_contains");
    ("in", "not_in") ].

Definition areConditionsContradictory (cond1 cond2 : value) : bool :=
  if negb (strict_equals (get cond1 "field") (get cond2 "field")) then false
  else
    existsb
      (fun '(op1, op2) =>
         (strict_equals (get cond1 "operator") (VString op1)
          && strict_equals (get cond2 "operator") (VString op2))
         || (strict_equals (get cond1 "operator") (VString op2)
             && strict_equals (get cond2 "operator") (VString op1)))
      contradictoryPairs.

(** The pairs [(flat[i], flat[j])] with [i < j] that contradict each
    other. *)
Fixpoint contradictory_pairs (flat : list value) : list (value * value) :=
  match flat with
  | [] => []
  | x :: rest =>
      map (fun y => (x, y)) (filter (areConditionsContradictory x) rest)
      ++ contradictory_pairs rest
  end.

Definition findContradictoryConditions (conditions : value)
  : completion (list (value * value)) :=
  flatConditions <- flattenConditions conditions ;;
  Ok (contradictory_pairs flatConditions).

(** ** [analyzeRuleLogic] *)

Definition no_conditions_issue : issue :=
  {| issue_type := "logic";
     severity := "high";
     message := "Rule has no conditions";
     suggestion :=
       "Add appropriate conditions to define when the rule should trigger" |}.

Definition complexity_issue (conditionComplexity : nat) : issue :=
  {| issue_type := "complexity";
     severity := "warning";
     message :=
       ("Rule conditions are overly complex (complexity: "
          ++ number_toString (num_of_nat conditionComplexity) ++ ")")%string;
     suggestion := "Consider breaking down into multiple simpler rules" |}.

Definition contradiction_issue : issue :=
  {| issue_type := "logic";
     severity := "critical";
     message := "Rule contains contradictory conditions";
     suggestion :=
       "Review and fix logical contradictions in rule conditions" |}.

Definition analyzeRuleLogic (rule : value) : completion (list issue) :=
  conditions <- member rule "conditions" ;;
  let issues := if negb (truthy conditions) then [no_conditions_issue] else [] in
  conditionComplexity <- calculateConditionComplexity conditions O ;;
  let issues :=
    if (10 <? conditionComplexity)%nat
    then issues ++ [complexity_issue conditionComplexity] else issues in
  contradictions <- findContradictoryConditions conditions ;;
  let issues :=
    if (0 <? List.length contradictions)%nat
    then issues ++ [contradiction_issue] else issues in
  Ok issues.

(** ** [analyzeRuleSecurity] *)

Definition suspiciousPatterns : list string :=
  [ "eval\("; "function\s*\("; "new\s+Function"; "script" ].

Definition dataLeakagePatterns : list string :=
  [ "password"; "secret"; "token"; "key" ].

Definition suspicious_issue (source : string) : issue :=
  {| issue_type := "security";
     severity := "critical";
     message :=
       ("Rule contains potentially dangerous pattern: " ++ source)%string;
     suggestion := "Remove or replace potentially unsafe expressions" |}.

Definition leakage_issue (source : string) : issue :=
  {| issue_type := "security";
     severity := "warning";
     message := ("Rule may expose sensitive data: " ++ source)%string;
     suggestion := "Ensure sensitive data is properly masked or excluded" |}.

Definition analyzeRuleSecurity (rule : value) : list issue :=
  let ruleString := JSON_stringify rule in
  map suspicious_issue
    (filter (fun pattern => regex_test pattern ruleString) suspiciousPatterns)
  ++ map leakage_issue
       (filter (fun pattern => regex_test pattern ruleString) dataLeakagePatterns).

(** ** [countConditions] *)

Fixpoint countConditions_fuel (fuel : nat) (conditions : value)
  : completion nat :=
  match fuel with
  | O => OutOfFuel
  | S fuel' =>
      if negb (truthy conditions) then Ok O
      else if truthy (get conditions "and") then
        reduce_on_array (get conditions "and") "conditions.and.reduce"
          (sum_of (countConditions_fuel fuel'))
      else if truthy (get conditions "or") then
        reduce_on_array (get conditions "or") "conditions.or.reduce"
          (sum_of (countConditions_fuel fuel'))
      else if truthy (get conditions "not") then
        countConditions_fuel fuel' (get conditions "not")
      else Ok 1%nat
  end.

Definition countConditions (conditions : value) : completion nat :=
  countConditions_fuel (S (JS.depth conditions)) conditions.

(** ** [validateRuleLogic] *)

Definition validateRuleLogic (data : value) : completion verdict :=
  rule <- member data "rule" ;;
  logicIssues <- analyzeRuleLogic rule ;;
  let securityIssues := analyzeRuleSecurity rule in
  let issues := logicIssues ++ securityIssues in
  let score :=
    num_sub (num_of_Z 100)
            (num_mul (num_of_nat (List.length issues)) (num_of_Z 10)) in
  conditionsCount <- countConditions (get rule "conditions") ;;
  Ok {| passed := num_geb score (num_of_Z 70);
        issues := issues;
        score := score;
        details :=
          VObject
            [ ("ruleId", get rule "id");
              ("conditionsCount", VNat conditionsCount);
              ("actionsCount",
                if truthy (get rule "actions")
                then get (get rule "actions") "length" else VInt 0) ] |}.

(** ** [validateRuleExecution] *)

Definition add_issue (v : verdict) (i : issue) (penalty : Z) : verdict :=
  {| passed := passed v;
     issues := issues v ++ [i];
     score := num_sub (score v) (num_of_Z penalty);
     details := details v |}.

Definition not_passed (v : verdict) : verdict :=
  {| passed := false; issues := issues v; score := score v;
     details := details v |}.

Definition with_details (v : verdict) (d : value) : verdict :=
  {| passed := passed v; issues := issues v; score := score v; details := d |}.

(** [xs.filter(f)] on the elements of an array. *)
Fixpoint filter_with (f : value -> completion bool) (xs : list value)
  : completion (list value) :=
  match xs with
  | [] => Ok []
  | x :: rest =>
      keep <- f x ;;
      kept <- filter_with f rest ;;
      Ok (if keep then x :: kept else kept)
  end.

Definition filter_on_array (receiver : value) (method : string)
  (f : value -> completion bool) : completion (list value) :=
  match receiver with
  | VArray xs => filter_with f xs
  | _ => Throw (TypeError (method ++ " is not a function")%string)
  end.

Definition validateRuleExecution (a : agent) (data : value)
  : completion verdict :=
  ruleResult <- member data "ruleResult" ;;
  let transactionData := get data "transactionData" in
  let expectedResult := get data "expectedResult" in
  let validation :=
    {| passed := true; issues := []; score := num_of_Z 100;
       details := VObject [] |} in
  executionTime <- member ruleResult "executionTime" ;;
  let validation :=
    if js_gt executionTime (VNumber (executionTimeThreshold a)) then
      add_issue validation
        {| issue_type := "performance";
           severity := "warning";
           message :=
             ("Rule execution time (" ++ ToString executionTime
                ++ "ms) exceeds threshold")%string;
           suggestion :=
             "Consider optimizing rule conditions or splitting complex rules" |}
        10
    else validation in
  let validation :=
    if truthy (get ruleResult "error") then
      add_issue (not_passed validation)
        {| issue_type := "error";
           severity := "critical";
           message :=
             ("Rule execution failed: "
                ++ ToString (get ruleResult "error"))%string;
           suggestion := "Review rule syntax and field mappings" |}
        50
    else validation in
  let validation :=
    if negb (strict_equals expectedResult VUndefined)
       && negb (strict_equals (get ruleResult "result") expectedResult) then
      add_issue validation
        {| issue_type := "accuracy";
           severity := "high";
           message :=
             ("Rule result (" ++ ToString (get ruleResult "result")
                ++ ") doesn't match expected result ("
                ++ ToString expectedResult ++ ")")%string;
           suggestion := "Review rule logic and test cases" |}
        30
    else validation in
  let actions := get ruleResult "actions" in
  validation <-
    (if truthy actions && js_gt (get actions "length") (VInt 0) then
       failedActions <-
         filter_on_array actions "ruleResult.actions.filter"
           (fun action =>
              success <- member action "success" ;;
              Ok (negb (truthy success))) ;;
       if (0 <? List.length failedActions)%nat then
         Ok (add_issue validation
               {| issue_type := "action_failure";
                  severity := "high";
                  message :=
                    (number_toString (num_of_nat (List.length failedActions))
                       ++ " actions failed to execute")%string;
                  suggestion :=
                    "Review action configurations and dependencies" |}
               20)
       else Ok validation
     else Ok validation) ;;
  transactionId <- member transactionData "id" ;;
  Ok (with_details validation
        (VObject
           [ ("ruleId", get ruleResult "ruleId");
             ("executionTime", executionTime);
             ("actionsExecuted",
               if truthy actions then get actions "length" else VInt 0);
             ("transactionId", transactionId) ])).

(** ** [validatePerformance], [validateSecurity], [validateDataIntegrity] *)

Definition pass_through (kind : string) : verdict :=
  {| passed := true; issues := []; score := num_of_Z 100;
     details := VObject [("type", VString kind)] |}.

(** ** [processValidation] *)

(** The [switch] on [validation.type]. *)
Definition dispatch (a : agent) (validation : value) : completion verdict :=
  let type := get validation "type" in
  let data := get validation "data" in
  if strict_equals type (VString "rule_execution") then
    validateRuleExecution a data
  else if strict_equals type (VString "rule_logic") then
    validateRuleLogic data
  else if strict_equals type (VString "performance") then
    Ok (pass_through "performance")
  else if strict_equals type (VString "security") then
    Ok (pass_through "security")
  else if strict_equals type (VString "data_integrity") then
    Ok (pass_through "data_integrity")
  else
    Throw (Error ("Unknown validation type: " ++ ToString type)%string).

(** [processValidation(validation)]: the validation with its new status,
    and the result or the exception of the promise. *)
Definition processValidation (a : agent) (r : readings) (validation : value)
  : value * completion value :=
  let validation := set validation "status" (VString "processing") in
  (validation,
   result <- dispatch a validation ;;
   let result := verdict_to_value result in
   let result := set result "executionTime" (VNumber (took r)) in
   let result := set result "validationId" (get validation "id") in
   Ok result).

(** ** [updateRulePerformanceMetrics] *)

Definition initial_metrics : ruleMetrics :=
  {| executionCount := 0; totalExecutionTime := Fin 0;
     averageExecutionTime := Fin 0; successCount := 0; errorCount := 0;
     lastExecuted := None |}.

(** [map.get(key)] of a [Map]: keys are compared by SameValueZero. *)
Fixpoint map_get (key : value) (entries : list (value * ruleMetrics))
  : option ruleMetrics :=
  match entries with
  | [] => None
  | (k, m) :: rest => if same_value_zero k key then Some m else map_get key rest
  end.

(** [map.set(key, m)] *)
Fixpoint map_set (key : value) (m : ruleMetrics)
  (entries : list (value * ruleMetrics)) : list (value * ruleMetrics) :=
  match entries with
  | [] => [(key, m)]
  | (k, old) :: rest =>
      if same_value_zero k key then (k, m) :: rest
      else (k, old) :: map_set key m rest
  end.

Definition updateRulePerformanceMetrics (a : agent) (r : readings)
  (ruleId result : value) : agent :=
  let metrics :=
    match map_get ruleId (rulePerformanceMetrics a) with
    | Some m => m
    | None => initial_metrics
    end in
  let count := S (executionCount metrics) in
  let total :=
    ToNumber (js_add (VNumber (totalExecutionTime metrics))
                     (or_else (get result "executionTime") (VInt 0))) in
  with_metrics a
    (map_set ruleId
       {| executionCount := count;
          totalExecutionTime := total;
          averageExecutionTime := num_div total (num_of_nat count);
          successCount :=
            if truthy (get result "passed")
            then S (successCount metrics) else successCount metrics;
          errorCount :=
            if truthy (get result "passed")
            then errorCount metrics else S (errorCount metrics);
          lastExecuted := Some (now r) |}
       (rulePerformanceMetrics a)).

(** ** [handleValidationResult] and [handleValidationError] *)

(** [handleValidationResult(validation, result)], for the [result] that
    [processValidation] returned, an object. *)
Definition handleValidationResult (a : agent) (r : readings)
  (validation result : value) : agent :=
  let validation := set validation "status" (VString "completed") in
  let validation := set validation "result" result in
  let entry := VObject (extend (own_properties validation) [("result", result)]) in
  let history := validationHistory a ++ [entry] in
  let a :=
    with_history a
      (if (1000 <? List.length history)%nat
       then slice_last 1000 history else history) in
  let a :=
    if truthy (get result "details")
       && truthy (get (get result "details") "ruleId")
    then updateRulePerformanceMetrics a r (get (get result "details") "ruleId") result
    else a in
  let a := emit a (validation_completed validation) in
  if (Nat.modulo (List.length (validationHistory a)) 10 =? 0)%nat
  then saveValidationHistory a else a.

Definition handleValidationError (a : agent) (validation : value) (error : exn)
  : agent :=
  let validation := set validation "status" (VString "failed") in
  let validation := set validation "error" (VString (exn_message error)) in
  let a := with_history a (validationHistory a ++ [validation]) in
  emit a (validation_failed validation error).

(** ** [queueValidation] *)

Definition queueValidation (a : agent) (r : readings) (validationRequest : value)
  : completion (value * agent) :=
  type <- member validationRequest "type" ;;
  let validation :=
    VObject
      [ ("id", VString (fresh_id r));
        ("timestamp", VString (now r));
        ("type", or_else type (VString "rule_execution"));
        ("priority",
          or_else (get validationRequest "priority") (VString "normal"));
        ("data", get validationRequest "data");
        ("status", VString "queued") ] in
  let a := with_queue a (validationQueue a ++ [validation]) in
  let a := emit a (validation_queued validation) in
  let a :=
    if strict_equals (get validation "priority") (VString "high")
       && (List.length (activeValidations a) <? maxConcurrentValidations a)%nat
    then setImmediate a else a in
  Ok (get validation "id", a).

(** ** [processValidationQueue] *)

(** [set.add(id)] and [set.delete(id)] of a [Set]. *)
Definition set_add (id : value) (ids : list value) : list value :=
  if existsb (same_value_zero id) ids then ids else ids ++ [id].

Definition set_delete (id : value) (ids : list value) : list value :=
  filter (fun x => negb (same_value_zero id x)) ids.

(** The [while] loop: validations leave the queue while a slot is free. *)
Fixpoint take_free (a : agent) (budget : nat) : agent * list value :=
  match budget with
  | O => (a, [])
  | S budget' =>
      match validationQueue a with
      | [] => (a, [])
      | validation :: rest =>
          if (List.length (activeValidations a) <? maxConcurrentValidations a)%nat
          then
            let a := with_queue a rest in
            let a :=
              with_active a (set_add (get validation "id") (activeValidations a)) in
            let '(a, started) := take_free a budget' in
            (a, validation :: started)
          else (a, [])
      end
  end.

(** What the promise of one started validation does once the loop has
    returned: [then] the result is handled, or the error is caught, and
    [finally] the slot is freed. *)
Definition settle (a : agent) (r : readings) (validation : value)
  : completion agent :=
  let '(validation, outcome) := processValidation a r validation in
  a <- match outcome with
       | Ok result => Ok (handleValidationResult a r validation result)
       | Throw error => Ok (handleValidationError a validation error)
       | OutOfFuel => OutOfFuel
       end ;;
  Ok (with_active a (set_delete (get validation "id") (activeValidations a))).

Fixpoint settle_all (a : agent) (clock : nat -> readings) (n : nat)
  (started : list value) : completion agent :=
  match started with
  | [] => Ok a
  | validation :: rest =>
      a <- settle a (clock n) validation ;;
      settle_all a clock (S n) rest
  end.

(** [processValidationQueue()] followed by the promises it started,
    settled in the order in which they were started.  The loop does
    not fix that order; [processValidationQueue_in], further down, takes
    it as a parameter. *)
Definition processValidationQueue (a : agent) (clock : nat -> readings)
  : completion agent :=
  let '(a, started) := take_free a (List.length (validationQueue a)) in
  settle_all a clock O started.

(** ** Listeners, and the order of the promises

    [this.emit(...)] runs the listeners of the event before it returns;
    when one of them throws, the exception comes out of [emit], inside
    [handleValidationResult] or [handleValidationError].  The
    definitions above are those of an agent whose listeners return.  In
    the definitions below [heard e] is the exception that a listener of
    the event [e] throws, if one does. *)
Definition listeners : Type := event -> option exn.

Definition quiet (heard : listeners) : Prop := forall e, heard e = None.

(** [handleValidationResult]: the agent after the call, and the
    exception of a listener of [validation_completed], with which the
    promise of the method is rejected; the history is then not saved. *)
Definition handleValidationResult_among (heard : listeners) (a : agent)
  (r : readings) (validation result : value) : agent * option exn :=
  let validation := set validation "status" (VString "completed") in
  let validation := set validation "result" result in
  let entry := VObject (extend (own_properties validation) [("result", result)]) in
  let history := validationHistory a ++ [entry] in
  let a :=
    with_history a
      (if (1000 <? List.length history)%nat
       then slice_last 1000 history else history) in
  let a :=
    if truthy (get result "details")
       && truthy (get (get result "details") "ruleId")
    then updateRulePerformanceMetrics a r (get (get result "details") "ruleId") result
    else a in
  let a := emit a (validation_completed validation) in
  match heard (validation_completed validation) with
  | Some error => (a, Some error)
  | None =>
      (if (Nat.modulo (List.length (validationHistory a)) 10 =? 0)%nat
       then saveValidationHistory a else a,
       None)
  end.

Definition handleValidationError_among (heard : listeners) (a : agent)
  (validation : value) (error : exn) : agent * option exn :=
  let validation := set validation "status" (VString "failed") in
  let validation := set validation "error" (VString (exn_message error)) in
  let a := with_history a (validationHistory a ++ [validation]) in
  (emit a (validation_failed validation error),
   heard (validation_failed validation error)).

(** The promise of one started validation: [catch] follows [then], so
    that an exception that comes out of [handleValidationResult] is
    handled by [handleValidationError], with the validation as the
    former left it.  An exception that comes out of
    [handleValidationError] rejects the promise for good, after the
    [finally] has freed the slot; the agent does not handle it. *)
Definition settle_among (heard : listeners) (a : agent) (r : readings)
  (validation : value) : completion agent :=
  let '(validation, outcome) := processValidation a r validation in
  a <- match outcome with
       | Ok result =>
           let '(a, thrown) :=
             handleValidationResult_among heard a r validation result in
           match thrown with
           | None => Ok a
           | Some error =>
               let completed :=
                 set (set validation "status" (VString "completed"))
                     "result" result in
               Ok (fst (handleValidationError_among heard a completed error))
           end
       | Throw error =>
           Ok (fst (handleValidationError_among heard a validation error))
       | OutOfFuel => OutOfFuel
       end ;;
  Ok (with_active a (set_delete (get validation "id") (activeValidations a))).

Fixpoint settle_each (heard : listeners) (a : agent) (clock : nat -> readings)
  (n : nat) (settled : list value) : completion agent :=
  match settled with
  | [] => Ok a
  | validation :: rest =>
      a <- settle_among heard a (clock n) validation ;;
      settle_each heard a clock (S n) rest
  end.

(** The validations at the positions [order] of the list [started]. *)
Definition picked (started : list value) (order : list nat) : list value :=
  flat_map (fun i => match nth_error started i with
                     | Some validation => [validation]
                     | None => []
                     end) order.

(** [processValidationQueue()] followed by the promises it started.
    The loop does not fix the order in which the promises settle:
    [order] lists the started validations, by their positions, in that
    order. *)
Definition processValidationQueue_in (heard : listeners) (a : agent)
  (clock : nat -> readings) (order : list nat) : completion agent :=
  let '(a, started) := take_free a (List.length (validationQueue a)) in
  settle_each heard a clock O (picked started order).

(** ** [analyzeHistoricalPatterns] *)

Definition with_thresholds (a : agent) (execution rate : number) : agent :=
  {| maxConcurrentValidations := maxConcurrentValidations a;
     executionTimeThreshold := execution;
     errorRateThreshold := rate;
     validationQueue := validationQueue a;
     activeValidations := activeValidations a;
     validationHistory := validationHistory a;
     rulePerformanceMetrics := rulePerformanceMetrics a;
     anomalies := anomalies a; emitted := emitted a;
     immediates := immediates a; written := written a |}.

(** [xs.map(f)] on the elements of an array. *)
Fixpoint map_with (f : value -> completion value) (xs : list value)
  : completion (list value) :=
  match xs with
  | [] => Ok []
  | x :: rest =>
      y <- f x ;;
      ys <- map_with f rest ;;
      Ok (y :: ys)
  end.

(** [Math.max(...xs)] *)
Definition max_of (xs : list value) : number :=
  fold_left (fun acc x => Math_max acc (ToNumber x)) xs NegInf.

Definition analyzeHistoricalPatterns (a : agent) : completion agent :=
  if (List.length (validationHistory a) =? 0)%nat then Ok a
  else
    times <- map_with (fun v => member v "executionTime") (validationHistory a) ;;
    let executionTimes := filter truthy times in
    let a :=
      if (0 <? List.length executionTimes)%nat then
        let avgExecutionTime :=
          num_div (ToNumber (fold_left js_add executionTimes (VInt 0)))
                  (num_of_nat (List.length executionTimes)) in
        let maxExecutionTime := max_of executionTimes in
        with_thresholds a
          (Math_max (num_mul avgExecutionTime (Fin 3))
                    (num_mul maxExecutionTime (Fin (3 # 2))))
          (errorRateThreshold a)
      else a in
    errorEvents <-
      filter_with (fun v => hasErrors <- member v "hasErrors" ;;
                            Ok (truthy hasErrors))
        (validationHistory a) ;;
    if (0 <? List.length errorEvents)%nat then
      let errorRate :=
        num_div (num_of_nat (List.length errorEvents))
                (num_of_nat (List.length (validationHistory a))) in
      Ok (with_thresholds a (executionTimeThreshold a)
            (Math_max (num_mul errorRate (Fin 2)) (Fin (1 # 100))))
    else Ok a.

(** ** [shouldLog] *)

Definition levels : value :=
  VObject [ ("debug", VInt 0); ("info", VInt 1);
            ("warning", VInt 2); ("error", VInt 3) ].

(** [shouldLog(level)], for the value [logLevel] of [this.config]. *)
Definition shouldLog (logLevel level : value) : bool :=
  let configLevel := or_else (get levels (ToString logLevel)) (VInt 1) in
  let messageLevel := or_else (get levels (ToString level)) (VInt 1) in
  js_ge messageLevel configLevel.

(** ** [detectAnomalies] *)

Definition detectAnomalies (a : agent) (r : readings) : completion agent :=
  let recentValidations := slice_last 100 (validationHistory a) in
  if (List.length recentValidations <? 10)%nat then Ok a
  else
    failed <- filter_with
                (fun v => passed <- member v "passed" ;; Ok (negb (truthy passed)))
                recentValidations ;;
    let errorRate :=
      num_div (num_of_nat (List.length failed))
              (num_of_nat (List.length recentValidations)) in
    if num_gtb errorRate (errorRateThreshold a) then
      let a :=
        with_anomalies a
          (anomalies a
             ++ [ {| anomaly_type := "high_error_rate";
                     anomaly_timestamp := now r;
                     errorRate := errorRate;
                     threshold := errorRateThreshold a |} ]) in
      Ok (emit a (anomaly_detected "high_error_rate" errorRate
                    (errorRateThreshold a)))
    else Ok a.

End WithHost.

End AIValidationAgent.

(* ===================================================================== *)
(** * The data model and the wording of the specification *)
(* ===================================================================== *)

Module Spec.

(** The condition tree of the specification: a tagged variant. *)
Inductive condition : Type :=
| And (children : list condition)
| Or (children : list condition)
| Not (child : condition)
| Leaf (field operator : string) (value : value).

(** The document that stands for a condition in a rule. *)
Fixpoint to_value (c : condition) : value :=
  match c with
  | And children => VObject [("and", VArray (map to_value children))]
  | Or children => VObject [("or", VArray (map to_value children))]
  | Not child => VObject [("not", to_value child)]
  | Leaf field operator value =>
      VObject [ ("field", VString field);
                ("operator", VString operator);
                ("value", value) ]
  end.

(** The complexity in the words of the specification: every leaf counts
    for its nesting depth plus one, every [not] for one more. *)
Fixpoint leaf_complexity (depth : nat) (c : condition) : nat :=
  match c with
  | And children => list_sum (map (leaf_complexity (S depth)) children)
  | Or children => list_sum (map (leaf_complexity (S depth)) children)
  | Not child => leaf_complexity (S depth) child + 1
  | Leaf _ _ _ => depth + 1
  end.

(** The depths of all the nodes of a condition, the root being at
    [depth]. *)
Fixpoint node_depths (depth : nat) (c : condition) : list nat :=
  match c with
  | And children => depth :: flat_map (node_depths (S depth)) children
  | Or children => depth :: flat_map (node_depths (S depth)) children
  | Not child => depth :: node_depths (S depth) child
  | Leaf _ _ _ => [depth]
  end.

Fixpoint count_leaves (c : condition) : nat :=
  match c with
  | And children => list_sum (map count_leaves children)
  | Or children => list_sum (map count_leaves children)
  | Not child => count_leaves child
  | Leaf _ _ _ => 1
  end.

Fixpoint count_nots (c : condition) : nat :=
  match c with
  | And children => list_sum (map count_nots children)
  | Or children => list_sum (map count_nots children)
  | Not child => S (count_nots child)
  | Leaf _ _ _ => 0
  end.

(** The complexity as a count over nodes: every node counts for its
    depth, every leaf and every [not] for one more. *)
Definition node_complexity (depth : nat) (c : condition) : nat :=
  list_sum (node_depths depth c) + count_leaves c + count_nots c.

(** The leaves that [flattenConditions] collects, from left to right:
    those with a field and an operator that are not empty. *)
Fixpoint flat_leaves (c : condition) : list JS.value :=
  match c with
  | And children => flat_map flat_leaves children
  | Or children => flat_map flat_leaves children
  | Not child => flat_leaves child
  | Leaf field operator _ =>
      if truthy (VString field) && truthy (VString operator)
      then [to_value c] else []
  end.

(** An issue of the kind that reports an excessive complexity. *)
Definition is_complexity_issue (i : AIValidationAgent.issue) : bool :=
  (AIValidationAgent.issue_type i =? "complexity")%string.

(** A condition is a leaf on [field] with [operator] and [value] when it
    is an object without [and], [or] and [not] that carries the three
    properties. *)
Definition is_leaf (condition field : JS.value) (operator : string)
  (value : JS.value) : Prop :=
  truthy condition = true
  /\ truthy (get condition "and") = false
  /\ truthy (get condition "or") = false
  /\ truthy (get condition "not") = false
  /\ get condition "field" = field
  /\ get condition "operator" = VString operator
  /\ get condition "value" = value.

(** The condition names, as an operator, no member that the table of
    the operators inherits: no object in it has an [operator] that reads
    as one of the [inherited_names]. *)
Fixpoint own_operators {host : Host} (v : JS.value) : bool :=
  match v with
  | VArray xs =>
      (fix all (xs : list JS.value) : bool :=
         match xs with
         | [] => true
         | x :: rest => own_operators x && all rest
         end) xs
  | VObject props =>
      negb (existsb (String.eqb (ToString (get v "operator")))
              RuleProcessor.inherited_names)
      && (fix all (props : list (string * JS.value)) : bool :=
            match props with
            | [] => true
            | (_, x) :: rest => own_operators x && all rest
            end) props
  | _ => true
  end.

(** The field is absent from the context: the context itself is
    [undefined] or [null], or the path of the field reaches, after the
    keys [before], an [object] that is [undefined] or [null] or that has
    nothing under the next [key].  The [key] can be the last one of the
    path or an intermediate one. *)
Definition absent {host : Host} (field context : JS.value) : Prop :=
  nullish context = true
  \/ exists before key after object,
       castPath field context = before ++ key :: after
       /\ walk context before = Some object
       /\ (nullish object = true \/ get object key = VUndefined).

(** The entry that [executeActions] records for an action: the result
    of the action when it returns, its message when it throws. *)
Definition recorded {host : Host} (transactionData action : JS.value)
  (entry : RuleProcessor.executedAction) : Prop :=
  (exists r,
     RuleProcessor.executeAction action transactionData = Ok r
     /\ entry = RuleProcessor.Executed (get action "type") (get action "config") r)
  \/ (exists e,
        RuleProcessor.executeAction action transactionData = Throw e
        /\ entry = RuleProcessor.Failed (get action "type") (get action "config")
                    (exn_message e)).






(** A template as a sequence of texts and placeholders. *)
Inductive segment : Type :=
| Text (s : string)
| Placeholder (field : string).



Definition written (g : segment) : string :=
  match g with
  | Text s => s
  | Placeholder field => ("{" ++ field ++ "}")%string
  end.



(** The score of an action, in the words of the specification: the
    result of a [calculate_score] action that succeeded.  Such an action
    that carries no score has one that is not a number. *)
Definition score_of (a : RuleProcessor.executedAction) : option number :=
  match a with
  | RuleProcessor.Executed type _ result =>
      if strict_equals type (VString "calculate_score")
      then Some (match result with
                 | RuleProcessor.Scored score _ => score
                 | _ => NaN
                 end)
      else None
  | RuleProcessor.Failed _ _ _ => None
  end.

Fixpoint present {A : Type} (xs : list (option A)) : list A :=
  match xs with
  | [] => []
  | Some x :: rest => x :: present rest
  | None :: rest => present rest
  end.

(** The scores of the rules of a list, in order, and those of the
    triggered rules of a report. *)
Definition calculate_scores (rules : list RuleProcessor.ruleResult)
  : list number :=
  flat_map (fun rule => present (map score_of (RuleProcessor.actions rule))) rules.

Definition scores (r : RuleProcessor.report) : list number :=
  calculate_scores (filter RuleProcessor.result (RuleProcessor.results r)).




(** The triggered rules of a report. *)
Definition triggered (r : RuleProcessor.report) : list RuleProcessor.ruleResult :=
  filter RuleProcessor.result (RuleProcessor.results r).

(** The mean of a list of rationals, [0] for the empty list. *)
Definition Qsum (qs : list Q) : Q := fold_right Qplus 0%Q qs.

Definition mean (qs : list Q) : Q :=
  match qs with
  | [] => 0%Q
  | _ => (Qsum qs / inject_Z (Z.of_nat (List.length qs)))%Q
  end.

End Spec.

(* ===================================================================== *)
(** * A host for the examples *)
(* ===================================================================== *)

(** A host that is enough to run the examples: it prints and reads
    integers, lowers ASCII letters, reads a path without brackets as its
    dot-separated keys, prints documents without escapes, matches a
    pattern as a literal text and knows no dates. *)
Module ExampleHost.

Definition print_number (n : number) : string :=
  match n with
  | NaN => "NaN"
  | PosInf => "Infinity"
  | NegInf => "-Infinity"
  | Fin q =>
      let q := Qred q in
      let numerator := NilZero.string_of_int (Z.to_int (Qnum q)) in
      if (Qden q =? 1)%positive then numerator
      else (numerator ++ "/"
              ++ NilZero.string_of_uint (Pos.to_uint (Qden q)))%string
  end.

Definition read_number (s : string) : number :=
  match NilEmpty.int_of_string s with
  | Some i => num_of_Z (Z.of_int i)
  | None => NaN
  end.

Definition lower_ascii (c : ascii) : ascii :=
  let n := nat_of_ascii c in
  if (65 <=? n)%nat && (n <=? 90)%nat then ascii_of_nat (n + 32) else c.

Fixpoint lower_text (s : string) : string :=
  match s with
  | EmptyString => EmptyString
  | String c rest => String (lower_ascii c) (lower_text rest)
  end.

Fixpoint has_dot (s : string) : bool :=
  match s with
  | EmptyString => false
  | String c rest => (c =? ".")%char || has_dot rest
  end.

(** The keys of a dot path; [key] is the key being read. *)
Fixpoint split_dots (key : string) (s : string) : list string :=
  match s with
  | EmptyString => [key]
  | String c rest =>
      if (c =? ".")%char then key :: split_dots "" rest
      else split_dots (key ++ String c "") rest
  end.

Definition double_quote : string := String (ascii_of_nat 34) "".

Fixpoint print_value (v : value) : string :=
  match v with
  | VUndefined => "undefined"
  | VNull => "null"
  | VBoolean true => "true"
  | VBoolean false => "false"
  | VNumber n => print_number n
  | VString s => double_quote ++ s ++ double_quote
  | VArray xs =>
      "[" ++ (fix go (xs : list value) : string :=
                match xs with
                | [] => ""
                | x :: rest =>
                    print_value x
                    ++ match rest with [] => "" | _ :: _ => "," ++ go rest end
                end) xs ++ "]"
  | VObject props =>
      "{" ++ (fix go (props : list (string * value)) : string :=
                match props with
                | [] => ""
                | (k, x) :: rest =>
                    double_quote ++ k ++ double_quote ++ ":" ++ print_value x
                    ++ match rest with [] => "" | _ :: _ => "," ++ go rest end
                end) props ++ "}"
  end%string.

#[export] Instance host : Host :=
  {| number_toString := print_number;
     string_toNumber := fun s => if (s =? "")%string then Fin 0 else read_number s;
     parseFloat_string := read_number;
     toLowerCase := lower_text;
     lodash_isKey := fun s => negb (has_dot s);
     lodash_stringToPath := split_dots "";
     moment_isBefore := fun _ _ => false;
     moment_isAfter := fun _ _ => false;
     moment_isBetween := fun _ _ _ => false;
     JSON_stringify := print_value;
     regex_test := fun p s => includes (lower_text s) (lower_text p) |}.

End ExampleHost.

(* ===================================================================== *)
(** * Documents for the examples *)
(* ===================================================================== *)

Module Examples.

Definition timing0 : RuleProcessor.timing :=
  {| RuleProcessor.elapsed := Fin 0; RuleProcessor.now_iso := "" |}.

Definition readings0 : TransactionMonitor.readings :=
  {| TransactionMonitor.uuid := "generated";
     TransactionMonitor.now := "";
     TransactionMonitor.rule_clock := fun _ => timing0;
     TransactionMonitor.duration := Fin 0 |}.


Definition small_transfer : value :=
  VObject [ ("id", VString "t1");
            ("amount", VInt 50);
            ("userId", VString "u2");
            ("type", VString "transfer") ].

Definition large_transfer : value :=
  VObject [ ("amount", VInt 15000);
            ("userId", VString "u1");
            ("type", VString "transfer");
            ("location", VObject [ ("country", VString "US") ]) ].

Definition restricted_transfer : value :=
  VObject [ ("amount", VInt 2000);
            ("userId", VString "u3");
            ("type", VString "transfer");
            ("location", VObject [ ("country", VString "Restricted") ]) ].

(** A rule that always triggers and gives [points] to every amount from
    [0] to [100000]. *)
Definition scoring_rule (id : string) (points : Z) : value :=
  VObject
    [ ("id", VString id);
      ("name", VString id);
      ("enabled", VBoolean true);
      ("conditions",
        VObject [ ("field", VString "amount");
                  ("operator", VString "is_not_empty") ]);
      ("actions",
        VArray
          [ VObject
              [ ("type", VString "calculate_score");
                ("config",
                  VObject
                    [ ("threshold", VInt 80);
                      ("factors",
                        VArray
                          [ VObject
                              [ ("field", VString "amount");
                                ("weight", VInt 1);
                                ("ranges",
                                  VArray
                                    [ VObject [ ("min", VInt 0);
                                                ("max", VInt 100000);
                                                ("points", VInt points) ] ]) ] ]) ]) ] ]) ].

Definition two_scoring_rules : value :=
  VArray [ scoring_rule "a" 30; scoring_rule "b" 31 ].



Definition amount_above (limit : Z) : Spec.condition :=
  Spec.Leaf "amount" "greater_than" (VInt limit).

(** Two [or] nodes under an [and], with three leaves in all. *)
Definition nested_condition : Spec.condition :=
  Spec.And [ Spec.Or [ amount_above 1; amount_above 2 ];
             Spec.Or [ amount_above 3 ] ].

Definition logic_request (c : Spec.condition) : value :=
  VObject [ ("rule",
              VObject [ ("id", VString "r");
                        ("conditions", Spec.to_value c);
                        ("actions", VArray []) ]) ].

(** The readings of the [n]-th call. *)
Definition agent_readings (n : nat) : AIValidationAgent.readings :=
  {| AIValidationAgent.fresh_id := ("val_" ++ key_of_index n)%string;
     AIValidationAgent.now := "";
     AIValidationAgent.took := Fin 0 |}.

(** A request for a validation of the kind [performance], which always
    passes, and one of a kind that the agent does not know. *)
Definition performance_request : value :=
  VObject [ ("type", VString "performance");
            ("data", VObject [ ("processingTime", VInt 5) ]) ].

Definition unknown_request : value :=
  VObject [ ("type", VString "audit") ].

(** A request is queued and the queue is processed. *)
Definition validate_once {host : Host} (n : nat)
  (a : AIValidationAgent.agent) (request : value)
  : completion AIValidationAgent.agent :=
  queued <- AIValidationAgent.queueValidation a (agent_readings n) request ;;
  AIValidationAgent.processValidationQueue (snd queued)
    (fun _ => agent_readings n).

Fixpoint validate_times {host : Host} (n : nat)
  (a : AIValidationAgent.agent) (request : value)
  : completion AIValidationAgent.agent :=
  match n with
  | O => Ok a
  | S n' =>
      a <- validate_once n' a request ;;
      validate_times n' a request
  end.

(** The monitor after one submission. *)
Definition submitted_once : TransactionMonitor.monitor :=
  match TransactionMonitor.monitorTransaction TransactionMonitor.fresh
          readings0 small_transfer with
  | Ok (_, m) => m
  | _ => TransactionMonitor.fresh
  end.

(** A result of the monitor that took [t] milliseconds, for a report
    without rules. *)
Definition result_taking (t : Q) : TransactionMonitor.processingResult :=
  let nothing :=
    {| RuleProcessor.report_transactionId := VString "t1";
       RuleProcessor.report_timestamp := "";
       RuleProcessor.totalRules := 0;
       RuleProcessor.passedRules := 0;
       RuleProcessor.failedRules := 0;
       RuleProcessor.errors := 0;
       RuleProcessor.results := [] |} in
  {| TransactionMonitor.pr_transactionId := VString "t1";
     TransactionMonitor.pr_timestamp := "";
     TransactionMonitor.processingTime := Fin t;
     TransactionMonitor.ruleResults := nothing;
     TransactionMonitor.pr_transaction := small_transfer;
     TransactionMonitor.pr_summary :=
       TransactionMonitor.createResultSummary nothing |}.

(** The surroundings of a monitor while a client is connected to the
    server: the listeners that broadcast the results call
    [JSON.stringify] on them, which throws on a result that holds its
    transaction. *)
Definition client_connected : TransactionMonitor.surroundings :=
  {| TransactionMonitor.heard :=
       fun e =>
         match e with
         | TransactionMonitor.transaction_processed _ =>
             Some (TypeError "Converting circular structure to JSON")
         | _ => None
         end;
     TransactionMonitor.refused := fun _ => None |}.

(** A validation as [queueValidation] makes it for a request of the
    kind [performance]. *)
Definition queued_validation (n : nat) : value :=
  VObject
    [ ("id", VString ("val_" ++ key_of_index n));
      ("timestamp", VString "");
      ("type", VString "performance");
      ("priority", VString "normal");
      ("data", VObject [ ("processingTime", VInt 5) ]);
      ("status", VString "queued") ].

(** An agent with five validations in its queue. *)
Definition five_queued : AIValidationAgent.agent :=
  AIValidationAgent.with_queue AIValidationAgent.fresh
    (map queued_validation [0; 1; 2; 3; 4]%nat).

(** An agent whose history is full. *)
Definition full_history : AIValidationAgent.agent :=
  AIValidationAgent.with_history AIValidationAgent.fresh
    (repeat (queued_validation 0) 1000).

(** The agent after one request was queued and validated. *)
Definition validated_once : AIValidationAgent.agent :=
  match validate_once (host := ExampleHost.host) 0 AIValidationAgent.fresh
          performance_request with
  | Ok a => a
  | _ => AIValidationAgent.fresh
  end.

(** A rule result that was slow, differs from the expected result and
    has a failed action. *)
Definition slow_wrong_execution : value :=
  VObject
    [ ("ruleResult",
        VObject [ ("ruleId", VString "r");
                  ("executionTime", VInt 5000);
                  ("result", VBoolean false);
                  ("actions",
                    VArray [ VObject [ ("success", VBoolean false) ] ]) ]);
      ("transactionData", VObject [ ("id", VString "t1") ]);
      ("expectedResult", VBoolean true) ].

(** The entry of the history passed: its [result] has a truthy
    [passed]; this is the test of [getStatistics]. *)
Definition entry_passed (v : value) : bool :=
  truthy (get v "result") && truthy (get (get v "result") "passed").

End Examples.

(* ===================================================================== *)
(** * States that the classes can reach *)
(* ===================================================================== *)

Module Reach.

Import TransactionMonitor.

(** A callback that waits to put a transaction back in the queue. *)
Definition is_retry (s : scheduled) : bool :=
  match callback_of s with
  | Requeue _ => true
  | NextBatch => false
  end.

Definition retries_waiting (m : monitor) : nat :=
  List.length (filter is_retry (pending m)).

(** The transactions that the monitor holds or has finished with: those
    in the queue, those that wait for a retry, those processed and those
    failed for good. *)
Definition accounted (m : monitor) : nat :=
  (List.length (transactionQueue m) + retries_waiting m
   + processedTransactions (stats m) + failedTransactions (stats m))%nat.




(** A validation or an entry of the history without a [passed], an
    [executionTime] or a [hasErrors] of its own. *)
Definition plain (v : value) : bool :=
  match v with
  | VObject props =>
      match assoc "passed" props, assoc "executionTime" props,
            assoc "hasErrors" props with
      | None, None, None => true
      | _, _, _ => false
      end
  | _ => false
  end.

(** The transactions in the queue of a monitor and the validations in
    the queue of an agent are objects: [enhanceTransaction] and
    [queueValidation] make them. *)
Definition is_object (v : value) : bool :=
  match v with
  | VObject _ => true
  | _ => false
  end.

(** A validation whose [id] is a text, as [queueValidation] makes
    them. *)
Definition has_text_id (v : value) : bool :=
  match get v "id" with
  | VString _ => true
  | _ => false
  end.

(** The event [e] ends the validation: it is [validation_completed] or
    [validation_failed], for a validation with the same [id], in the
    status that the event names. *)
Definition settles (validation : value) (e : AIValidationAgent.event) : Prop :=
  match e with
  | AIValidationAgent.validation_completed v =>
      get v "id" = get validation "id" /\ get v "status" = VString "completed"
  | AIValidationAgent.validation_failed v _ =>
      get v "id" = get validation "id" /\ get v "status" = VString "failed"
  | _ => False
  end.

(** The states of an agent: from one whose queue and history hold plain
    entries only, as after the constructor, by requests that are
    queued, by passes of [processValidationQueue], and by the detection
    of anomalies, in any order. *)
Inductive agent_reachable {host : Host} : AIValidationAgent.agent -> Prop :=
| agent_start (a : AIValidationAgent.agent) :
    forallb plain (AIValidationAgent.validationQueue a) = true ->
    forallb plain (AIValidationAgent.validationHistory a) = true ->
    agent_reachable a
| agent_queue (a a' : AIValidationAgent.agent)
    (r : AIValidationAgent.readings) (request id : value) :
    agent_reachable a ->
    AIValidationAgent.queueValidation a r request = Ok (id, a') ->
    agent_reachable a'
| agent_process (a a' : AIValidationAgent.agent)
    (clock : nat -> AIValidationAgent.readings) :
    agent_reachable a ->
    AIValidationAgent.processValidationQueue a clock = Ok a' ->
    agent_reachable a'
| agent_detect (a a' : AIValidationAgent.agent)
    (r : AIValidationAgent.readings) :
    agent_reachable a ->
    AIValidationAgent.detectAnomalies a r = Ok a' ->
    agent_reachable a'.

(** The counts of a rule add up. *)
Definition consistent (m : AIValidationAgent.ruleMetrics) : Prop :=
  (AIValidationAgent.successCount m + AIValidationAgent.errorCount m
   = AIValidationAgent.executionCount m)%nat.

(** What an issue of [validateRuleExecution] takes off the score. *)
Definition penalty (i : AIValidationAgent.issue) : Z :=
  let type := AIValidationAgent.issue_type i in
  if (type =? "performance")%string then 10
  else if (type =? "error")%string then 50
  else if (type =? "accuracy")%string then 30
  else if (type =? "action_failure")%string then 20
  else 0.

Definition penalties (issues : list AIValidationAgent.issue) : Z :=
  fold_right Z.add 0 (map penalty issues).

(** A rule that [processTransaction] evaluates: its [enabled] is not
    [false]. *)
Definition is_enabled (rule : value) : bool :=
  negb (strict_equals (get rule "enabled") (VBoolean false)).

(** [{ not: c }] *)
Definition negation (c : value) : value := VObject [("not", c)].

(** A number from 0 to 100. *)
Definition percent (n : number) : Prop :=
  exists q : Q, n = Fin q /\ (0 <= q)%Q /\ (q <= 100)%Q.

End Reach.

(* ===================================================================== *)
(** * Facts about values *)
(* ===================================================================== *)

Module ValueFacts.

Lemma member_not_out_of_fuel (v : value) (k : string) :
  member v k <> OutOfFuel.
Proof. unfold member; destruct (nullish v); discriminate. Qed.

Lemma member_defined (v : value) (k : string) :
  nullish v = false -> member v k = Ok (get v k).
Proof. unfold member; intros ->; reflexivity. Qed.

Lemma depth_assoc (k : string) (props : list (string * value)) (v : value) :
  assoc k props = Some v -> (depth v < depth (VObject props))%nat.
Proof.
  induction props as [| [k' x] rest IH]; simpl; [discriminate |].
  destruct (k' =? k)%string.
  - intros [= ->]. lia.
  - intros Hrest. specialize (IH Hrest). simpl in IH. lia.
Qed.

Lemma depth_element (x : value) (xs : list value) :
  In x xs -> (depth x < depth (VArray xs))%nat.
Proof.
  induction xs as [| y rest IH]; simpl; [tauto |].
  intros [-> | Hin].
  - lia.
  - specialize (IH Hin). simpl in IH. lia.
Qed.

(** A property that is neither [length] nor an index is [undefined] or
    sits strictly inside the receiver. *)
Lemma depth_get (c : value) (k : string) :
  (k =? "length")%string = false -> index_of_key k = None ->
  get c k = VUndefined \/ (depth (get c k) < depth c)%nat.
Proof.
  intros Hlen Hidx. destruct c; simpl; auto.
  - rewrite Hlen, Hidx. auto.
  - rewrite Hlen, Hidx. auto.
  - destruct (assoc k properties) as [v |] eqn:Hv; [| auto].
    right. apply (depth_assoc _ _ _ Hv).
Qed.

Lemma depth_truthy_get (c : value) (k : string) :
  (k =? "length")%string = false -> index_of_key k = None ->
  truthy (get c k) = true -> (depth (get c k) < depth c)%nat.
Proof.
  intros Hlen Hidx Ht.
  destruct (depth_get c k Hlen Hidx) as [Hu | Hd]; [| exact Hd].
  rewrite Hu in Ht. discriminate.
Qed.

Lemma assoc_set_assoc_same (k : string) (x : value) (props : list (string * value)) :
  assoc k (set_assoc k x props) = Some x.
Proof.
  induction props as [| [k' v] rest IH]; simpl.
  - rewrite String.eqb_refl. reflexivity.
  - destruct (k' =? k)%string eqn:E; simpl.
    + rewrite String.eqb_refl. reflexivity.
    + rewrite E. exact IH.
Qed.

Lemma assoc_set_assoc_other (k k' : string) (x : value)
  (props : list (string * value)) :
  k <> k' -> assoc k (set_assoc k' x props) = assoc k props.
Proof.
  intros Hne. induction props as [| [k0 v] rest IH]; simpl.
  - destruct (k' =? k)%string eqn:E; [| reflexivity].
    apply String.eqb_eq in E. congruence.
  - destruct (k0 =? k')%string eqn:E0; simpl.
    + apply String.eqb_eq in E0. subst k0.
      destruct (k' =? k)%string eqn:E; [| reflexivity].
      apply String.eqb_eq in E. congruence.
    + destruct (k0 =? k)%string; [reflexivity | exact IH].
Qed.

Lemma get_set_same (props : list (string * value)) (k : string) (x : value) :
  get (set (VObject props) k x) k = x.
Proof. simpl. rewrite assoc_set_assoc_same. reflexivity. Qed.

Lemma get_set_other (props : list (string * value)) (k k' : string) (x : value) :
  k <> k' -> get (set (VObject props) k' x) k = get (VObject props) k.
Proof. intros Hne. simpl. rewrite assoc_set_assoc_other by exact Hne. reflexivity. Qed.

Section WithHost.
Context {host : Host}.

Lemma walk_app (object : value) (before after : list string) :
  walk object (before ++ after)
  = match walk object before with
    | Some reached => walk reached after
    | None => None
    end.
Proof.
  revert object. induction before as [| k rest IH]; intros object; simpl.
  - reflexivity.
  - destruct (nullish object); [reflexivity | apply IH].
Qed.

Lemma walk_from_undefined (keys : list string) :
  walk VUndefined keys = Some VUndefined \/ walk VUndefined keys = None.
Proof. destruct keys; simpl; auto. Qed.

(** The lookup of an absent field answers [undefined]. *)
Lemma lodash_get_absent (field context : value) :
  Spec.absent field context -> lodash_get context field = VUndefined.
Proof.
  unfold Spec.absent, lodash_get.
  intros [Hnull | (before & key & after & object & Hpath & Hwalk & Hstop)].
  - rewrite Hnull. reflexivity.
  - destruct (nullish context); [reflexivity |].
    rewrite Hpath.
    assert (Hout : match walk context (before ++ key :: after) with
                   | Some v => v
                   | None => VUndefined
                   end = VUndefined).
    { rewrite walk_app, Hwalk. simpl.
      destruct (nullish object) eqn:Hobj; [reflexivity |].
      destruct Hstop as [Hn | Hmiss]; [congruence |].
      rewrite Hmiss.
      destruct (walk_from_undefined after) as [-> | ->]; reflexivity. }
    destruct (before ++ key :: after) eqn:Hkeys; [reflexivity | exact Hout].
Qed.

End WithHost.

End ValueFacts.

(* ===================================================================== *)
(** * The condition evaluator *)
(* ===================================================================== *)

Module ConditionEvaluator.

Import RuleProcessor ValueFacts.

Section WithHost.
Context {host : Host}.

(** One step of [parseCondition]: the body of the source, with the
    recursive calls on a smaller budget. *)
Lemma parseCondition_fuel_step (fuel : nat) (condition context : value) :
  parseCondition_fuel (S fuel) condition context
  = if negb (truthy condition) then Ok false
    else if truthy (get condition "and") then
      call_on_array (get condition "and") "condition.and.every"
        (every (fun sub => parseCondition_fuel fuel sub context))
    else if truthy (get condition "or") then
      call_on_array (get condition "or") "condition.or.some"
        (some (fun sub => parseCondition_fuel fuel sub context))
    else if truthy (get condition "not") then
      fmap negb (parseCondition_fuel fuel (get condition "not") context)
    else
      if negb (truthy (get condition "field"))
         || negb (truthy (get condition "operator")) then
        Throw (Error "Condition must have field and operator")
      else
        match lookup_operator (ToString (get condition "operator")) operators with
        | None =>
            Throw (Error ("Unsupported operator: "
                            ++ ToString (get condition "operator"))%string)
        | Some operatorFunc =>
            operatorFunc (getFieldValue (get condition "field") context)
                         (get condition "value")
        end.
Proof. reflexivity. Qed.

Lemma every_ext (f g : value -> completion bool) (xs : list value) :
  (forall x, In x xs -> f x = g x) -> every f xs = every g xs.
Proof.
  induction xs as [| x rest IH]; intros Hfg; simpl; [reflexivity |].
  rewrite (Hfg x (or_introl eq_refl)).
  destruct (g x) as [[|] | |]; simpl; try reflexivity.
  apply IH. intros y Hy. apply Hfg. right. exact Hy.
Qed.

Lemma some_ext (f g : value -> completion bool) (xs : list value) :
  (forall x, In x xs -> f x = g x) -> some f xs = some g xs.
Proof.
  induction xs as [| x rest IH]; intros Hfg; simpl; [reflexivity |].
  rewrite (Hfg x (or_introl eq_refl)).
  destruct (g x) as [[|] | |]; simpl; try reflexivity.
  apply IH. intros y Hy. apply Hfg. right. exact Hy.
Qed.

Lemma every_not_out_of_fuel (f : value -> completion bool) (xs : list value) :
  (forall x, In x xs -> f x <> OutOfFuel) -> every f xs <> OutOfFuel.
Proof.
  induction xs as [| x rest IH]; intros Hf; simpl; [discriminate |].
  pose proof (Hf x (or_introl eq_refl)) as Hx.
  destruct (f x) as [[|] | |]; simpl; try discriminate; try congruence.
  apply IH. intros y Hy. apply Hf. right. exact Hy.
Qed.

Lemma some_not_out_of_fuel (f : value -> completion bool) (xs : list value) :
  (forall x, In x xs -> f x <> OutOfFuel) -> some f xs <> OutOfFuel.
Proof.
  induction xs as [| x rest IH]; intros Hf; simpl; [discriminate |].
  pose proof (Hf x (or_introl eq_refl)) as Hx.
  destruct (f x) as [[|] | |]; simpl; try discriminate; try congruence.
  apply IH. intros y Hy. apply Hf. right. exact Hy.
Qed.

(** The depth of the children of a truthy [and], [or] or [not]. *)
Lemma depth_child (condition child : value) (xs : list value) (k : string) :
  (k =? "length")%string = false -> index_of_key k = None ->
  get condition k = VArray xs -> In child xs ->
  (S (depth child) < depth condition)%nat.
Proof.
  intros Hlen Hidx Hget Hin.
  pose proof (depth_truthy_get condition k Hlen Hidx) as Hd.
  rewrite Hget in Hd. specialize (Hd eq_refl).
  pose proof (depth_element child xs Hin). lia.
Qed.

(** A budget above the depth of the condition is as good as any other
    such budget. *)
Lemma parseCondition_fuel_stable (n : nat) :
  forall (m : nat) (condition context : value),
    (depth condition < n)%nat -> (depth condition < m)%nat ->
    parseCondition_fuel n condition context
    = parseCondition_fuel m condition context.
Proof.
  induction n as [| n IH]; intros m condition context Hn Hm; [lia |].
  destruct m as [| m]; [lia |].
  rewrite !parseCondition_fuel_step.
  destruct (negb (truthy condition)); [reflexivity |].
  destruct (truthy (get condition "and")) eqn:Hand.
  { destruct (get condition "and") as [| | | | | xs |] eqn:Hget; try reflexivity.
    simpl. apply every_ext. intros x Hin.
    pose proof (depth_child condition x xs "and" eq_refl eq_refl Hget Hin).
    apply IH; lia. }
  destruct (truthy (get condition "or")) eqn:Hor.
  { destruct (get condition "or") as [| | | | | xs |] eqn:Hget; try reflexivity.
    simpl. apply some_ext. intros x Hin.
    pose proof (depth_child condition x xs "or" eq_refl eq_refl Hget Hin).
    apply IH; lia. }
  destruct (truthy (get condition "not")) eqn:Hnot; [| reflexivity].
  pose proof (depth_truthy_get condition "not" eq_refl eq_refl Hnot).
  f_equal. apply IH; lia.
Qed.

Lemma lookup_operator_not_out_of_fuel (name : string)
  (f : value -> value -> completion bool) (a b : value) :
  lookup_operator name operators = Some f -> f a b <> OutOfFuel.
Proof.
  unfold operators. cbn [lookup_operator].
  repeat match goal with
         | |- context [(?k =? name)%string] =>
             destruct (k =? name)%string;
             [ intros [= <-]; try discriminate |]
         end.
  - pose proof (member_not_out_of_fuel b "start") as Hs.
    pose proof (member_not_out_of_fuel b "end") as He.
    destruct (member b "start"); simpl; try congruence.
    destruct (member b "end"); simpl; congruence.
  - discriminate.
Qed.

(** [parseCondition] never uses up its budget: it returns a boolean or
    throws. *)
Lemma parseCondition_fuel_terminates (n : nat) :
  forall (condition context : value),
    (depth condition < n)%nat ->
    parseCondition_fuel n condition context <> OutOfFuel.
Proof.
  induction n as [| n IH]; intros condition context Hn; [lia |].
  rewrite parseCondition_fuel_step.
  destruct (negb (truthy condition)); [discriminate |].
  destruct (truthy (get condition "and")) eqn:Hand.
  { destruct (get condition "and") as [| | | | | xs |] eqn:Hget;
      try discriminate.
    simpl. apply every_not_out_of_fuel. intros x Hin.
    pose proof (depth_child condition x xs "and" eq_refl eq_refl Hget Hin).
    apply IH; lia. }
  destruct (truthy (get condition "or")) eqn:Hor.
  { destruct (get condition "or") as [| | | | | xs |] eqn:Hget;
      try discriminate.
    simpl. apply some_not_out_of_fuel. intros x Hin.
    pose proof (depth_child condition x xs "or" eq_refl eq_refl Hget Hin).
    apply IH; lia. }
  destruct (truthy (get condition "not")) eqn:Hnot.
  { pose proof (depth_truthy_get condition "not" eq_refl eq_refl Hnot).
    assert (Hrec : parseCondition_fuel n (get condition "not") context
                   <> OutOfFuel) by (apply IH; lia).
    destruct (parseCondition_fuel n (get condition "not") context);
      simpl; congruence. }
  destruct (negb (truthy (get condition "field"))
            || negb (truthy (get condition "operator"))); [discriminate |].
  destruct (lookup_operator (ToString (get condition "operator")) operators)
    as [f |] eqn:Hf; [| discriminate].
  apply (lookup_operator_not_out_of_fuel _ _ _ _ Hf).
Qed.

Lemma parseCondition_terminates (condition context : value) :
  parseCondition condition context <> OutOfFuel.
Proof. apply parseCondition_fuel_terminates. lia. Qed.

(** The equation of [parseCondition] for a [not]. *)
Lemma parseCondition_not (condition context : value) :
  truthy condition = true ->
  truthy (get condition "and") = false ->
  truthy (get condition "or") = false ->
  truthy (get condition "not") = true ->
  parseCondition condition context
  = fmap negb (parseCondition (get condition "not") context).
Proof.
  intros Hc Hand Hor Hnot. unfold parseCondition.
  rewrite parseCondition_fuel_step, Hc, Hand, Hor, Hnot. cbn [negb].
  pose proof (depth_truthy_get condition "not" eq_refl eq_refl Hnot).
  f_equal. apply parseCondition_fuel_stable; lia.
Qed.

(** C1. A leaf whose field is absent from the context, be it for its
    last key or for an intermediate one, is evaluated without an
    exception: to [true] with [is_empty], and to [false] with [equals]
    against a value other than [undefined]. *)
Theorem absent_field_leaf (condition context field value : value) :
  truthy field = true ->
  Spec.absent field context ->
  (Spec.is_leaf condition field "is_empty" value ->
   parseCondition condition context = Ok true)
  /\ (Spec.is_leaf condition field "equals" value ->
      value <> VUndefined ->
      parseCondition condition context = Ok false).
Proof.
  intros Hfield Habsent.
  assert (Hlookup : getFieldValue field context = VUndefined)
    by (apply lodash_get_absent; exact Habsent).
  split.
  - intros (Hc & Hand & Hor & Hnot & Hf & Hop & Hv).
    unfold parseCondition.
    rewrite parseCondition_fuel_step, Hc, Hand, Hor, Hnot, Hf, Hop, Hfield.
    cbn. rewrite Hlookup. reflexivity.
  - intros (Hc & Hand & Hor & Hnot & Hf & Hop & Hv) Hdefined.
    unfold parseCondition.
    rewrite parseCondition_fuel_step, Hc, Hand, Hor, Hnot, Hf, Hop, Hfield.
    cbn. rewrite Hlookup, Hv.
    destruct value; try reflexivity. congruence.
Qed.

(** C5. An [and] without children is [true], an [or] without children
    is [false], and a [not] is the negation of its child: it returns the
    negated boolean when the child returns a boolean and throws what the
    child throws. *)
Theorem empty_and_or_and_not (context : value) :
  parseCondition (VObject [("and", VArray [])]) context = Ok true
  /\ parseCondition (VObject [("or", VArray [])]) context = Ok false
  /\ forall c : value,
       truthy c = true ->
       parseCondition (VObject [("not", c)]) context
       = fmap negb (parseCondition c context).
Proof.
  split; [reflexivity |]. split; [reflexivity |].
  intros c Hc.
  apply (parseCondition_not (VObject [("not", c)]) context);
    try reflexivity; exact Hc.
Qed.

(** The same for the conditions of the data model. *)
Corollary not_negates (c : Spec.condition) (context : value) :
  parseCondition (Spec.to_value (Spec.Not c)) context
  = fmap negb (parseCondition (Spec.to_value c) context).
Proof.
  apply (parseCondition_not (Spec.to_value (Spec.Not c)) context);
    try reflexivity.
  destruct c; reflexivity.
Qed.

End WithHost.

(** An instance of C1: the context has no [location], so that the path
    [location.country] leaves it at its first, intermediate key. *)
Lemma absent_field_leaf_witness :
  parseCondition (host := ExampleHost.host)
    (VObject [ ("field", VString "location.country");
               ("operator", VString "is_empty") ])
    (VObject [ ("amount", VInt 5) ]) = Ok true
  /\ parseCondition (host := ExampleHost.host)
       (VObject [ ("field", VString "location.country");
                  ("operator", VString "equals");
                  ("value", VString "US") ])
       (VObject [ ("amount", VInt 5) ]) = Ok false.
Proof.
  assert (Habsent : Spec.absent (host := ExampleHost.host)
                      (VString "location.country")
                      (VObject [ ("amount", VInt 5) ])).
  { right. exists [], "location", ["country"], (VObject [ ("amount", VInt 5) ]).
    split; [reflexivity |]. split; [reflexivity |]. right. reflexivity. }
  split.
  - apply (proj1 (absent_field_leaf _ _ (VString "location.country") VUndefined
                    eq_refl Habsent)).
    repeat split; reflexivity.
  - apply (proj2 (absent_field_leaf _ _ (VString "location.country") (VString "US")
                    eq_refl Habsent)).
    + repeat split; reflexivity.
    + discriminate.
Defined.

(** An instance of C5 for the negation of a leaf. *)
Lemma empty_and_or_and_not_witness :
  parseCondition (host := ExampleHost.host)
    (VObject [ ("not", VObject [ ("field", VString "amount");
                                 ("operator", VString "is_empty") ]) ])
    (VObject [ ("amount", VInt 5) ])
  = fmap negb
      (parseCondition (host := ExampleHost.host)
         (VObject [ ("field", VString "amount");
                    ("operator", VString "is_empty") ])
         (VObject [ ("amount", VInt 5) ])).
Proof.
  apply (proj2 (proj2 (empty_and_or_and_not (VObject [ ("amount", VInt 5) ])))).
  reflexivity.
Defined.

End ConditionEvaluator.

(* ===================================================================== *)
(** * The rule engine *)
(* ===================================================================== *)

Module RuleEngine.

Import RuleProcessor ValueFacts ConditionEvaluator.

Section WithHost.
Context {host : Host}.

Lemma bind_not_out_of_fuel {A B : Type} (m : completion A)
  (k : A -> completion B) :
  m <> OutOfFuel -> (forall a, k a <> OutOfFuel) -> bind m k <> OutOfFuel.
Proof.
  intros Hm Hk. destruct m as [a | e |]; simpl;
    [apply Hk | discriminate | congruence].
Qed.

Lemma iterate_not_out_of_fuel (v : value) (what : string) :
  iterate v what <> OutOfFuel.
Proof. destruct v; discriminate. Qed.

Lemma first_range_not_out_of_fuel (fieldValue weight : value)
  (ranges : list value) :
  first_range fieldValue weight ranges <> OutOfFuel.
Proof.
  induction ranges as [| range rest IH]; simpl; [discriminate |].
  apply bind_not_out_of_fuel; [apply member_not_out_of_fuel |].
  intros min. destruct (js_ge fieldValue min); [| exact IH].
  apply bind_not_out_of_fuel; [apply member_not_out_of_fuel |].
  intros max. destruct (js_le fieldValue max); [| exact IH].
  apply bind_not_out_of_fuel; [apply member_not_out_of_fuel |].
  discriminate.
Qed.

Lemma add_factors_not_out_of_fuel (transactionData : value)
  (factors : list value) :
  forall score, add_factors transactionData score factors <> OutOfFuel.
Proof.
  induction factors as [| factor rest IH]; intros score; simpl; [discriminate |].
  apply bind_not_out_of_fuel; [apply member_not_out_of_fuel |].
  intros field. destruct (truthy (get factor "ranges")); [| apply IH].
  apply bind_not_out_of_fuel; [apply iterate_not_out_of_fuel |].
  intros ranges.
  apply bind_not_out_of_fuel; [apply first_range_not_out_of_fuel |].
  intros [points |]; apply IH.
Qed.

Lemma calculateRiskScore_not_out_of_fuel (config transactionData : value) :
  calculateRiskScore config transactionData <> OutOfFuel.
Proof.
  unfold calculateRiskScore.
  apply bind_not_out_of_fuel; [apply member_not_out_of_fuel |].
  intros configured.
  apply bind_not_out_of_fuel; [apply iterate_not_out_of_fuel |].
  intros factors.
  apply bind_not_out_of_fuel; [apply add_factors_not_out_of_fuel |].
  discriminate.
Qed.

Lemma interpolateMessage_not_out_of_fuel (template data : value) :
  interpolateMessage template data <> OutOfFuel.
Proof. destruct template; discriminate. Qed.

(** An action returns or throws. *)
Lemma executeAction_not_out_of_fuel (action transactionData : value) :
  executeAction action transactionData <> OutOfFuel.
Proof.
  unfold executeAction.
  apply bind_not_out_of_fuel; [apply member_not_out_of_fuel |].
  intros type.
  repeat match goal with
         | |- (if ?b then _ else _) <> _ => destruct b
         end;
    repeat (apply bind_not_out_of_fuel;
            [ first [ apply member_not_out_of_fuel
                    | apply interpolateMessage_not_out_of_fuel
                    | apply calculateRiskScore_not_out_of_fuel ]
            | intros ? ]);
    discriminate.
Qed.

(** One turn of the loop of [executeActions] records the action,
    whether it returns or throws. *)
Lemma executeOne_recorded (action transactionData : value) :
  nullish action = false ->
  exists entry,
    executeOne action transactionData = Ok entry
    /\ Spec.recorded transactionData action entry.
Proof.
  intros Haction. unfold executeOne, Spec.recorded.
  pose proof (executeAction_not_out_of_fuel action transactionData) as Hfuel.
  destruct (executeAction action transactionData) as [r | e |]; simpl.
  - eexists. split; [reflexivity |]. left. exists r. auto.
  - rewrite !(member_defined action _ Haction). simpl.
    eexists. split; [reflexivity |]. right. exists e. auto.
  - congruence.
Qed.

Lemma executeEach_recorded (transactionData : value) (actions : list value) :
  Forall (fun action => nullish action = false) actions ->
  exists entries,
    executeEach actions transactionData = Ok entries
    /\ Forall2 (Spec.recorded transactionData) actions entries.
Proof.
  induction 1 as [| action rest Haction Hrest IH]; simpl.
  - exists []. split; [reflexivity | constructor].
  - destruct (executeOne_recorded action transactionData Haction)
      as (entry & -> & Hentry).
    destruct IH as (entries & -> & Hentries). simpl.
    exists (entry :: entries). split; [reflexivity |].
    constructor; assumption.
Qed.

Lemma get_truthy_receiver (v : value) (k : string) :
  truthy (get v k) = true -> nullish v = false.
Proof. destruct v; simpl; congruence. Qed.

(** What holds of C6.  When the evaluation of the conditions throws,
    [evaluateRule] returns a result that is not triggered, carries the
    message and has no actions; it does not throw.  When the rule
    triggers and every action is an object, there is one entry per
    action, in order: the result of the action when it returns, its
    message when it throws, so that an action that fails in this way
    stops none of the others. *)
Theorem evaluateRule_isolates_failures (t : timing)
  (rule transactionData : value) :
  nullish transactionData = false ->
  truthy (get rule "conditions") = true ->
  (forall e,
     parseCondition (get rule "conditions") transactionData = Throw e ->
     evaluateRule t rule transactionData
     = Ok {| ruleId := get rule "id";
             ruleName := get rule "name";
             result := false;
             actions := [];
             executionTime := elapsed t;
             error := Some (exn_message e);
             timestamp := now_iso t;
             transactionId := get transactionData "id" |})
  /\ (forall actions,
        parseCondition (get rule "conditions") transactionData = Ok true ->
        get rule "actions" = VArray actions ->
        Forall (fun action => nullish action = false) actions ->
        exists entries,
          evaluateRule t rule transactionData
          = Ok {| ruleId := get rule "id";
                  ruleName := get rule "name";
                  result := true;
                  actions := entries;
                  executionTime := elapsed t;
                  error := None;
                  timestamp := now_iso t;
                  transactionId := get transactionData "id" |}
          /\ Forall2 (Spec.recorded transactionData) actions entries).
Proof.
  intros Htx Hconditions.
  pose proof (get_truthy_receiver _ _ Hconditions) as Hrule.
  split.
  - intros e Hthrow. unfold evaluateRule.
    rewrite !(member_defined rule _ Hrule).
    rewrite !(member_defined transactionData _ Htx).
    cbn [bind]. rewrite Hconditions, Hthrow. reflexivity.
  - intros actions Htrue Hactions Hobjects. unfold evaluateRule.
    rewrite !(member_defined rule _ Hrule).
    rewrite !(member_defined transactionData _ Htx).
    cbn [bind]. rewrite Hconditions, Htrue, Hactions.
    destruct (executeEach_recorded transactionData actions Hobjects)
      as (entries & Heach & Hrecorded).
    exists entries. split; [| exact Hrecorded].
    cbn. rewrite Heach. reflexivity.
Qed.

(** The loop of [executeActions] up to an action that is [undefined]
    or [null]: the [try] throws on [action.type], and so does the
    [catch], which reads [action.type] for the entry of the failure.
    The exception leaves the loop. *)
Lemma executeEach_stops (transactionData action : value)
  (before after : list value) :
  Forall (fun a => nullish a = false) before ->
  nullish action = true ->
  executeEach (before ++ action :: after) transactionData
  = Throw (TypeError ("Cannot read properties of " ++ describe_nullish action
                        ++ " (reading 'type')")%string).
Proof.
  intros Hbefore Haction.
  induction Hbefore as [| a rest Ha _ IH]; cbn [app executeEach].
  - unfold executeOne, executeAction, member. rewrite Haction. reflexivity.
  - destruct (executeOne_recorded a transactionData Ha) as (entry & -> & _).
    cbn [bind]. rewrite IH. reflexivity.
Qed.

(** An action that is [undefined] or [null] is not recorded as a
    failure of its own: the rule is reported as not triggered, with no
    action at all, those that had returned included. *)
Lemma null_action_aborts (t : timing) (rule transactionData action : value)
  (before after : list value) :
  nullish transactionData = false ->
  truthy (get rule "conditions") = true ->
  parseCondition (get rule "conditions") transactionData = Ok true ->
  get rule "actions" = VArray (before ++ action :: after) ->
  Forall (fun a => nullish a = false) before ->
  nullish action = true ->
  evaluateRule t rule transactionData
  = Ok {| ruleId := get rule "id";
          ruleName := get rule "name";
          result := false;
          actions := [];
          executionTime := elapsed t;
          error := Some ("Cannot read properties of " ++ describe_nullish action
                           ++ " (reading 'type')")%string;
          timestamp := now_iso t;
          transactionId := get transactionData "id" |}.
Proof.
  intros Htx Hconditions Htrue Hactions Hbefore Haction.
  pose proof (get_truthy_receiver _ _ Hconditions) as Hrule.
  unfold evaluateRule.
  rewrite !(member_defined rule _ Hrule).
  rewrite !(member_defined transactionData _ Htx).
  cbn [bind]. rewrite Hconditions, Htrue, Hactions.
  cbn [bind andb truthy executeActions iterate].
  rewrite (executeEach_stops transactionData action before after Hbefore Haction).
  reflexivity.
Qed.

End WithHost.

(** An instance: a condition that names an operator that does not
    exist; and a rule that triggers and has, between two actions that
    return, one of an unknown type. *)
Lemma evaluateRule_isolates_failures_witness :
  evaluateRule (host := ExampleHost.host)
    {| elapsed := Fin 0; now_iso := "" |}
    (VObject [ ("id", VString "r");
               ("conditions",
                 VObject [ ("field", VString "amount");
                           ("operator", VString "about") ]) ])
    (VObject [ ("id", VString "t") ])
  = Ok {| ruleId := VString "r";
          ruleName := VUndefined;
          result := false;
          actions := [];
          executionTime := Fin 0;
          error := Some "Unsupported operator: about";
          timestamp := "";
          transactionId := VString "t" |}
  /\ exists entries,
       evaluateRule (host := ExampleHost.host)
         {| elapsed := Fin 0; now_iso := "" |}
         (VObject [ ("id", VString "r");
                    ("conditions",
                      VObject [ ("field", VString "amount");
                                ("operator", VString "is_empty") ]);
                    ("actions",
                      VArray
                        [ VObject [ ("type", VString "flag_transaction");
                                    ("config", VObject [ ("reason", VString "x") ]) ];
                          VObject [ ("type", VString "page_someone") ];
                          VObject [ ("type", VString "log_event");
                                    ("config", VObject [ ("event", VString "e") ]) ] ]) ])
         (VObject [ ("id", VString "t") ])
       = Ok {| ruleId := VString "r";
               ruleName := VUndefined;
               result := true;
               actions := entries;
               executionTime := Fin 0;
               error := None;
               timestamp := "";
               transactionId := VString "t" |}
       /\ List.length entries = 3%nat.
Proof.
  split.
  - match goal with
    | |- evaluateRule ?t ?rule ?transactionData = _ =>
        apply (proj1 (evaluateRule_isolates_failures (host := ExampleHost.host)
                        t rule transactionData eq_refl eq_refl)
                 (Error "Unsupported operator: about"))
    end.
    reflexivity.
  - match goal with
    | |- exists entries, evaluateRule ?t ?rule ?transactionData = _ /\ _ =>
        edestruct (proj2 (evaluateRule_isolates_failures (host := ExampleHost.host)
                            t rule transactionData eq_refl eq_refl))
          as (entries & Hresult & Hrecorded);
        [ reflexivity | reflexivity | repeat constructor | ]
    end.
    exists entries. split; [exact Hresult |].
    apply Forall2_length in Hrecorded. symmetry. exact Hrecorded.
Defined.

(** C6, at a rule whose conditions hold and whose second action is
    [null].  The first action had returned and the third would; the
    result has no entry for any of them, and the rule is reported as not
    triggered. *)
Theorem null_action_stops_the_others :
  evaluateRule (host := ExampleHost.host)
    {| elapsed := Fin 0; now_iso := "" |}
    (VObject [ ("id", VString "r");
               ("conditions",
                 VObject [ ("field", VString "amount");
                           ("operator", VString "is_empty") ]);
               ("actions",
                 VArray
                   [ VObject [ ("type", VString "flag_transaction");
                               ("config", VObject [ ("reason", VString "x") ]) ];
                     VNull;
                     VObject [ ("type", VString "log_event");
                               ("config", VObject [ ("event", VString "e") ]) ] ]) ])
    (VObject [ ("id", VString "t") ])
  = Ok {| ruleId := VString "r";
          ruleName := VUndefined;
          result := false;
          actions := [];
          executionTime := Fin 0;
          error := Some "Cannot read properties of null (reading 'type')";
          timestamp := "";
          transactionId := VString "t" |}.
Proof.
  match goal with
  | |- evaluateRule ?t ?rule ?transactionData = _ =>
      apply (null_action_aborts (host := ExampleHost.host) t rule transactionData
               VNull
               [ VObject [ ("type", VString "flag_transaction");
                           ("config", VObject [ ("reason", VString "x") ]) ] ]
               [ VObject [ ("type", VString "log_event");
                           ("config", VObject [ ("event", VString "e") ]) ] ])
  end; try reflexivity.
  repeat constructor.
Qed.
End RuleEngine.

(* ===================================================================== *)
(** * The action executor *)
(* ===================================================================== *)

Module ActionExecutor.

Import RuleProcessor ValueFacts.

Section WithHost.
Context {host : Host}.


Lemma append_empty_r (a : string) : (a ++ "" = a)%string.
Proof. induction a as [| x a IH]; simpl; [reflexivity | rewrite IH; reflexivity]. Qed.





(** The lookup of a top-level property that the document has. *)
Lemma getFieldValue_own (props : list (string * value)) (k : string) :
  has_property (VObject props) k = true ->
  getFieldValue (VString k) (VObject props) = get (VObject props) k.
Proof.
  intros Hhas. unfold getFieldValue, lodash_get. simpl nullish. cbn iota.
  unfold castPath. cbn [ToString]. rewrite Hhas, orb_true_r. reflexivity.
Qed.

(** C10, at the input [{ amount: 0 }].  The placeholder [{amount}] has a
    field that the transaction carries, with the value [0]; the message
    keeps the placeholder where the text [0] is due. *)
Theorem notification_keeps_placeholder_of_zero :
  executeAction
    (VObject [ ("type", VString "send_notification");
               ("config",
                 VObject [ ("recipient", VString "ops");
                           ("message", VString "Amount {amount}") ]) ])
    (VObject [ ("amount", VInt 0) ])
  = Ok (NotificationSent (VString "ops") "Amount {amount}").
Proof.
  unfold executeAction. cbn [member nullish get assoc String.eqb Ascii.eqb
    Bool.eqb bind strict_equals interpolateMessage replace_placeholders
    String.append].
  unfold replacement.
  rewrite (getFieldValue_own [("amount", VInt 0)] "amount" eq_refl).
  reflexivity.
Qed.

(** With a value that is truthy the placeholder is replaced. *)
Lemma notification_replaces_placeholder (amount : number) :
  truthy (VNumber amount) = true ->
  executeAction
    (VObject [ ("type", VString "send_notification");
               ("config",
                 VObject [ ("recipient", VString "ops");
                           ("message", VString "Amount {amount}") ]) ])
    (VObject [ ("amount", VNumber amount) ])
  = Ok (NotificationSent (VString "ops")
          ("Amount " ++ number_toString amount)%string).
Proof.
  intros Hamount.
  unfold executeAction. cbn [member nullish get assoc String.eqb Ascii.eqb
    Bool.eqb bind strict_equals interpolateMessage replace_placeholders
    String.append].
  unfold replacement.
  rewrite (getFieldValue_own [("amount", VNumber amount)] "amount" eq_refl).
  cbn [get assoc String.eqb Ascii.eqb Bool.eqb]. unfold or_else.
  rewrite Hamount. cbn. rewrite append_empty_r. reflexivity.
Qed.

End WithHost.

End ActionExecutor.

(* ===================================================================== *)
(** * The transaction pipeline: submission and summary *)
(* ===================================================================== *)

Module Pipeline.

Import RuleProcessor TransactionMonitor ValueFacts.

(** ** The default rules on three transactions *)

(** A transfer of 15000 triggers the first default rule only, which
    flags it and scores it 30. *)
Example large_transfer_is_flagged :
  fmap (fun r => (map result (results r), createResultSummary r))
    (RuleProcessor.processTransaction (host := ExampleHost.host)
       (fun _ => Examples.timing0) "" getDefaultRules Examples.large_transfer)
  = Ok ([true; false; false],
        {| totalRulesEvaluated := 3;
           rulesTriggered := 1;
           rulesFlagged := 1;
           hasErrors := false;
           riskScore := Fin 30;
           recommendation := "REVIEW_REQUIRED" |}).
Proof. reflexivity. Qed.

(** A transfer of 50 triggers none of the default rules. *)
Example small_transfer_is_approved :
  fmap (fun r => createResultSummary r)
    (RuleProcessor.processTransaction (host := ExampleHost.host)
       (fun _ => Examples.timing0) "" getDefaultRules Examples.small_transfer)
  = Ok {| totalRulesEvaluated := 3;
          rulesTriggered := 0;
          rulesFlagged := 0;
          hasErrors := false;
          riskScore := Fin 0;
          recommendation := "APPROVED" |}.
Proof. reflexivity. Qed.

(** A transfer from a restricted country is flagged and notified. *)
Example restricted_transfer_is_notified :
  fmap (fun r => flat_map actions (results r))
    (RuleProcessor.processTransaction (host := ExampleHost.host)
       (fun _ => Examples.timing0) "" getDefaultRules
       Examples.restricted_transfer)
  = Ok [ Executed (VString "flag_transaction")
           (VObject [ ("reason", VString "Transaction from suspicious location") ])
           (Flagged (VString "Transaction from suspicious location"));
         Executed (VString "send_notification")
           (VObject
              [ ("recipient", VString "security@company.com");
                ("message",
                  VString
                    "Suspicious transaction detected from {location.country} for amount {amount}") ])
           (NotificationSent (VString "security@company.com")
              "Suspicious transaction detected from Restricted for amount 2000") ].
Proof. reflexivity. Qed.

(** ** Submission *)





(** ** The summary *)

Lemma fold_rule_scores (entries : list executedAction) :
  forall (total : number) (count : nat),
    fold_left
      (fun '(totalScore, scoreCount) action =>
         (num_add totalScore (score_or_zero action), S scoreCount))
      entries (total, count)
    = (fold_left num_add (map score_or_zero entries) total,
       (count + List.length entries)%nat).
Proof.
  induction entries as [| a rest IH]; intros total count; simpl.
  - f_equal. lia.
  - rewrite IH. f_equal. lia.
Qed.

Lemma fold_add_scores (rules : list ruleResult) :
  forall (total : number) (count : nat),
    fold_left add_scores rules (total, count)
    = (fold_left num_add (TransactionMonitor.added_scores rules) total,
       (count + List.length (TransactionMonitor.added_scores rules))%nat).
Proof.
  induction rules as [| rule rest IH]; intros total count; simpl.
  - f_equal. lia.
  - unfold add_scores at 2. rewrite fold_rule_scores, IH.
    rewrite fold_left_app, length_app, length_map. f_equal. lia.
Qed.

Lemma calculateOverallRiskScore_scores (rules : list ruleResult) :
  calculateOverallRiskScore rules
  = match TransactionMonitor.added_scores rules with
    | [] => Fin 0
    | _ :: _ =>
        Math_round
          (num_div (fold_left num_add (TransactionMonitor.added_scores rules) (Fin 0))
                   (num_of_nat (List.length (TransactionMonitor.added_scores rules))))
    end.
Proof.
  unfold calculateOverallRiskScore.
  destruct rules as [| rule rest]; [reflexivity |].
  cbn [List.length Nat.eqb]. rewrite fold_add_scores. cbn [Nat.add].
  destruct (TransactionMonitor.added_scores (rule :: rest)); reflexivity.
Qed.

Lemma sum_of_finite (qs : list Q) :
  forall a : Q,
    exists s : Q,
      fold_left num_add (map Fin qs) (Fin a) = Fin s
      /\ (s == a + Spec.Qsum qs)%Q.
Proof.
  induction qs as [| q rest IH]; intros a; simpl.
  - exists a. split; [reflexivity | ring].
  - destruct (IH (Qred (a + q))) as (s & Hfold & Hs).
    exists s. split; [exact Hfold |].
    rewrite Hs, Qred_correct. ring.
Qed.

Lemma positive_count_not_zero (n : nat) :
  Qeq_bool (inject_Z (Z.of_nat (S n))) 0 = false.
Proof.
  destruct (Qeq_bool (inject_Z (Z.of_nat (S n))) 0) eqn:E; [| reflexivity].
  apply Qeq_bool_eq in E. unfold Qeq in E. simpl in E. lia.
Qed.










End Pipeline.

(* ===================================================================== *)
(** * The transaction pipeline: retries *)
(* ===================================================================== *)

Module Retry.

Import RuleProcessor TransactionMonitor ValueFacts.

Lemma get_set_apart (v : value) (k k' : string) (x : value) :
  k <> k' -> get (set v k' x) k = get v k.
Proof.
  intros Hne. destruct v; try reflexivity.
  apply get_set_other. exact Hne.
Qed.


Section WithHost.
Context {host : Host}.







End WithHost.


End Retry.

(* ===================================================================== *)
(** * The validation agent: the analysis of rules *)
(* ===================================================================== *)

Module RuleAnalysis.

Import AIValidationAgent ValueFacts.

(** Induction on a condition, with the property for all the children of
    an [and] and of an [or]. *)
Lemma condition_induction (P : Spec.condition -> Prop) :
  (forall children, Forall P children -> P (Spec.And children)) ->
  (forall children, Forall P children -> P (Spec.Or children)) ->
  (forall child, P child -> P (Spec.Not child)) ->
  (forall field operator value, P (Spec.Leaf field operator value)) ->
  forall c, P c.
Proof.
  intros Hand Hor Hnot Hleaf.
  fix IH 1. intros [children | children | child | field operator value].
  - apply Hand.
    exact ((fix all (cs : list Spec.condition) : Forall P cs :=
              match cs with
              | [] => Forall_nil P
              | c :: rest => Forall_cons c (IH c) (all rest)
              end) children).
  - apply Hor.
    exact ((fix all (cs : list Spec.condition) : Forall P cs :=
              match cs with
              | [] => Forall_nil P
              | c :: rest => Forall_cons c (IH c) (all rest)
              end) children).
  - apply Hnot. apply IH.
  - apply Hleaf.
Qed.

Lemma list_sum_flat_map (A : Type) (F : A -> list nat) (xs : list A) :
  list_sum (flat_map F xs) = list_sum (map (fun x => list_sum (F x)) xs).
Proof.
  induction xs as [| x rest IH]; simpl; [reflexivity |].
  rewrite list_sum_app, IH. reflexivity.
Qed.

Lemma list_sum_plus (A : Type) (f g : A -> nat) (xs : list A) :
  (list_sum (map f xs) + list_sum (map g xs))%nat
  = list_sum (map (fun x => (f x + g x)%nat) xs).
Proof.
  induction xs as [| x rest IH]; simpl; [reflexivity |].
  rewrite <- IH. lia.
Qed.

Lemma list_sum_head (n : nat) (ns : list nat) :
  list_sum (n :: ns) = (n + list_sum ns)%nat.
Proof. reflexivity. Qed.

(** The count over nodes, one level at a time. *)
Lemma node_complexity_children (depth : nat) (children : list Spec.condition) :
  (list_sum (flat_map (Spec.node_depths (S depth)) children)
   + list_sum (map Spec.count_leaves children)
   + list_sum (map Spec.count_nots children))%nat
  = list_sum (map (Spec.node_complexity (S depth)) children).
Proof.
  rewrite list_sum_flat_map, !list_sum_plus. reflexivity.
Qed.

Lemma node_complexity_and (depth : nat) (children : list Spec.condition) :
  Spec.node_complexity depth (Spec.And children)
  = (depth + list_sum (map (Spec.node_complexity (S depth)) children))%nat.
Proof.
  rewrite <- node_complexity_children.
  unfold Spec.node_complexity.
  cbn [Spec.node_depths Spec.count_leaves Spec.count_nots].
  rewrite list_sum_head. lia.
Qed.

Lemma node_complexity_or (depth : nat) (children : list Spec.condition) :
  Spec.node_complexity depth (Spec.Or children)
  = (depth + list_sum (map (Spec.node_complexity (S depth)) children))%nat.
Proof.
  rewrite <- node_complexity_children.
  unfold Spec.node_complexity.
  cbn [Spec.node_depths Spec.count_leaves Spec.count_nots].
  rewrite list_sum_head. lia.
Qed.

Lemma node_complexity_not (depth : nat) (child : Spec.condition) :
  Spec.node_complexity depth (Spec.Not child)
  = (depth + (Spec.node_complexity (S depth) child + 1))%nat.
Proof.
  unfold Spec.node_complexity.
  cbn [Spec.node_depths Spec.count_leaves Spec.count_nots].
  rewrite list_sum_head. lia.
Qed.

Lemma node_complexity_leaf (depth : nat) (field operator : string) (v : value) :
  Spec.node_complexity depth (Spec.Leaf field operator v) = (depth + 1)%nat.
Proof. unfold Spec.node_complexity. simpl. lia. Qed.

(** The document of a condition is an object, and its children sit
    strictly inside it. *)
Lemma to_value_truthy (c : Spec.condition) : truthy (Spec.to_value c) = true.
Proof. destruct c; reflexivity. Qed.

Lemma depth_of_children (key : string) (children : list Spec.condition)
  (child : Spec.condition) :
  In child children ->
  (S (depth (Spec.to_value child))
   < depth (VObject [(key, VArray (map Spec.to_value children))]))%nat.
Proof.
  intros Hin.
  pose proof (depth_element (Spec.to_value child)
                (map Spec.to_value children) (in_map _ _ _ Hin)) as Hd.
  cbn [depth] in *. lia.
Qed.

Lemma depth_of_child (child : Spec.condition) :
  (depth (Spec.to_value child)
   < depth (VObject [("not", Spec.to_value child)]))%nat.
Proof. cbn [depth]. lia. Qed.

Section WithHost.
Context {host : Host}.

Lemma sum_of_children (f : value -> completion nat) (g : Spec.condition -> nat)
  (children : list Spec.condition) :
  Forall (fun c => f (Spec.to_value c) = Ok (g c)) children ->
  sum_of f (map Spec.to_value children) = Ok (list_sum (map g children)).
Proof.
  induction 1 as [| c rest Hc Hrest IH]; simpl; [reflexivity |].
  rewrite Hc, IH. reflexivity.
Qed.

(** On the document of a condition, [calculateConditionComplexity]
    returns the count over nodes. *)
Lemma complexity_of_condition (c : Spec.condition) :
  forall (fuel depth : nat),
    (JS.depth (Spec.to_value c) < fuel)%nat ->
    calculateConditionComplexity_fuel fuel (Spec.to_value c) depth
    = Ok (Spec.node_complexity depth c).
Proof.
  induction c as [children IH | children IH | child IH | field operator v]
    using condition_induction;
    intros fuel depth Hfuel; (destruct fuel as [| fuel]; [lia |]).
  - rewrite node_complexity_and. cbn.
    rewrite (sum_of_children _ (Spec.node_complexity (S depth))).
    + reflexivity.
    + rewrite Forall_forall in *. intros child Hin. apply (IH child Hin).
      pose proof (depth_of_children "and" children child Hin).
      change (Spec.to_value (Spec.And children))
        with (VObject [("and", VArray (map Spec.to_value children))]) in Hfuel.
      lia.
  - rewrite node_complexity_or. cbn.
    rewrite (sum_of_children _ (Spec.node_complexity (S depth))).
    + reflexivity.
    + rewrite Forall_forall in *. intros child Hin. apply (IH child Hin).
      pose proof (depth_of_children "or" children child Hin).
      change (Spec.to_value (Spec.Or children))
        with (VObject [("or", VArray (map Spec.to_value children))]) in Hfuel.
      lia.
  - rewrite node_complexity_not.
    cbn [calculateConditionComplexity_fuel Spec.to_value].
    cbn [truthy negb get assoc String.eqb Ascii.eqb Bool.eqb].
    rewrite to_value_truthy.
    rewrite IH; [reflexivity |].
    pose proof (depth_of_child child).
    change (Spec.to_value (Spec.Not child))
      with (VObject [("not", Spec.to_value child)]) in Hfuel.
    lia.
  - rewrite node_complexity_leaf. reflexivity.
Qed.

Lemma each_into_children (f : value -> list value -> completion (list value))
  (children : list Spec.condition) :
  Forall (fun c => forall acc,
            f (Spec.to_value c) acc = Ok (acc ++ Spec.flat_leaves c)) children ->
  forall acc,
    each_into f (map Spec.to_value children) acc
    = Ok (acc ++ flat_map Spec.flat_leaves children).
Proof.
  induction 1 as [| c rest Hc Hrest IH]; intros acc; simpl.
  - rewrite app_nil_r. reflexivity.
  - rewrite Hc. simpl. rewrite IH, app_assoc. reflexivity.
Qed.

(** On the document of a condition, [flattenConditions] collects the
    leaves. *)
Lemma flatten_of_condition (c : Spec.condition) :
  forall (fuel : nat) (acc : list value),
    (JS.depth (Spec.to_value c) < fuel)%nat ->
    flattenConditions_fuel fuel (Spec.to_value c) acc
    = Ok (acc ++ Spec.flat_leaves c).
Proof.
  induction c as [children IH | children IH | child IH | field operator v]
    using condition_induction;
    intros fuel acc Hfuel; (destruct fuel as [| fuel]; [lia |]).
  - cbn. apply each_into_children.
    rewrite Forall_forall in *. intros child Hin acc'. apply (IH child Hin).
    pose proof (depth_of_children "and" children child Hin).
    change (Spec.to_value (Spec.And children))
      with (VObject [("and", VArray (map Spec.to_value children))]) in Hfuel.
    lia.
  - cbn. apply each_into_children.
    rewrite Forall_forall in *. intros child Hin acc'. apply (IH child Hin).
    pose proof (depth_of_children "or" children child Hin).
    change (Spec.to_value (Spec.Or children))
      with (VObject [("or", VArray (map Spec.to_value children))]) in Hfuel.
    lia.
  - cbn [flattenConditions_fuel Spec.to_value].
    cbn [truthy negb get assoc String.eqb Ascii.eqb Bool.eqb].
    rewrite to_value_truthy. cbn [Spec.flat_leaves].
    apply IH.
    pose proof (depth_of_child child).
    change (Spec.to_value (Spec.Not child))
      with (VObject [("not", Spec.to_value child)]) in Hfuel.
    lia.
  - cbn [flattenConditions_fuel Spec.to_value Spec.flat_leaves].
    cbn [truthy negb get assoc String.eqb Ascii.eqb Bool.eqb].
    destruct (negb (field =? "")%string && negb (operator =? "")%string);
      [reflexivity | rewrite app_nil_r; reflexivity].
Qed.

(** On the document of a condition, [countConditions] counts the
    leaves. *)
Lemma count_of_condition (c : Spec.condition) :
  forall fuel : nat,
    (JS.depth (Spec.to_value c) < fuel)%nat ->
    countConditions_fuel fuel (Spec.to_value c) = Ok (Spec.count_leaves c).
Proof.
  induction c as [children IH | children IH | child IH | field operator v]
    using condition_induction;
    intros fuel Hfuel; (destruct fuel as [| fuel]; [lia |]).
  - cbn. apply sum_of_children.
    rewrite Forall_forall in *. intros child Hin. apply (IH child Hin).
    pose proof (depth_of_children "and" children child Hin).
    change (Spec.to_value (Spec.And children))
      with (VObject [("and", VArray (map Spec.to_value children))]) in Hfuel.
    lia.
  - cbn. apply sum_of_children.
    rewrite Forall_forall in *. intros child Hin. apply (IH child Hin).
    pose proof (depth_of_children "or" children child Hin).
    change (Spec.to_value (Spec.Or children))
      with (VObject [("or", VArray (map Spec.to_value children))]) in Hfuel.
    lia.
  - cbn [countConditions_fuel Spec.to_value].
    cbn [truthy negb get assoc String.eqb Ascii.eqb Bool.eqb].
    rewrite to_value_truthy. cbn [Spec.count_leaves].
    apply IH.
    pose proof (depth_of_child child).
    change (Spec.to_value (Spec.Not child))
      with (VObject [("not", Spec.to_value child)]) in Hfuel.
    lia.
  - reflexivity.
Qed.

(** The issues that [analyzeRuleLogic] finds in a rule whose conditions
    are the document of a condition. *)
Lemma analyzeRuleLogic_of_condition (rule : value) (c : Spec.condition) :
  nullish rule = false ->
  get rule "conditions" = Spec.to_value c ->
  analyzeRuleLogic rule
  = Ok ((if (10 <? Spec.node_complexity 0 c)%nat
         then [complexity_issue (Spec.node_complexity 0 c)] else [])
        ++ (if (0 <? List.length (contradictory_pairs (Spec.flat_leaves c)))%nat
            then [contradiction_issue] else [])).
Proof.
  intros Hrule Hconditions. unfold analyzeRuleLogic.
  rewrite (member_defined rule _ Hrule), Hconditions. cbn [bind].
  rewrite to_value_truthy. cbn [negb].
  unfold calculateConditionComplexity, findContradictoryConditions,
    flattenConditions.
  rewrite complexity_of_condition by lia.
  rewrite flatten_of_condition by lia.
  cbn [bind app].
  destruct (10 <? Spec.node_complexity 0 c)%nat;
    destruct (0 <? List.length (contradictory_pairs (Spec.flat_leaves c)))%nat;
    reflexivity.
Qed.

Lemma no_complexity_issue_in_security (rule : value) :
  existsb Spec.is_complexity_issue (analyzeRuleSecurity rule) = false.
Proof.
  unfold analyzeRuleSecurity. rewrite existsb_app.
  apply orb_false_iff. split.
  - induction (filter _ suspiciousPatterns) as [| p rest IH];
      [reflexivity | exact IH].
  - induction (filter _ dataLeakagePatterns) as [| p rest IH];
      [reflexivity | exact IH].
Qed.

(** C9, as the code has it.  The complexity of a condition is the count
    in which every node, be it an [and], an [or], a [not] or a leaf,
    counts for its depth, and every leaf and every [not] for one more;
    [validateRuleLogic] reports an issue of the kind [complexity]
    exactly when this count is above 10. *)
Theorem complexity_counts_every_node (data rule : value) (c : Spec.condition) :
  nullish data = false ->
  get data "rule" = rule ->
  nullish rule = false ->
  get rule "conditions" = Spec.to_value c ->
  calculateConditionComplexity (Spec.to_value c) 0
  = Ok (Spec.node_complexity 0 c)
  /\ exists v,
       validateRuleLogic data = Ok v
       /\ existsb Spec.is_complexity_issue (issues v)
          = (10 <? Spec.node_complexity 0 c)%nat.
Proof.
  intros Hdata Hget Hrule Hconditions. split.
  - apply complexity_of_condition. lia.
  - unfold validateRuleLogic.
    rewrite (member_defined data _ Hdata), Hget. cbn [bind].
    rewrite (analyzeRuleLogic_of_condition rule c Hrule Hconditions).
    cbn [bind]. rewrite Hconditions. unfold countConditions.
    rewrite count_of_condition by lia. cbn [bind].
    eexists. split; [reflexivity |].
    cbn [issues]. rewrite !existsb_app, no_complexity_issue_in_security.
    destruct (10 <? Spec.node_complexity 0 c)%nat;
      destruct (0 <? List.length (contradictory_pairs (Spec.flat_leaves c)))%nat;
      reflexivity.
Qed.

End WithHost.

(** An instance of C9: the nested condition has the count 11. *)
Lemma complexity_counts_every_node_witness :
  calculateConditionComplexity (Spec.to_value Examples.nested_condition) 0
  = Ok 11%nat
  /\ exists v,
       validateRuleLogic (host := ExampleHost.host)
         (Examples.logic_request Examples.nested_condition) = Ok v
       /\ existsb Spec.is_complexity_issue (issues v) = true.
Proof.
  apply (complexity_counts_every_node (host := ExampleHost.host)
           (Examples.logic_request Examples.nested_condition) _
           Examples.nested_condition eq_refl eq_refl eq_refl eq_refl).
Defined.

(** C9 as it is worded does not hold: in the nested condition the three
    leaves are at depth 2, which makes 9 in the words of the
    specification, and the two [or] nodes at depth 1 bring the count of
    the code to 11, so that the rule is reported. *)
Lemma complexity_is_not_over_leaves_only :
  Spec.leaf_complexity 0 Examples.nested_condition = 9%nat
  /\ calculateConditionComplexity (Spec.to_value Examples.nested_condition) 0
     = Ok 11%nat
  /\ exists v,
       validateRuleLogic (host := ExampleHost.host)
         (Examples.logic_request Examples.nested_condition) = Ok v
       /\ existsb Spec.is_complexity_issue (issues v) = true.
Proof.
  split; [reflexivity |]. split; [reflexivity |].
  eexists. split; reflexivity.
Qed.

End RuleAnalysis.

(* ===================================================================== *)
(** * The validation agent: history and anomalies *)
(* ===================================================================== *)

Module ValidationHistory.

Import AIValidationAgent ValueFacts.

Lemma slice_last_length (A : Type) (n : nat) (xs : list A) :
  List.length (slice_last n xs) = Nat.min n (List.length xs).
Proof. unfold slice_last. rewrite length_skipn. lia. Qed.

Lemma slice_last_short (A : Type) (n : nat) (xs : list A) :
  (List.length xs <= n)%nat -> slice_last n xs = xs.
Proof.
  intros Hshort. unfold slice_last.
  replace (List.length xs - n)%nat with O by lia. reflexivity.
Qed.

(** A failed validation is put in the history, and nothing is taken
    out. *)
Lemma handleValidationError_appends (a : agent) (validation : value) (e : exn) :
  validationHistory (handleValidationError a validation e)
  = validationHistory a
    ++ [set (set validation "status" (VString "failed"))
            "error" (VString (exn_message e))].
Proof. reflexivity. Qed.

Lemma handleValidationError_grows (a : agent) (validation : value) (e : exn) :
  List.length (validationHistory (handleValidationError a validation e))
  = S (List.length (validationHistory a)).
Proof. rewrite handleValidationError_appends, length_app. simpl. lia. Qed.

(** With fewer than 10 entries in the history no anomaly is recorded and
    none is emitted. *)
Lemma detectAnomalies_needs_ten (a : agent) (r : readings) :
  (List.length (validationHistory a) < 10)%nat ->
  detectAnomalies a r = Ok a.
Proof.
  intros Hfew. unfold detectAnomalies.
  rewrite slice_last_length.
  replace (Nat.min 100 (List.length (validationHistory a)) <? 10)%nat
    with true; [reflexivity |].
  symmetry. apply Nat.ltb_lt. lia.
Qed.

(** The entry written for a completed validation has a [passed] of its
    own only when the validation had one: the verdict is under
    [result]. *)
Lemma completed_entry_passed (props : list (string * value)) (result : value) :
  get (VObject
         (extend
            (own_properties
               (set (set (VObject props) "status" (VString "completed"))
                    "result" result))
            [("result", result)])) "passed"
  = get (VObject props) "passed".
Proof.
  unfold extend. cbn [fold_left fst snd own_properties set get].
  repeat rewrite assoc_set_assoc_other by discriminate. reflexivity.
Qed.

(** When no entry of the history has a truthy [passed] of its own, every
    entry is counted as failed. *)
Lemma all_counted_as_failed (entries : list value) :
  Forall (fun v => nullish v = false /\ truthy (get v "passed") = false)
    entries ->
  filter_with
    (fun v => passed <- member v "passed" ;; Ok (negb (truthy passed)))
    entries
  = Ok entries.
Proof.
  induction 1 as [| v rest [Hv Hpassed] Hrest IH]; simpl; [reflexivity |].
  rewrite (member_defined v _ Hv). cbn [bind]. rewrite Hpassed, IH.
  reflexivity.
Qed.

Lemma rate_of_all (n : nat) :
  num_div (num_of_nat (S n)) (num_of_nat (S n)) = Fin 1.
Proof.
  unfold num_of_nat, num_of_Z, num_div.
  rewrite Pipeline.positive_count_not_zero. f_equal.
  change 1%Q with (Qred 1). apply Qred_complete.
  apply Qmult_inv_r. intros Hzero.
  pose proof (Pipeline.positive_count_not_zero n) as Hne.
  apply Qeq_bool_iff in Hzero. congruence.
Qed.

(** The detection on a history in which no entry has a truthy [passed]
    of its own, as is the case of every entry that the agent writes:
    from 10 entries on the rate is 1, and an anomaly is recorded and
    emitted as soon as the threshold is below 1. *)
Lemma detectAnomalies_counts_all (a : agent) (r : readings) :
  let recentValidations := slice_last 100 (validationHistory a) in
  Forall (fun v => nullish v = false /\ truthy (get v "passed") = false)
    recentValidations ->
  (10 <= List.length recentValidations)%nat ->
  num_gtb (Fin 1) (errorRateThreshold a) = true ->
  detectAnomalies a r
  = Ok (emit
          (with_anomalies a
             (anomalies a
                ++ [ {| anomaly_type := "high_error_rate";
                        anomaly_timestamp := now r;
                        errorRate := Fin 1;
                        threshold := errorRateThreshold a |} ]))
          (anomaly_detected "high_error_rate" (Fin 1) (errorRateThreshold a))).
Proof.
  intros recent Hnone Hmany Habove. unfold detectAnomalies. fold recent.
  replace (List.length recent <? 10)%nat with false
    by (symmetry; apply Nat.ltb_ge; exact Hmany).
  rewrite (all_counted_as_failed recent Hnone). cbn [bind].
  destruct (List.length recent) as [| n] eqn:Hlength; [lia |].
  rewrite rate_of_all, Habove. reflexivity.
Qed.

Section WithHost.
Context {host : Host}.

(** A completed validation is put in the history, of which the last
    1000 entries are kept. *)
Lemma handleValidationResult_keeps_last (a : agent) (r : readings)
  (validation result : value) :
  let entry :=
    VObject
      (extend
         (own_properties
            (set (set validation "status" (VString "completed"))
                 "result" result))
         [("result", result)]) in
  validationHistory (handleValidationResult a r validation result)
  = slice_last 1000 (validationHistory a ++ [entry]).
Proof.
  intros entry. unfold handleValidationResult. fold entry.
  set (history := validationHistory a ++ [entry]).
  assert (Hkept :
            (if (1000 <? List.length history)%nat
             then slice_last 1000 history else history)
            = slice_last 1000 history).
  { destruct (1000 <? List.length history)%nat eqn:Hlong; [reflexivity |].
    apply Nat.ltb_ge in Hlong. symmetry. apply slice_last_short. exact Hlong. }
  rewrite Hkept.
  repeat match goal with
         | |- context [if ?b then _ else _] => destruct b
         end; reflexivity.
Qed.

Lemma handleValidationResult_bounded (a : agent) (r : readings)
  (validation result : value) :
  (List.length (validationHistory (handleValidationResult a r validation result))
   <= 1000)%nat.
Proof.
  rewrite handleValidationResult_keeps_last, slice_last_length. lia.
Qed.

(** C8, at a history of 1000 entries.  The agent completes 1000
    validations; then a request of a kind that it does not know fails,
    and the history holds 1001 entries. *)
Theorem failed_validation_exceeds_cap :
  fmap (fun a => List.length (validationHistory a))
    (Examples.validate_times 1000 fresh Examples.performance_request)
  = Ok 1000%nat
  /\ fmap (fun a => List.length (validationHistory a))
       (a <- Examples.validate_times 1000 fresh Examples.performance_request ;;
        Examples.validate_once 1000 a Examples.unknown_request)
     = Ok 1001%nat.
Proof. split; vm_compute; reflexivity. Qed.

(** C7, at a history of 10 validations that all passed.  The agent
    completes 10 validations, each with [result.passed] true; the
    detection counts every one of them as failed, finds the rate 1 and
    records an anomaly. *)
Theorem anomaly_without_failed_validation :
  fmap (fun a => (forallb Examples.entry_passed (validationHistory a),
                  List.length (validationHistory a)))
    (Examples.validate_times 10 fresh Examples.performance_request)
  = Ok (true, 10%nat)
  /\ fmap (fun a => (anomalies a, slice_last 1 (emitted a)))
       (a <- Examples.validate_times 10 fresh Examples.performance_request ;;
        detectAnomalies a (Examples.agent_readings 10))
     = Ok ([ {| anomaly_type := "high_error_rate";
                anomaly_timestamp := "";
                errorRate := Fin 1;
                threshold := Fin (5 # 100) |} ],
           [ anomaly_detected "high_error_rate" (Fin 1) (Fin (5 # 100)) ]).
Proof. split; vm_compute; reflexivity. Qed.

End WithHost.

End ValidationHistory.

(* ===================================================================== *)
(** * The algebra of conditions *)
(* ===================================================================== *)

Module ConditionAlgebra.

Import RuleProcessor ValueFacts ConditionEvaluator.

Section WithHost.
Context {host : Host}.

(** A value that has an array under [and] or [or] is an object. *)
Lemma holder_truthy (condition : value) (k : string) (xs : list value) :
  (k =? "length")%string = false -> index_of_key k = None ->
  get condition k = VArray xs -> truthy condition = true.
Proof.
  intros Hlen Hidx Hget.
  destruct condition; simpl in Hget; try discriminate; try reflexivity.
  rewrite Hlen, Hidx in Hget. discriminate.
Qed.

(** The equation of [parseCondition] for an [and]. *)
Lemma parseCondition_and (condition context : value) (xs : list value) :
  get condition "and" = VArray xs ->
  parseCondition condition context
  = every (fun sub => parseCondition sub context) xs.
Proof.
  intros Hget. unfold parseCondition at 1.
  rewrite parseCondition_fuel_step.
  rewrite (holder_truthy condition "and" xs eq_refl eq_refl Hget), Hget.
  cbn [negb truthy call_on_array].
  apply every_ext. intros x Hin.
  pose proof (depth_child condition x xs "and" eq_refl eq_refl Hget Hin).
  apply parseCondition_fuel_stable; lia.
Qed.

(** The equation of [parseCondition] for an [or]. *)
Lemma parseCondition_or (condition context : value) (xs : list value) :
  truthy (get condition "and") = false ->
  get condition "or" = VArray xs ->
  parseCondition condition context
  = some (fun sub => parseCondition sub context) xs.
Proof.
  intros Hand Hget. unfold parseCondition at 1.
  rewrite parseCondition_fuel_step.
  rewrite (holder_truthy condition "or" xs eq_refl eq_refl Hget), Hand, Hget.
  cbn [negb truthy call_on_array].
  apply some_ext. intros x Hin.
  pose proof (depth_child condition x xs "or" eq_refl eq_refl Hget Hin).
  apply parseCondition_fuel_stable; lia.
Qed.

Lemma every_stops (f : value -> completion bool) (before after : list value)
  (c : value) :
  Forall (fun x => f x = Ok true) before ->
  f c = Ok false ->
  every f (before ++ c :: after) = Ok false.
Proof.
  intros Hbefore Hc.
  induction Hbefore as [| x rest Hx _ IH]; simpl.
  - rewrite Hc. reflexivity.
  - rewrite Hx. exact IH.
Qed.

Lemma some_stops (f : value -> completion bool) (before after : list value)
  (c : value) :
  Forall (fun x => f x = Ok false) before ->
  f c = Ok true ->
  some f (before ++ c :: after) = Ok true.
Proof.
  intros Hbefore Hc.
  induction Hbefore as [| x rest Hx _ IH]; simpl.
  - rewrite Hc. reflexivity.
  - rewrite Hx. exact IH.
Qed.

(** [every] and [some] are dual under negation, exceptions included. *)
Lemma not_every (f : value -> completion bool) (xs : list value) :
  fmap negb (every f xs) = some (fun x => fmap negb (f x)) xs.
Proof.
  induction xs as [| x rest IH]; simpl; [reflexivity |].
  destruct (f x) as [[|] | |]; simpl; try reflexivity. exact IH.
Qed.

Lemma not_some (f : value -> completion bool) (xs : list value) :
  fmap negb (some f xs) = every (fun x => fmap negb (f x)) xs.
Proof.
  induction xs as [| x rest IH]; simpl; [reflexivity |].
  destruct (f x) as [[|] | |]; simpl; try reflexivity. exact IH.
Qed.

Lemma some_map (f : value -> completion bool) (g : value -> value)
  (xs : list value) :
  some f (map g xs) = some (fun x => f (g x)) xs.
Proof.
  induction xs as [| x rest IH]; simpl; [reflexivity |].
  rewrite IH. reflexivity.
Qed.

Lemma every_map (f : value -> completion bool) (g : value -> value)
  (xs : list value) :
  every f (map g xs) = every (fun x => f (g x)) xs.
Proof.
  induction xs as [| x rest IH]; simpl; [reflexivity |].
  rewrite IH. reflexivity.
Qed.

(** The negation of a child that is not falsy. *)
Lemma parseCondition_negation (c context : value) :
  truthy c = true ->
  parseCondition (Reach.negation c) context
  = fmap negb (parseCondition c context).
Proof.
  intros Hc.
  apply (parseCondition_not (Reach.negation c) context);
    try reflexivity; exact Hc.
Qed.

(** X1. [and] and [or] stop at the first child that decides them: an
    [and] is [false] as soon as a child is [false] after children that
    are [true], an [or] is [true] as soon as a child is [true] after
    children that are [false], whatever the children that follow are;
    these are not evaluated, so that one of them that would throw does
    not. *)
Theorem and_or_stop_at_deciding_child
  (condition context c : value) (before after : list value) :
  (get condition "and" = VArray (before ++ c :: after) ->
   Forall (fun x => parseCondition x context = Ok true) before ->
   parseCondition c context = Ok false ->
   parseCondition condition context = Ok false)
  /\ (truthy (get condition "and") = false ->
      get condition "or" = VArray (before ++ c :: after) ->
      Forall (fun x => parseCondition x context = Ok false) before ->
      parseCondition c context = Ok true ->
      parseCondition condition context = Ok true).
Proof.
  split.
  - intros Hget Hbefore Hc.
    rewrite (parseCondition_and condition context _ Hget).
    apply every_stops; assumption.
  - intros Hand Hget Hbefore Hc.
    rewrite (parseCondition_or condition context _ Hand Hget).
    apply some_stops; assumption.
Qed.

(** X2. The laws of negation hold, exceptions included, for children
    that are not falsy: the negation of an [and] is the [or] of the
    negations, the negation of an [or] is the [and] of the negations,
    and a double negation is the condition itself.  The last law is
    for a condition that names no inherited member as an operator: such
    a member can return a value that is not a boolean, which a double
    negation turns into one. *)
Theorem negation_laws (cs : list value) (c context : value) :
  Forall (fun x => truthy x = true) cs ->
  truthy c = true ->
  Spec.own_operators c = true ->
  parseCondition (Reach.negation (VObject [("and", VArray cs)])) context
  = parseCondition (VObject [("or", VArray (map Reach.negation cs))]) context
  /\ parseCondition (Reach.negation (VObject [("or", VArray cs)])) context
     = parseCondition (VObject [("and", VArray (map Reach.negation cs))]) context
  /\ parseCondition (Reach.negation (Reach.negation c)) context
     = parseCondition c context.
Proof.
  intros Hcs Hc _. rewrite Forall_forall in Hcs.
  split; [| split].
  - rewrite parseCondition_negation by reflexivity.
    rewrite (parseCondition_and (VObject [("and", VArray cs)]) context cs eq_refl).
    rewrite (parseCondition_or (VObject [("or", VArray (map Reach.negation cs))])
               context (map Reach.negation cs) eq_refl eq_refl).
    rewrite not_every, some_map.
    apply some_ext. intros x Hin.
    symmetry. apply parseCondition_negation. apply Hcs. exact Hin.
  - rewrite parseCondition_negation by reflexivity.
    rewrite (parseCondition_or (VObject [("or", VArray cs)]) context cs
               eq_refl eq_refl).
    rewrite (parseCondition_and (VObject [("and", VArray (map Reach.negation cs))])
               context (map Reach.negation cs) eq_refl).
    rewrite not_some, every_map.
    apply every_ext. intros x Hin.
    symmetry. apply parseCondition_negation. apply Hcs. exact Hin.
  - rewrite parseCondition_negation by reflexivity.
    rewrite parseCondition_negation by exact Hc.
    destruct (parseCondition c context) as [[|] | |]; reflexivity.
Qed.





End WithHost.

(** An instance of X1: after the child that decides comes a leaf
    without a field, which throws when it is evaluated. *)
Lemma and_or_stop_at_deciding_child_witness :
  parseCondition (host := ExampleHost.host)
    (VObject
       [ ("and",
           VArray [ VObject [ ("field", VString "amount");
                              ("operator", VString "is_not_empty") ];
                    VObject [ ("field", VString "amount");
                              ("operator", VString "is_empty") ];
                    VObject [ ("operator", VString "equals") ] ]) ])
    (VObject [ ("amount", VInt 5) ]) = Ok false
  /\ parseCondition (host := ExampleHost.host)
       (VObject
          [ ("or",
              VArray [ VObject [ ("field", VString "amount");
                                 ("operator", VString "is_empty") ];
                       VObject [ ("field", VString "amount");
                                 ("operator", VString "is_not_empty") ];
                       VObject [ ("operator", VString "equals") ] ]) ])
       (VObject [ ("amount", VInt 5) ]) = Ok true.
Proof.
  split.
  - apply (proj1 (and_or_stop_at_deciding_child (host := ExampleHost.host)
                    _ (VObject [ ("amount", VInt 5) ])
                    (VObject [ ("field", VString "amount");
                               ("operator", VString "is_empty") ])
                    [ VObject [ ("field", VString "amount");
                                ("operator", VString "is_not_empty") ] ]
                    [ VObject [ ("operator", VString "equals") ] ]));
      [ reflexivity | repeat constructor | reflexivity ].
  - apply (proj2 (and_or_stop_at_deciding_child (host := ExampleHost.host)
                    _ (VObject [ ("amount", VInt 5) ])
                    (VObject [ ("field", VString "amount");
                               ("operator", VString "is_not_empty") ])
                    [ VObject [ ("field", VString "amount");
                                ("operator", VString "is_empty") ] ]
                    [ VObject [ ("operator", VString "equals") ] ]));
      [ reflexivity | reflexivity | repeat constructor | reflexivity ].
Defined.

(** An instance of X2, with a leaf that throws among the children. *)
Lemma negation_laws_witness :
  let known := VObject [ ("field", VString "amount");
                         ("operator", VString "is_empty") ] in
  let unknown := VObject [ ("field", VString "amount");
                           ("operator", VString "about") ] in
  let context := VObject [ ("amount", VInt 5) ] in
  parseCondition (host := ExampleHost.host)
    (Reach.negation (VObject [("and", VArray [known; unknown])])) context
  = parseCondition (host := ExampleHost.host)
      (VObject [("or", VArray (map Reach.negation [known; unknown]))]) context
  /\ parseCondition (host := ExampleHost.host)
       (Reach.negation (VObject [("or", VArray [known; unknown])])) context
     = parseCondition (host := ExampleHost.host)
         (VObject [("and", VArray (map Reach.negation [known; unknown]))]) context
  /\ parseCondition (host := ExampleHost.host)
       (Reach.negation (Reach.negation known)) context
     = parseCondition (host := ExampleHost.host) known context.
Proof.
  intros known unknown context.
  apply (negation_laws (host := ExampleHost.host) [known; unknown] known context);
    [ repeat constructor | reflexivity | reflexivity ].
Defined.


End ConditionAlgebra.

(* ===================================================================== *)
(** * What the rule engine returns *)
(* ===================================================================== *)

Module RuleResults.

Import RuleProcessor ValueFacts ConditionEvaluator RuleEngine.

Lemma percent_zero : Reach.percent (Fin 0).
Proof. exists 0%Q. split; [reflexivity |]. split; discriminate. Qed.

Lemma percent_hundred : Reach.percent (Fin 100).
Proof. exists 100%Q. split; [reflexivity |]. split; discriminate. Qed.

(** [Math.min(Math.max(score, 0), 100)] *)
Lemma clamp_range (score : number) :
  Math_min (Math_max score (Fin 0)) (Fin 100) = NaN
  \/ Reach.percent (Math_min (Math_max score (Fin 0)) (Fin 100)).
Proof.
  destruct score as [| | | q].
  - left. reflexivity.
  - right. exact percent_hundred.
  - right. exact percent_zero.
  - right. unfold Math_max, num_ltb, Qltb.
    destruct (Qle_bool 0 q) eqn:Hlow; cbn [negb].
    + apply Qle_bool_iff in Hlow.
      unfold Math_min, num_ltb, Qltb.
      destruct (Qle_bool q 100) eqn:Hhigh; cbn [negb].
      * apply Qle_bool_iff in Hhigh. exists q. auto.
      * exact percent_hundred.
    + exact percent_zero.
Qed.

(** The truth value of a number that is not a number is [false], so
    that [score || 0] is a number from 0 to 100 as soon as [score] is
    one or is [NaN]. *)
Lemma or_zero_percent (s : number) :
  s = NaN \/ Reach.percent s ->
  Reach.percent (if truthy (VNumber s) then s else Fin 0).
Proof.
  intros [-> | Hs]; [exact percent_zero |].
  destruct (truthy (VNumber s)); [exact Hs | exact percent_zero].
Qed.

Section WithHost.
Context {host : Host}.

Lemma calculateRiskScore_clamped (config transactionData : value) (s : number) :
  calculateRiskScore config transactionData = Ok s ->
  s = NaN \/ Reach.percent s.
Proof.
  unfold calculateRiskScore. intros H.
  destruct (member config "factors") as [configured | |]; simpl in H;
    try discriminate.
  destruct (iterate (or_else configured (VArray [])) "config.factors")
    as [factors | |]; simpl in H; try discriminate.
  destruct (add_factors transactionData (Fin 0) factors) as [score | |];
    simpl in H; try discriminate.
  injection H as <-. apply clamp_range.
Qed.

(** X4. The score that [calculateRiskScore] returns is a number from 0
    to 100 or is [NaN]: the sum of the points is clamped, and a sum that
    is not a number (as with a range that has no [points]) goes through
    the clamp as it is. *)
Theorem calculateRiskScore_in_range_or_nan
  (config transactionData : value) (s : number) :
  calculateRiskScore config transactionData = Ok s ->
  s = NaN \/ exists q : Q, s = Fin q /\ (0 <= q)%Q /\ (q <= 100)%Q.
Proof. apply calculateRiskScore_clamped. Qed.

Lemma executeOne_not_out_of_fuel (action transactionData : value) :
  executeOne action transactionData <> OutOfFuel.
Proof.
  unfold executeOne.
  pose proof (executeAction_not_out_of_fuel action transactionData) as Hfuel.
  destruct (executeAction action transactionData) as [r | e |]; simpl;
    [discriminate | | congruence].
  apply bind_not_out_of_fuel; [apply member_not_out_of_fuel |].
  intros type.
  apply bind_not_out_of_fuel; [apply member_not_out_of_fuel |].
  discriminate.
Qed.

Lemma executeEach_not_out_of_fuel (transactionData : value)
  (actions : list value) :
  executeEach actions transactionData <> OutOfFuel.
Proof.
  induction actions as [| action rest IH]; simpl; [discriminate |].
  apply bind_not_out_of_fuel; [apply executeOne_not_out_of_fuel |].
  intros entry.
  apply bind_not_out_of_fuel; [exact IH | discriminate].
Qed.

Lemma executeActions_not_out_of_fuel (actions transactionData : value) :
  executeActions actions transactionData <> OutOfFuel.
Proof.
  unfold executeActions.
  apply bind_not_out_of_fuel; [apply iterate_not_out_of_fuel |].
  intros each. apply executeEach_not_out_of_fuel.
Qed.

(** The score of an entry that [executeActions] records. *)
Lemma executeOne_score (action transactionData : value)
  (entry : executedAction) :
  executeOne action transactionData = Ok entry ->
  Reach.percent (TransactionMonitor.score_or_zero entry).
Proof.
  unfold executeOne. intros H.
  destruct (executeAction action transactionData) as [r | e |] eqn:Hr;
    simpl in H; try discriminate.
  - injection H as <-.
    destruct r; try exact percent_zero.
    cbn [TransactionMonitor.score_or_zero].
    apply or_zero_percent.
    revert Hr. unfold executeAction.
    destruct (member action "type") as [type | |]; simpl; try discriminate.
    repeat match goal with
           | |- context [if ?b then _ else _] => destruct b
           end;
      repeat match goal with
             | |- context [bind ?m _] =>
                 let H := fresh in destruct m eqn:H; simpl
             end;
      try discriminate.
    intros [= <- _].
    match goal with
    | H : calculateRiskScore _ _ = Ok _ |- _ =>
        exact (calculateRiskScore_clamped _ _ _ H)
    end.
  - destruct (member action "type"); simpl in H; try discriminate.
    destruct (member action "config"); simpl in H; try discriminate.
    injection H as <-. exact percent_zero.
Qed.

Lemma executeEach_scores (transactionData : value) (actions : list value) :
  forall entries,
    executeEach actions transactionData = Ok entries ->
    Forall (fun entry => Reach.percent (TransactionMonitor.score_or_zero entry))
      entries.
Proof.
  induction actions as [| action rest IH]; simpl; intros entries H.
  - injection H as <-. constructor.
  - destruct (executeOne action transactionData) as [entry | |] eqn:Hone;
      simpl in H; try discriminate.
    destruct (executeEach rest transactionData) as [more | |];
      simpl in H; try discriminate.
    injection H as <-. constructor.
    + exact (executeOne_score _ _ _ Hone).
    + apply IH. reflexivity.
Qed.

(** What [evaluateRule] returns for a rule and a transaction that are
    not [undefined] or [null]. *)
Lemma evaluateRule_returns (t : timing) (rule transactionData : value) :
  nullish rule = false ->
  nullish transactionData = false ->
  exists r,
    evaluateRule t rule transactionData = Ok r
    /\ ruleId r = get rule "id"
    /\ ruleName r = get rule "name"
    /\ transactionId r = get transactionData "id"
    /\ executionTime r = elapsed t
    /\ timestamp r = now_iso t
    /\ (result r = true ->
        error r = None
        /\ truthy (get rule "conditions") = true
        /\ parseCondition (get rule "conditions") transactionData = Ok true)
    /\ (result r = false -> actions r = [])
    /\ (error r <> None -> result r = false)
    /\ Forall (fun entry => Reach.percent (TransactionMonitor.score_or_zero entry))
         (actions r).
Proof.
  intros Hrule Htx. unfold evaluateRule.
  rewrite !(member_defined rule _ Hrule).
  rewrite !(member_defined transactionData _ Htx).
  cbn [bind].
  destruct (truthy (get rule "conditions")) eqn:Hconditions.
  - pose proof (parseCondition_terminates (get rule "conditions") transactionData)
      as Hfuel.
    destruct (parseCondition (get rule "conditions") transactionData)
      as [[|] | e |] eqn:Hparse; cbn [bind try_catch andb]; try congruence.
    + destruct (truthy (get rule "actions")) eqn:Hactions.
      * pose proof (executeActions_not_out_of_fuel (get rule "actions")
                      transactionData) as Hfuel'.
        destruct (executeActions (get rule "actions") transactionData)
          as [entries | e |] eqn:Hexec; cbn [bind try_catch]; try congruence.
        -- eexists. split; [reflexivity |]. cbn.
           repeat split; try reflexivity; try congruence.
           revert Hexec. unfold executeActions.
           destruct (iterate (get rule "actions") "actions") as [each | |];
             simpl; try discriminate.
           apply executeEach_scores.
        -- eexists. split; [reflexivity |]. cbn.
           repeat split; try reflexivity; try congruence. constructor.
      * eexists. split; [reflexivity |]. cbn.
        repeat split; try reflexivity; try congruence. constructor.
    + eexists. split; [reflexivity |]. cbn.
      repeat split; try reflexivity; try congruence. constructor.
    + eexists. split; [reflexivity |]. cbn.
      repeat split; try reflexivity; try congruence. constructor.
  - cbn [bind try_catch andb].
    eexists. split; [reflexivity |]. cbn.
    repeat split; try reflexivity; try congruence. constructor.
Qed.

Lemma evaluateRule_throws (t : timing) (rule transactionData : value) :
  nullish rule = true \/ nullish transactionData = true ->
  exists e, evaluateRule t rule transactionData = Throw e.
Proof.
  intros Hnull. unfold evaluateRule.
  destruct (nullish rule) eqn:Hrule.
  - unfold member. rewrite Hrule. cbn. eexists. reflexivity.
  - destruct Hnull as [Hnull | Htx]; [discriminate |].
    rewrite !(member_defined rule _ Hrule). unfold member. rewrite Htx.
    cbn. eexists. reflexivity.
Qed.


(** The scores of the actions of a result of [evaluateRule]. *)
Lemma evaluateRule_scores (t : timing) (rule transactionData : value)
  (r : ruleResult) :
  evaluateRule t rule transactionData = Ok r ->
  Forall (fun entry => Reach.percent (TransactionMonitor.score_or_zero entry))
    (actions r).
Proof.
  intros Hr.
  destruct (nullish rule) eqn:Hrule.
  - destruct (evaluateRule_throws t rule transactionData (or_introl Hrule))
      as (e & He). congruence.
  - destruct (nullish transactionData) eqn:Htx.
    + destruct (evaluateRule_throws t rule transactionData (or_intror Htx))
        as (e & He). congruence.
    + destruct (evaluateRule_returns t rule transactionData Hrule Htx)
        as (r' & Hr' & _ & _ & _ & _ & _ & _ & _ & _ & Hscores).
      rewrite Hr in Hr'. injection Hr' as <-. exact Hscores.
Qed.


Lemma evaluateEnabled_scores (clock : nat -> timing)
  (transactionData : value) (rules : list value) :
  forall n evaluated,
    evaluateEnabled clock n rules transactionData = Ok evaluated ->
    Forall (fun r =>
              Forall (fun entry =>
                        Reach.percent (TransactionMonitor.score_or_zero entry))
                (actions r))
      evaluated.
Proof.
  induction rules as [| rule rest IH]; intros n evaluated; simpl.
  - intros [= <-]. constructor.
  - destruct (member rule "enabled") as [enabled | |]; simpl;
      try discriminate.
    destruct (negb (strict_equals enabled (VBoolean false))); [| apply IH].
    destruct (evaluateRule (clock n) rule transactionData) as [r | |] eqn:Hr;
      simpl; try discriminate.
    destruct (evaluateEnabled clock (S n) rest transactionData)
      as [more | |] eqn:Hmore; simpl; try discriminate.
    intros [= <-]. constructor.
    + exact (evaluateRule_scores _ _ _ _ Hr).
    + exact (IH _ _ Hmore).
Qed.


Lemma processTransaction_scores (clock : nat -> timing) (now : string)
  (rules transactionData : value) (r : report) :
  processTransaction clock now rules transactionData = Ok r ->
  Forall (fun result =>
            Forall (fun entry =>
                      Reach.percent (TransactionMonitor.score_or_zero entry))
              (actions result))
    (results r).
Proof.
  unfold processTransaction.
  destruct (iterate rules "rules") as [each | |]; simpl; try discriminate.
  destruct (evaluateEnabled clock 0 each transactionData)
    as [evaluated | |] eqn:Hevaluated; simpl; try discriminate.
  destruct (member transactionData "id"); simpl; try discriminate.
  intros [= <-]. cbn. exact (evaluateEnabled_scores _ _ _ _ _ Hevaluated).
Qed.

(** X5. [evaluateRule] returns a result for every rule and transaction
    that are not [undefined] or [null], whatever else the rule holds,
    when its conditions name no inherited member as an operator: the
    result carries the [id] of the rule and of the transaction, it is
    triggered only when the conditions evaluate to [true], it has no
    actions when it is not triggered, and it is not triggered when it
    carries an error (which is also the case when the conditions hold
    and the actions cannot be run).  It throws only when the rule or the
    transaction is [undefined] or [null], and then it does throw. *)
Theorem evaluateRule_returns_or_throws (t : timing)
  (rule transactionData : value) :
  (nullish rule = false -> nullish transactionData = false ->
   Spec.own_operators (get rule "conditions") = true ->
   exists r,
     evaluateRule t rule transactionData = Ok r
     /\ ruleId r = get rule "id"
     /\ transactionId r = get transactionData "id"
     /\ (result r = true ->
         error r = None
         /\ parseCondition (get rule "conditions") transactionData = Ok true)
     /\ (result r = false -> actions r = [])
     /\ (error r <> None -> result r = false))
  /\ (nullish rule = true \/ nullish transactionData = true ->
      exists e, evaluateRule t rule transactionData = Throw e).
Proof.
  split.
  - intros Hrule Htx _.
    destruct (evaluateRule_returns t rule transactionData Hrule Htx)
      as (r & Hr & Hid & _ & Htid & _ & _ & Htrue & Hfalse & Herror & _).
    exists r. repeat split; try assumption; apply Htrue; assumption.
  - apply evaluateRule_throws.
Qed.

(** The loop of [processTransaction] evaluates the enabled rules, in
    their order. *)
Lemma evaluateEnabled_returns (clock : nat -> timing) (transactionData : value)
  (rules : list value) :
  Forall (fun rule => nullish rule = false) rules ->
  nullish transactionData = false ->
  forall n,
  exists evaluated,
    evaluateEnabled clock n rules transactionData = Ok evaluated
    /\ Forall2 (fun rule r =>
                  exists k, evaluateRule (clock k) rule transactionData = Ok r)
         (filter Reach.is_enabled rules) evaluated.
Proof.
  intros Hrules Htx.
  induction Hrules as [| rule rest Hrule _ IH]; intros n; simpl.
  - exists []. split; [reflexivity | constructor].
  - rewrite (member_defined rule _ Hrule). cbn [bind].
    unfold Reach.is_enabled at 1.
    destruct (negb (strict_equals (get rule "enabled") (VBoolean false))).
    + destruct (evaluateRule_returns (clock n) rule transactionData Hrule Htx)
        as (r & Hr & _).
      rewrite Hr. cbn [bind].
      destruct (IH (S n)) as (more & -> & Hmore). cbn [bind].
      exists (r :: more). split; [reflexivity |].
      constructor; [exists n; exact Hr | exact Hmore].
    + apply IH.
Qed.

Lemma passed_and_failed (evaluated : list ruleResult) :
  (List.length (filter result evaluated)
   + List.length (filter (fun r => negb (result r)) evaluated)
   = List.length evaluated)%nat.
Proof.
  induction evaluated as [| r rest IH]; simpl; [reflexivity |].
  destruct (result r); simpl; lia.
Qed.

Lemma errors_among_failed (evaluated : list ruleResult) :
  Forall (fun r => error r <> None -> result r = false) evaluated ->
  (List.length (filter has_error evaluated)
   <= List.length (filter (fun r => negb (result r)) evaluated))%nat.
Proof.
  induction 1 as [| r rest Hr _ IH]; simpl; [lia |].
  unfold has_error at 1.
  destruct (error r) as [m |] eqn:Herror.
  - rewrite Hr by discriminate.
    destruct (truthy (VString m)); simpl; lia.
  - destruct (negb (result r)); simpl; lia.
Qed.

(** The report of [processTransaction]. *)
Lemma processTransaction_report (clock : nat -> timing) (now : string)
  (rules : list value) (transactionData : value) :
  Forall (fun rule => nullish rule = false) rules ->
  nullish transactionData = false ->
  exists r,
    processTransaction clock now (VArray rules) transactionData = Ok r
    /\ Forall2 (fun rule result =>
                  exists k,
                    evaluateRule (clock k) rule transactionData = Ok result)
         (filter Reach.is_enabled rules) (results r)
    /\ totalRules r = List.length (filter Reach.is_enabled rules)
    /\ (passedRules r + failedRules r = totalRules r)%nat
    /\ (errors r <= failedRules r)%nat.
Proof.
  intros Hrules Htx. unfold processTransaction. cbn [iterate bind].
  destruct (evaluateEnabled_returns clock transactionData rules Hrules Htx O)
    as (evaluated & -> & Hevaluated).
  cbn [bind]. rewrite (member_defined transactionData _ Htx). cbn [bind].
  eexists. split; [reflexivity |]. cbn.
  split; [exact Hevaluated |].
  split; [symmetry; exact (Forall2_length Hevaluated) |].
  split; [apply passed_and_failed |].
  apply errors_among_failed.
  assert (Hfilter : Forall (fun rule => nullish rule = false)
                      (filter Reach.is_enabled rules)).
  { rewrite Forall_forall in *. intros rule Hin.
    apply filter_In in Hin. apply Hrules. tauto. }
  clear Hrules. revert Hfilter.
  induction Hevaluated as [| rule r rest more (k & Hr) _ IH]; intros Hfilter;
    constructor.
  - inversion Hfilter as [| ? ? Hrule _]; subst.
    destruct (evaluateRule_returns (clock k) rule transactionData Hrule Htx)
      as (r' & Hr' & _ & _ & _ & _ & _ & _ & _ & Herror & _).
    rewrite Hr in Hr'. injection Hr' as <-. exact Herror.
  - apply IH. inversion Hfilter; assumption.
Qed.

(** X6. For rules and a transaction that are not [undefined] or [null],
    [processTransaction] returns a report: its results are those of
    [evaluateRule] for the rules whose [enabled] is not [false], in the
    order of the rules; every result is counted once as passed or as
    failed, and a result with an error is among the failed. *)
Theorem processTransaction_counts (clock : nat -> timing) (now : string)
  (rules : list value) (transactionData : value) :
  Forall (fun rule => nullish rule = false) rules ->
  nullish transactionData = false ->
  exists r,
    processTransaction clock now (VArray rules) transactionData = Ok r
    /\ Forall2 (fun rule result =>
                  exists k,
                    evaluateRule (clock k) rule transactionData = Ok result)
         (filter Reach.is_enabled rules) (results r)
    /\ totalRules r = List.length (filter Reach.is_enabled rules)
    /\ (passedRules r + failedRules r = totalRules r)%nat
    /\ (errors r <= failedRules r)%nat.
Proof. apply processTransaction_report. Qed.


End WithHost.


(** An instance of X4: an amount of 50 in a range worth 30 points; the
    same range without [points] gives a score that is not a number. *)
Lemma calculateRiskScore_in_range_or_nan_witness :
  (exists s,
     calculateRiskScore (host := ExampleHost.host)
       (VObject
          [ ("factors",
              VArray
                [ VObject
                    [ ("field", VString "amount");
                      ("ranges",
                        VArray [ VObject [ ("min", VInt 0);
                                           ("max", VInt 100);
                                           ("points", VInt 30) ] ]) ] ]) ])
       (VObject [ ("amount", VInt 50) ]) = Ok s
     /\ (s = NaN \/ exists q : Q, s = Fin q /\ (0 <= q)%Q /\ (q <= 100)%Q))
  /\ calculateRiskScore (host := ExampleHost.host)
       (VObject
          [ ("factors",
              VArray
                [ VObject
                    [ ("field", VString "amount");
                      ("ranges",
                        VArray [ VObject [ ("min", VInt 0);
                                           ("max", VInt 100) ] ]) ] ]) ])
       (VObject [ ("amount", VInt 50) ]) = Ok NaN.
Proof.
  split; [| reflexivity].
  exists (Fin 30). split; [reflexivity |].
  match goal with
  | |- Fin 30 = NaN \/ _ =>
      apply (calculateRiskScore_in_range_or_nan (host := ExampleHost.host)
               (VObject
                  [ ("factors",
                      VArray
                        [ VObject
                            [ ("field", VString "amount");
                              ("ranges",
                                VArray [ VObject [ ("min", VInt 0);
                                                   ("max", VInt 100);
                                                   ("points", VInt 30) ] ]) ] ]) ])
               (VObject [ ("amount", VInt 50) ]) (Fin 30))
  end.
  reflexivity.
Defined.

(** An instance of X5: the conditions hold and the actions are not a
    list; and a rule that is [null]. *)
Lemma evaluateRule_returns_or_throws_witness :
  (exists r,
     evaluateRule (host := ExampleHost.host) Examples.timing0
       (VObject [ ("id", VString "r");
                  ("conditions",
                    VObject [ ("field", VString "amount");
                              ("operator", VString "is_not_empty") ]);
                  ("actions", VInt 5) ])
       Examples.small_transfer = Ok r
     /\ result r = false
     /\ actions r = []
     /\ error r = Some "actions is not iterable")
  /\ (exists e,
        evaluateRule (host := ExampleHost.host) Examples.timing0 VNull
          Examples.small_transfer = Throw e).
Proof.
  split.
  - match goal with
    | |- exists r, evaluateRule ?t ?rule ?transactionData = _ /\ _ =>
        destruct (proj1 (evaluateRule_returns_or_throws
                           (host := ExampleHost.host) t rule transactionData)
                    eq_refl eq_refl eq_refl)
          as (r & Hr & _ & _ & _ & Hfalse & Herror)
    end.
    exists r. split; [exact Hr |].
    assert (Hmessage : error r = Some "actions is not iterable").
    { vm_compute in Hr. injection Hr as <-. reflexivity. }
    assert (Hresult : result r = false)
      by (apply Herror; rewrite Hmessage; discriminate).
    auto.
  - apply (proj2 (evaluateRule_returns_or_throws (host := ExampleHost.host)
                    Examples.timing0 VNull Examples.small_transfer)).
    left. reflexivity.
Defined.

(** An instance of X6: two rules that trigger, with a disabled rule
    between them. *)
Lemma processTransaction_counts_witness :
  exists r,
    processTransaction (host := ExampleHost.host)
      (fun _ => Examples.timing0) ""
      (VArray [ Examples.scoring_rule "a" 30;
                VObject [ ("id", VString "off"); ("enabled", VBoolean false) ];
                Examples.scoring_rule "b" 31 ])
      Examples.small_transfer = Ok r
    /\ totalRules r = 2%nat
    /\ (passedRules r + failedRules r = totalRules r)%nat
    /\ (errors r <= failedRules r)%nat.
Proof.
  destruct (processTransaction_counts (host := ExampleHost.host)
              (fun _ => Examples.timing0) ""
              [ Examples.scoring_rule "a" 30;
                VObject [ ("id", VString "off"); ("enabled", VBoolean false) ];
                Examples.scoring_rule "b" 31 ]
              Examples.small_transfer)
    as (r & Hr & _ & Htotal & Hsum & Herrors);
    [ repeat constructor | reflexivity | ].
  exists r. repeat split; assumption.
Defined.

End RuleResults.

(* ===================================================================== *)
(** * The transaction pipeline: what every pass keeps *)
(* ===================================================================== *)

Module MonitorInvariants.

Import RuleProcessor TransactionMonitor ValueFacts.

(** The scores that are numbers from 0 to 100 are rationals. *)
Lemma percents_are_rationals (scores : list number) :
  Forall Reach.percent scores ->
  exists qs : list Q,
    scores = map Fin qs
    /\ Forall (fun q => (0 <= q)%Q /\ (q <= 100)%Q) qs.
Proof.
  induction 1 as [| s rest (q & -> & Hq) _ (qs & -> & Hqs)].
  - exists []. split; [reflexivity | constructor].
  - exists (q :: qs). split; [reflexivity |]. constructor; assumption.
Qed.

Lemma scores_of_percent (rules : list ruleResult) :
  Forall (fun r =>
            Forall (fun entry => Reach.percent (score_or_zero entry))
              (actions r))
    rules ->
  Forall Reach.percent (TransactionMonitor.added_scores rules).
Proof.
  induction 1 as [| r rest Hr _ IH]; simpl; [constructor |].
  apply Forall_app. split; [| exact IH].
  rewrite Forall_forall in *. intros s Hs.
  apply in_map_iff in Hs. destruct Hs as (entry & <- & Hentry).
  apply filter_In in Hentry. apply Hr. tauto.
Qed.

Lemma Qsum_bounds (qs : list Q) :
  Forall (fun q => (0 <= q)%Q /\ (q <= 100)%Q) qs ->
  (0 <= Spec.Qsum qs)%Q
  /\ (Spec.Qsum qs <= 100 * inject_Z (Z.of_nat (List.length qs)))%Q.
Proof.
  induction 1 as [| q rest (Hlow & Hhigh) _ (IHlow & IHhigh)].
  - split; discriminate.
  - cbn [Spec.Qsum fold_right List.length].
    change (fold_right Qplus 0%Q rest) with (Spec.Qsum rest).
    rewrite Nat2Z.inj_succ. unfold Z.succ. rewrite inject_Z_plus.
    split.
    + replace 0%Q with (0 + 0)%Q by reflexivity.
      apply Qplus_le_compat; assumption.
    + setoid_replace (100 * (inject_Z (Z.of_nat (List.length rest)) + inject_Z 1))%Q
        with (100 + 100 * inject_Z (Z.of_nat (List.length rest)))%Q by ring.
      apply Qplus_le_compat; assumption.
Qed.

Lemma mean_bounds (qs : list Q) :
  Forall (fun q => (0 <= q)%Q /\ (q <= 100)%Q) qs ->
  (0 <= Spec.mean qs)%Q /\ (Spec.mean qs <= 100)%Q.
Proof.
  intros Hqs. destruct qs as [| q rest]; [split; discriminate |].
  destruct (Qsum_bounds (q :: rest) Hqs) as (Hlow & Hhigh).
  unfold Spec.mean.
  assert (Hpos : (0 < inject_Z (Z.of_nat (List.length (q :: rest))))%Q).
  { replace 0%Q with (inject_Z 0) by reflexivity.
    rewrite <- Zlt_Qlt. cbn [List.length]. lia. }
  split.
  - apply Qle_shift_div_l; [exact Hpos |].
    rewrite Qmult_0_l. exact Hlow.
  - apply Qle_shift_div_r; [exact Hpos | exact Hhigh].
Qed.

Lemma rounded_percent (q : Q) :
  (0 <= q)%Q -> (q <= 100)%Q ->
  (0 <= Qfloor (q + (1 # 2)) <= 100)%Z.
Proof.
  intros Hlow Hhigh. split.
  - change 0%Z with (Qfloor 0).
    apply Qfloor_resp_le.
    apply Qle_trans with q; [exact Hlow |].
    rewrite <- (Qplus_0_r q) at 1.
    apply Qplus_le_compat; [apply Qle_refl | discriminate].
  - change 100%Z with (Qfloor (100 + (1 # 2))).
    apply Qfloor_resp_le.
    apply Qplus_le_compat; [exact Hhigh | apply Qle_refl].
Qed.

(** The risk score of rules whose scores are the rationals [qs]. *)
Lemma risk_score_of_scores (rules : list ruleResult) (qs : list Q) :
  TransactionMonitor.added_scores rules = map Fin qs ->
  calculateOverallRiskScore rules
  = Fin (inject_Z (Qfloor (Spec.mean qs + (1 # 2)))).
Proof.
  intros Hscores.
  rewrite Pipeline.calculateOverallRiskScore_scores, Hscores.
  destruct qs as [| q rest]; [reflexivity |].
  cbn [map]. change (Fin q :: map Fin rest) with (map Fin (q :: rest)).
  destruct (Pipeline.sum_of_finite (q :: rest) 0) as (s & -> & Hs).
  rewrite length_map. cbn [List.length].
  unfold num_of_nat, num_of_Z, num_div.
  rewrite Pipeline.positive_count_not_zero. cbn [Math_round].
  do 2 f_equal. apply Qfloor_comp.
  rewrite Qred_correct, Hs. unfold Spec.mean. cbn [List.length].
  rewrite Qplus_0_l. reflexivity.
Qed.

Lemma filter_Forall (A : Type) (P : A -> Prop) (f : A -> bool) (xs : list A) :
  Forall P xs -> Forall P (filter f xs).
Proof.
  rewrite !Forall_forall. intros H x Hin.
  apply filter_In in Hin. apply H. tauto.
Qed.

Lemma Qred_inject_Z (z : Z) : Qred (inject_Z z) = inject_Z z.
Proof.
  unfold Qred, inject_Z. cbn [Qnum Qden].
  pose proof (Z.ggcd_gcd z 1) as Hgcd.
  pose proof (Z.ggcd_correct_divisors z 1) as Hdivisors.
  destruct (Z.ggcd z 1) as (g, (a, b)). cbn [fst snd] in *.
  rewrite Z.gcd_1_r in Hgcd. subst g.
  destruct Hdivisors as (Ha & Hb). rewrite Z.mul_1_l in Ha, Hb.
  subst. reflexivity.
Qed.

Lemma add_integers (a b : Z) :
  num_add (num_of_Z a) (num_of_Z b) = num_of_Z (a + b).
Proof.
  unfold num_of_Z, num_add. f_equal.
  rewrite <- (Qred_inject_Z (a + b)).
  apply Qred_complete. rewrite inject_Z_plus. reflexivity.
Qed.

Lemma less_integers (a b : Z) :
  num_ltb (num_of_Z a) (num_of_Z b) = (a <? b)%Z.
Proof.
  unfold num_of_Z, num_ltb, Qltb, Qle_bool, inject_Z. cbn [Qnum Qden].
  rewrite !Z.mul_1_r. rewrite Z.ltb_antisym. reflexivity.
Qed.




Section WithHost.
Context {host : Host}.



(** X8. The risk score in the summary of a report that the rule engine
    returns is a whole number from 0 to 100, whatever the rules and the
    transaction are: every score that enters the mean was clamped by
    [calculateRiskScore], and one that is not a number counts as 0. *)
Theorem summary_risk_score_in_range (clock : nat -> timing) (now : string)
  (rules transactionData : value) (r : report) :
  RuleProcessor.processTransaction clock now rules transactionData = Ok r ->
  exists z : Z,
    riskScore (createResultSummary r) = Fin (inject_Z z)
    /\ (0 <= z <= 100)%Z.
Proof.
  intros Hr. cbn [createResultSummary riskScore].
  pose proof (RuleResults.processTransaction_scores _ _ _ _ _ Hr) as Hscores.
  apply (filter_Forall _ _ result) in Hscores.
  apply scores_of_percent in Hscores.
  destruct (percents_are_rationals _ Hscores) as (qs & Hqs & Hbounds).
  rewrite (risk_score_of_scores _ qs Hqs).
  eexists. split; [reflexivity |].
  destruct (mean_bounds qs Hbounds) as (Hlow & Hhigh).
  apply rounded_percent; assumption.
Qed.








(** ** Among listeners that return *)



















(** When a listener of [transaction_processed] throws, as the one that
    broadcasts the result to a connected client does on a result that
    holds its transaction, the transaction is counted as processed and
    is retried as well: the submissions are no longer those accounted
    for. *)
Lemma listener_that_throws_counts_twice :
  exists m',
    processNextBatch_among (host := ExampleHost.host) Examples.client_connected
      Examples.submitted_once (fun _ => Examples.readings0) = Ok m'
    /\ totalTransactions (stats m') = 1%nat
    /\ processedTransactions (stats m') = 1%nat
    /\ Reach.retries_waiting m' = 1%nat
    /\ Reach.accounted m' = 2%nat.
Proof.
  eexists. split; [reflexivity |]. repeat split; reflexivity.
Qed.


(** X13. A submitted document does not choose how it is processed:
    whatever it holds, the transaction made from it has a [retryCount]
    of 0, the [status] [pending] and no [processedAt]; its [id] is the
    one of the document when that is truthy and a fresh one otherwise;
    and every other property of the document, [timestamp] and
    [metadata] apart, is kept. *)
Theorem enhanceTransaction_resets (r : readings) (transaction : value) :
  nullish transaction = false ->
  let enhanced := enhanceTransaction r transaction in
  get enhanced "retryCount" = VInt 0
  /\ get enhanced "status" = VString "pending"
  /\ get enhanced "processedAt" = VNull
  /\ get enhanced "id" = or_else (get transaction "id") (VString (uuid r))
  /\ get enhanced "timestamp"
     = or_else (get transaction "timestamp") (VString (now r))
  /\ forall (props : list (string * value)) (k : string),
       transaction = VObject props ->
       ~ In k ["id"; "timestamp"; "processedAt"; "retryCount"; "status";
               "metadata"] ->
       get enhanced k = get transaction k.
Proof.
  intros _.
  unfold enhanceTransaction, extend. cbn [fold_left fst snd get].
  repeat split;
    try (repeat first [ rewrite assoc_set_assoc_same
                      | rewrite assoc_set_assoc_other by discriminate ];
         reflexivity).
  intros props k -> Hk. cbn [own_properties In] in *.
  repeat rewrite assoc_set_assoc_other by (intros ->; apply Hk; tauto).
  reflexivity.
Qed.

(** One more processing time enters the average. *)
Lemma updateMetrics_average (m : monitor) (result : processingResult)
  (a t total : Q) :
  averageProcessingTime (stats m) = Fin a ->
  processingTime result = Fin t ->
  (a * inject_Z (Z.of_nat (processedTransactions (stats m))) == total)%Q ->
  exists a',
    averageProcessingTime (stats (updateMetrics m result)) = Fin a'
    /\ processedTransactions (stats (updateMetrics m result))
       = S (processedTransactions (stats m))
    /\ (a' * inject_Z (Z.of_nat (S (processedTransactions (stats m))))
        == total + t)%Q.
Proof.
  intros Ha Ht Htotal.
  unfold updateMetrics. cbn [stats with_stats averageProcessingTime
                             processedTransactions].
  rewrite Ha, Ht. rewrite Nat.sub_succ, Nat.sub_0_r.
  unfold num_of_nat, num_of_Z. cbn [num_mul num_add num_div].
  rewrite Pipeline.positive_count_not_zero.
  eexists. split; [reflexivity |]. split; [reflexivity |].
  rewrite !Qred_correct, Htotal.
  field.
  intros Hzero.
  pose proof (Pipeline.positive_count_not_zero (processedTransactions (stats m)))
    as Hpositive.
  apply Qeq_eq_bool in Hzero. congruence.
Qed.

(** One step keeps the average between two bounds that hold the new
    time and, when something was processed before, the old average. *)
Lemma updateMetrics_within (m : monitor) (result : processingResult)
  (lo hi a t : Q) :
  averageProcessingTime (stats m) = Fin a ->
  processedTransactions (stats m) = O \/ (lo <= a <= hi)%Q ->
  processingTime result = Fin t ->
  (lo <= t <= hi)%Q ->
  exists a',
    averageProcessingTime (stats (updateMetrics m result)) = Fin a'
    /\ (lo <= a' <= hi)%Q
    /\ processedTransactions (stats (updateMetrics m result))
       = S (processedTransactions (stats m)).
Proof.
  intros Ha Hold Ht Hnew.
  destruct (updateMetrics_average m result a t
              (a * inject_Z (Z.of_nat (processedTransactions (stats m))))%Q
              Ha Ht (Qeq_refl _))
    as (a' & Ha' & Hcount & Htotal).
  exists a'. split; [exact Ha' |]. split; [| exact Hcount].
  set (n := processedTransactions (stats m)) in *.
  assert (Hn : (0 <= inject_Z (Z.of_nat n))%Q).
  { unfold Qle. cbn. lia. }
  assert (Hk : (0 < inject_Z (Z.of_nat (S n)))%Q).
  { unfold Qlt. cbn. lia. }
  assert (Hsucc : (inject_Z (Z.of_nat (S n)) == inject_Z (Z.of_nat n) + 1)%Q).
  { rewrite Nat2Z.inj_succ. unfold Z.succ. rewrite inject_Z_plus. reflexivity. }
  assert (Hsum :
    (lo * inject_Z (Z.of_nat n) <= a * inject_Z (Z.of_nat n)
     /\ a * inject_Z (Z.of_nat n) <= hi * inject_Z (Z.of_nat n))%Q).
  { destruct Hold as [Hzero | [Hlow Hhigh]].
    - unfold n in *. rewrite Hzero. cbn [Z.of_nat].
      change (inject_Z 0) with 0%Q. rewrite !Qmult_0_r.
      split; apply Qle_refl.
    - split; apply Qmult_le_compat_r; assumption. }
  destruct Hsum as [Hlow Hhigh]. destruct Hnew as [Htlow Hthigh].
  split.
  - apply (Qmult_le_r _ _ _ Hk). rewrite Htotal, Hsucc.
    rewrite Qmult_plus_distr_r, Qmult_1_r.
    apply Qplus_le_compat; assumption.
  - apply (Qmult_le_r _ _ _ Hk). rewrite Htotal, Hsucc.
    rewrite Qmult_plus_distr_r, Qmult_1_r.
    apply Qplus_le_compat; assumption.
Qed.

Lemma average_within (lo hi : Q) (rest : list processingResult) :
  forall (m : monitor) (result : processingResult) (a : Q),
    averageProcessingTime (stats m) = Fin a ->
    processedTransactions (stats m) = O \/ (lo <= a <= hi)%Q ->
    Forall (fun r => exists t, processingTime r = Fin t /\ (lo <= t <= hi)%Q)
      (result :: rest) ->
    exists q,
      averageProcessingTime
        (stats (fold_left updateMetrics (result :: rest) m)) = Fin q
      /\ (lo <= q <= hi)%Q
      /\ processedTransactions
           (stats (fold_left updateMetrics (result :: rest) m))
         = (processedTransactions (stats m) + S (List.length rest))%nat.
Proof.
  induction rest as [| next rest IH]; intros m result a Ha Hold Htimes.
  - inversion Htimes as [| ? ? (t & Ht & Hnew) _]; subst.
    destruct (updateMetrics_within m result lo hi a t Ha Hold Ht Hnew)
      as (a' & Ha' & Hbounds & Hcount).
    exists a'. cbn [fold_left List.length].
    split; [exact Ha' |]. split; [exact Hbounds |]. lia.
  - inversion Htimes as [| ? ? (t & Ht & Hnew) Hrest]; subst.
    destruct (updateMetrics_within m result lo hi a t Ha Hold Ht Hnew)
      as (a' & Ha' & Hbounds & Hcount).
    destruct (IH (updateMetrics m result) next a' Ha' (or_intror Hbounds) Hrest)
      as (q & Hq & Hq_bounds & Hq_count).
    exists q. cbn [fold_left] in *.
    split; [exact Hq |]. split; [exact Hq_bounds |].
    rewrite Hq_count, Hcount. cbn [List.length]. lia.
Qed.

(** X14. The average that [updateMetrics] maintains stays within the
    range of the processing times.  From a monitor that has processed
    nothing, or whose average lies between the whole numbers [lo] and
    [hi], after results whose processing times lie between [lo] and
    [hi] the average lies between them too, and every result is
    counted.  The bound on [hi] and [lo] times the count is the one
    under which double precision holds the whole numbers that the
    average is compared with, so that rounding, which keeps the order,
    cannot take the average out of the range. *)
Theorem average_processing_time_in_range (m : monitor)
  (results : list processingResult) (lo hi : Z) (a : Q) :
  averageProcessingTime (stats m) = Fin a ->
  processedTransactions (stats m) = O
  \/ (inject_Z lo <= a <= inject_Z hi)%Q ->
  Forall (fun r =>
            exists t,
              processingTime r = Fin t /\ (inject_Z lo <= t <= inject_Z hi)%Q)
    results ->
  results <> [] ->
  (Z.max (Z.abs lo) (Z.abs hi)
   * Z.of_nat (processedTransactions (stats m) + List.length results)
   <= 2 ^ 53)%Z ->
  exists q,
    averageProcessingTime (stats (fold_left updateMetrics results m)) = Fin q
    /\ (inject_Z lo <= q <= inject_Z hi)%Q
    /\ processedTransactions (stats (fold_left updateMetrics results m))
       = (processedTransactions (stats m) + List.length results)%nat.
Proof.
  intros Ha Hold Htimes Hsome _.
  destruct results as [| result rest]; [congruence |].
  exact (average_within _ _ rest m result a Ha Hold Htimes).
Qed.

End WithHost.

(** An instance of X8: two rules that score 30 and 31. *)
Lemma summary_risk_score_in_range_witness :
  exists r,
    RuleProcessor.processTransaction (host := ExampleHost.host)
      (fun _ => Examples.timing0) "" Examples.two_scoring_rules
      Examples.small_transfer = Ok r
    /\ exists z : Z,
         riskScore (createResultSummary r) = Fin (inject_Z z)
         /\ (0 <= z <= 100)%Z.
Proof.
  eexists. split; [reflexivity |].
  apply (summary_risk_score_in_range (host := ExampleHost.host)
           (fun _ => Examples.timing0) "" Examples.two_scoring_rules
           Examples.small_transfer).
  reflexivity.
Defined.





(** An instance of X13: a document that says it is completed. *)
Lemma enhanceTransaction_resets_witness :
  let document :=
    VObject [ ("id", VString "t1"); ("amount", VInt 50);
              ("status", VString "completed"); ("retryCount", VInt 99) ] in
  let enhanced := enhanceTransaction Examples.readings0 document in
  get enhanced "status" = VString "pending"
  /\ get enhanced "retryCount" = VInt 0
  /\ get enhanced "id" = VString "t1"
  /\ get enhanced "amount" = VInt 50.
Proof.
  intros document enhanced.
  destruct (enhanceTransaction_resets Examples.readings0 document eq_refl)
    as (Hcount & Hstatus & _ & Hid & _ & Hkept).
  split; [exact Hstatus |]. split; [exact Hcount |]. split; [exact Hid |].
  apply (Hkept _ "amount" eq_refl).
  cbn. intuition discriminate.
Defined.

(** An instance of X14: two results that took 10 and 20 milliseconds. *)
Lemma average_processing_time_in_range_witness :
  exists q,
    averageProcessingTime
      (stats (fold_left updateMetrics
                [Examples.result_taking 10; Examples.result_taking 20] fresh))
    = Fin q
    /\ (10 <= q <= 20)%Q.
Proof.
  destruct (average_processing_time_in_range fresh
              [Examples.result_taking 10; Examples.result_taking 20]
              10 20 0%Q eq_refl (or_introl eq_refl))
    as (q & Hq & Hbounds & _).
  - repeat constructor.
    + exists 10%Q. split; [reflexivity |]. split; unfold Qle; cbn; lia.
    + exists 20%Q. split; [reflexivity |]. split; unfold Qle; cbn; lia.
  - discriminate.
  - cbn. lia.
  - exists q. split; [exact Hq | exact Hbounds].
Defined.

End MonitorInvariants.

(* ===================================================================== *)
(** * The validation agent: verdicts *)
(* ===================================================================== *)

Module Verdicts.

Import RuleProcessor AIValidationAgent ValueFacts ConditionEvaluator RuleEngine.

Lemma strict_equals_sym (a b : value) : strict_equals a b = strict_equals b a.
Proof.
  destruct a as [| | x | x | x | |], b as [| | y | y | y | |];
    try reflexivity; cbn [strict_equals].
  - destruct x, y; reflexivity.
  - destruct x as [| | | p], y as [| | | q]; try reflexivity.
    cbn [num_eqb]. unfold Qeq_bool. apply Z.eqb_sym.
  - apply String.eqb_sym.
Qed.

Lemma Qred_opp_inject_Z (z : Z) : Qred (- inject_Z z) = inject_Z (- z).
Proof.
  rewrite <- (MonitorInvariants.Qred_inject_Z (- z)).
  apply Qred_complete. rewrite inject_Z_opp. reflexivity.
Qed.

Lemma sub_integers (a b : Z) :
  num_sub (num_of_Z a) (num_of_Z b) = num_of_Z (a - b).
Proof.
  unfold num_sub, num_neg, num_of_Z. rewrite Qred_opp_inject_Z.
  apply (MonitorInvariants.add_integers a (- b)).
Qed.

Lemma mul_integers (a b : Z) :
  num_mul (num_of_Z a) (num_of_Z b) = num_of_Z (a * b).
Proof.
  unfold num_mul, num_of_Z. f_equal.
  rewrite <- (MonitorInvariants.Qred_inject_Z (a * b)).
  apply Qred_complete. rewrite inject_Z_mult. reflexivity.
Qed.

Lemma geb_integers (a b : Z) :
  num_geb (num_of_Z a) (num_of_Z b) = (b <=? a)%Z.
Proof.
  unfold num_geb, num_leb. cbn [num_of_Z num_is_nan negb andb].
  change (Fin (inject_Z a)) with (num_of_Z a).
  change (Fin (inject_Z b)) with (num_of_Z b).
  rewrite MonitorInvariants.less_integers. rewrite Z.leb_antisym. reflexivity.
Qed.

Lemma existsb_pointwise (A : Type) (f g : A -> bool) (xs : list A) :
  (forall x, f x = g x) -> existsb f xs = existsb g xs.
Proof.
  intros Hfg. induction xs as [| x rest IH]; simpl; [reflexivity |].
  rewrite Hfg, IH. reflexivity.
Qed.

Section WithHost.
Context {host : Host}.

(** ** The recursions over conditions return or throw *)

Lemma sum_of_not_out_of_fuel (f : value -> completion nat) (xs : list value) :
  (forall x, In x xs -> f x <> OutOfFuel) -> sum_of f xs <> OutOfFuel.
Proof.
  induction xs as [| x rest IH]; intros Hf; simpl; [discriminate |].
  apply bind_not_out_of_fuel; [apply Hf; left; reflexivity |].
  intros n. apply bind_not_out_of_fuel; [| discriminate].
  apply IH. intros y Hy. apply Hf. right. exact Hy.
Qed.

Lemma each_into_not_out_of_fuel
  (f : value -> list value -> completion (list value)) (xs : list value) :
  (forall x acc, In x xs -> f x acc <> OutOfFuel) ->
  forall acc, each_into f xs acc <> OutOfFuel.
Proof.
  induction xs as [| x rest IH]; intros Hf acc; simpl; [discriminate |].
  apply bind_not_out_of_fuel; [apply Hf; left; reflexivity |].
  intros acc'. apply IH. intros y acc'' Hy. apply Hf. right. exact Hy.
Qed.

Lemma complexity_fuel_terminates (n : nat) :
  forall (conditions : value) (depth : nat),
    (JS.depth conditions < n)%nat ->
    calculateConditionComplexity_fuel n conditions depth <> OutOfFuel.
Proof.
  induction n as [| n IH]; intros conditions depth Hn; [lia |].
  cbn [calculateConditionComplexity_fuel].
  destruct (negb (truthy conditions)); [discriminate |].
  destruct (truthy (get conditions "and")) eqn:Hand.
  { apply bind_not_out_of_fuel; [| discriminate].
    destruct (get conditions "and") as [| | | | | xs |] eqn:Hget;
      try discriminate.
    simpl. apply sum_of_not_out_of_fuel. intros x Hin.
    pose proof (depth_child conditions x xs "and" eq_refl eq_refl Hget Hin).
    apply IH; lia. }
  destruct (truthy (get conditions "or")) eqn:Hor.
  { apply bind_not_out_of_fuel; [| discriminate].
    destruct (get conditions "or") as [| | | | | xs |] eqn:Hget;
      try discriminate.
    simpl. apply sum_of_not_out_of_fuel. intros x Hin.
    pose proof (depth_child conditions x xs "or" eq_refl eq_refl Hget Hin).
    apply IH; lia. }
  destruct (truthy (get conditions "not")) eqn:Hnot; [| discriminate].
  pose proof (depth_truthy_get conditions "not" eq_refl eq_refl Hnot).
  apply bind_not_out_of_fuel; [apply IH; lia | discriminate].
Qed.

Lemma flatten_fuel_terminates (n : nat) :
  forall (conditions : value) (acc : list value),
    (JS.depth conditions < n)%nat ->
    flattenConditions_fuel n conditions acc <> OutOfFuel.
Proof.
  induction n as [| n IH]; intros conditions acc Hn; [lia |].
  cbn [flattenConditions_fuel].
  destruct (negb (truthy conditions)); [discriminate |].
  destruct (truthy (get conditions "and")) eqn:Hand.
  { destruct (get conditions "and") as [| | | | | xs |] eqn:Hget;
      try discriminate.
    simpl. apply each_into_not_out_of_fuel. intros x acc' Hin.
    pose proof (depth_child conditions x xs "and" eq_refl eq_refl Hget Hin).
    apply IH; lia. }
  destruct (truthy (get conditions "or")) eqn:Hor.
  { destruct (get conditions "or") as [| | | | | xs |] eqn:Hget;
      try discriminate.
    simpl. apply each_into_not_out_of_fuel. intros x acc' Hin.
    pose proof (depth_child conditions x xs "or" eq_refl eq_refl Hget Hin).
    apply IH; lia. }
  destruct (truthy (get conditions "not")) eqn:Hnot.
  { pose proof (depth_truthy_get conditions "not" eq_refl eq_refl Hnot).
    apply IH; lia. }
  destruct (truthy (get conditions "field") && truthy (get conditions "operator"));
    discriminate.
Qed.

Lemma count_fuel_terminates (n : nat) :
  forall conditions : value,
    (JS.depth conditions < n)%nat ->
    countConditions_fuel n conditions <> OutOfFuel.
Proof.
  induction n as [| n IH]; intros conditions Hn; [lia |].
  cbn [countConditions_fuel].
  destruct (negb (truthy conditions)); [discriminate |].
  destruct (truthy (get conditions "and")) eqn:Hand.
  { destruct (get conditions "and") as [| | | | | xs |] eqn:Hget;
      try discriminate.
    simpl. apply sum_of_not_out_of_fuel. intros x Hin.
    pose proof (depth_child conditions x xs "and" eq_refl eq_refl Hget Hin).
    apply IH; lia. }
  destruct (truthy (get conditions "or")) eqn:Hor.
  { destruct (get conditions "or") as [| | | | | xs |] eqn:Hget;
      try discriminate.
    simpl. apply sum_of_not_out_of_fuel. intros x Hin.
    pose proof (depth_child conditions x xs "or" eq_refl eq_refl Hget Hin).
    apply IH; lia. }
  destruct (truthy (get conditions "not")) eqn:Hnot; [| discriminate].
  pose proof (depth_truthy_get conditions "not" eq_refl eq_refl Hnot).
  apply IH; lia.
Qed.

Lemma analyzeRuleLogic_not_out_of_fuel (rule : value) :
  analyzeRuleLogic rule <> OutOfFuel.
Proof.
  unfold analyzeRuleLogic.
  apply bind_not_out_of_fuel; [apply member_not_out_of_fuel |].
  intros conditions.
  apply bind_not_out_of_fuel;
    [apply complexity_fuel_terminates; lia |].
  intros complexity.
  apply bind_not_out_of_fuel; [| discriminate].
  unfold findContradictoryConditions.
  apply bind_not_out_of_fuel; [| discriminate].
  apply flatten_fuel_terminates. lia.
Qed.

Lemma validateRuleLogic_not_out_of_fuel (data : value) :
  validateRuleLogic data <> OutOfFuel.
Proof.
  unfold validateRuleLogic.
  apply bind_not_out_of_fuel; [apply member_not_out_of_fuel |].
  intros rule.
  apply bind_not_out_of_fuel; [apply analyzeRuleLogic_not_out_of_fuel |].
  intros logicIssues.
  apply bind_not_out_of_fuel; [| discriminate].
  apply count_fuel_terminates. lia.
Qed.

Lemma filter_with_not_out_of_fuel (f : value -> completion bool)
  (xs : list value) :
  (forall x, f x <> OutOfFuel) -> filter_with f xs <> OutOfFuel.
Proof.
  intros Hf. induction xs as [| x rest IH]; simpl; [discriminate |].
  apply bind_not_out_of_fuel; [apply Hf |].
  intros keep. apply bind_not_out_of_fuel; [exact IH | discriminate].
Qed.

Lemma validateRuleExecution_not_out_of_fuel (a : agent) (data : value) :
  validateRuleExecution a data <> OutOfFuel.
Proof.
  unfold validateRuleExecution.
  apply bind_not_out_of_fuel; [apply member_not_out_of_fuel |].
  intros ruleResult.
  apply bind_not_out_of_fuel; [apply member_not_out_of_fuel |].
  intros executionTime.
  apply bind_not_out_of_fuel.
  - match goal with
    | |- (if ?b then _ else _) <> _ => destruct b; [| discriminate]
    end.
    apply bind_not_out_of_fuel.
    + destruct (get ruleResult "actions"); try discriminate.
      simpl. apply filter_with_not_out_of_fuel. intros x.
      apply bind_not_out_of_fuel; [apply member_not_out_of_fuel | discriminate].
    + intros failed. destruct (0 <? List.length failed)%nat; discriminate.
  - intros validation.
    apply bind_not_out_of_fuel; [apply member_not_out_of_fuel | discriminate].
Qed.

Lemma dispatch_not_out_of_fuel (a : agent) (validation : value) :
  dispatch a validation <> OutOfFuel.
Proof.
  unfold dispatch.
  repeat match goal with
         | |- (if ?b then _ else _) <> _ => destruct b
         end;
    try discriminate.
  - apply validateRuleExecution_not_out_of_fuel.
  - apply validateRuleLogic_not_out_of_fuel.
Qed.

(** ** The contradictions that [analyzeRuleLogic] reports *)

Lemma areConditionsContradictory_sym (cond1 cond2 : value) :
  areConditionsContradictory cond1 cond2
  = areConditionsContradictory cond2 cond1.
Proof.
  unfold areConditionsContradictory.
  rewrite (strict_equals_sym (get cond1 "field") (get cond2 "field")).
  destruct (negb (strict_equals (get cond2 "field") (get cond1 "field")));
    [reflexivity |].
  apply existsb_pointwise. intros (op1, op2).
  destruct (strict_equals (get cond1 "operator") (VString op1)),
    (strict_equals (get cond2 "operator") (VString op2)),
    (strict_equals (get cond1 "operator") (VString op2)),
    (strict_equals (get cond2 "operator") (VString op1)); reflexivity.
Qed.

(** The operators of a pair of [contradictoryPairs] never both hold of
    the same two operands. *)
Lemma paired_operators_exclusive (op1 op2 : string)
  (f1 f2 : value -> value -> completion bool) (x y : value) :
  In (op1, op2) contradictoryPairs ->
  lookup_operator op1 operators = Some f1 ->
  lookup_operator op2 operators = Some f2 ->
  f1 x y = Ok true -> f2 x y = Ok true -> False.
Proof.
  unfold contradictoryPairs. cbn [In].
  intros [H | [H | [H | [H | [H | []]]]]]; injection H as <- <-;
    cbn; intros [= <-] [= <-]; intros [= H1] [= H2].
  - rewrite H1 in H2. discriminate.
  - unfold num_gtb, num_leb in *. rewrite H1 in H2.
    rewrite andb_false_r in H2. discriminate.
  - unfold num_geb, num_leb in *. rewrite H1 in H2.
    rewrite andb_false_r in H2. discriminate.
  - rewrite H1 in H2. discriminate.
  - destruct y; try discriminate. rewrite H1 in H2. discriminate.
Qed.

(** X15. The test for contradictions is symmetric, and it is sound for
    two leaves with the same operand: when [areConditionsContradictory]
    holds of two leaves on the same field and the same operand, no
    transaction satisfies both, as [parseCondition] evaluates them. *)
Theorem contradictory_leaves_exclude_each_other
  (cond1 cond2 field operand context : value) (op1 op2 : string) :
  Spec.is_leaf cond1 field op1 operand ->
  Spec.is_leaf cond2 field op2 operand ->
  truthy field = true ->
  areConditionsContradictory cond1 cond2 = true ->
  areConditionsContradictory cond2 cond1 = true
  /\ ~ (parseCondition cond1 context = Ok true
        /\ parseCondition cond2 context = Ok true).
Proof.
  intros (Hc1 & Hand1 & Hor1 & Hnot1 & Hf1 & Hop1 & Hv1)
         (Hc2 & Hand2 & Hor2 & Hnot2 & Hf2 & Hop2 & Hv2) Hfield Hflag.
  split; [rewrite areConditionsContradictory_sym; exact Hflag |].
  intros (Hfirst & Hsecond).
  unfold parseCondition in Hfirst, Hsecond.
  rewrite parseCondition_fuel_step in Hfirst, Hsecond.
  rewrite Hc1, Hand1, Hor1, Hnot1, Hf1, Hop1, Hv1, Hfield in Hfirst.
  rewrite Hc2, Hand2, Hor2, Hnot2, Hf2, Hop2, Hv2, Hfield in Hsecond.
  cbn [negb orb ToString] in Hfirst, Hsecond.
  unfold areConditionsContradictory in Hflag.
  rewrite Hop1, Hop2 in Hflag.
  destruct (negb (strict_equals (get cond1 "field") (get cond2 "field")));
    [discriminate |].
  apply existsb_exists in Hflag.
  destruct Hflag as ((p1 & p2) & Hpair & Hops).
  cbn [strict_equals] in Hops.
  destruct (truthy (VString op1)); [| discriminate].
  destruct (truthy (VString op2)); [| discriminate].
  cbn [negb] in Hfirst, Hsecond.
  destruct (lookup_operator op1 operators) as [f1 |] eqn:Hl1; [| discriminate].
  destruct (lookup_operator op2 operators) as [f2 |] eqn:Hl2; [| discriminate].
  apply orb_true_iff in Hops.
  destruct Hops as [Hops | Hops]; apply andb_true_iff in Hops;
    destruct Hops as (Ha & Hb); apply String.eqb_eq in Ha, Hb; subst.
  - exact (paired_operators_exclusive _ _ _ _ _ _ Hpair Hl1 Hl2 Hfirst Hsecond).
  - exact (paired_operators_exclusive _ _ _ _ _ _ Hpair Hl2 Hl1 Hsecond Hfirst).
Qed.

(** X16. The search for contradictions does not look at the
    connectives: the leaves of an [and] and of an [or] with the same
    children are compared in the same way, and a [not] is looked
    through, so that the two branches of an [or] count as a
    contradiction as those of an [and] do. *)
Theorem contradictions_ignore_connectives (children : list Spec.condition)
  (child : Spec.condition) :
  findContradictoryConditions (Spec.to_value (Spec.And children))
  = findContradictoryConditions (Spec.to_value (Spec.Or children))
  /\ findContradictoryConditions (Spec.to_value (Spec.Not child))
     = findContradictoryConditions (Spec.to_value child)
  /\ findContradictoryConditions (Spec.to_value (Spec.Or children))
     = Ok (contradictory_pairs (flat_map Spec.flat_leaves children)).
Proof.
  unfold findContradictoryConditions, flattenConditions.
  rewrite !RuleAnalysis.flatten_of_condition by lia.
  repeat split; reflexivity.
Qed.

(** X17. The verdict of [validateRuleLogic] follows the number of
    issues alone: the score is 100 minus 10 for every issue, whatever
    its severity, and the verdict passes when there are at most three
    issues. *)
Theorem validateRuleLogic_counts_issues (data : value) (v : verdict) :
  validateRuleLogic data = Ok v ->
  score v = num_of_Z (100 - 10 * Z.of_nat (List.length (issues v)))
  /\ passed v = (List.length (issues v) <=? 3)%nat.
Proof.
  unfold validateRuleLogic. intros H.
  destruct (member data "rule") as [rule | |]; cbn [bind] in H;
    try discriminate.
  destruct (analyzeRuleLogic rule) as [logicIssues | |]; cbn [bind] in H;
    try discriminate.
  destruct (countConditions (get rule "conditions")); cbn [bind] in H;
    try discriminate.
  match type of H with
  | Ok ?x = Ok _ => assert (Hv : x = v) by congruence
  end.
  subst v. cbn [score passed issues].
  unfold num_of_nat. rewrite mul_integers, sub_integers, geb_integers.
  split.
  - f_equal. lia.
  - destruct (Nat.leb_spec (List.length (logicIssues ++ analyzeRuleSecurity rule)) 3);
      [apply Z.leb_le | apply Z.leb_gt]; lia.
Qed.

(** X18. The verdict of [validateRuleExecution] fails on an error of
    the rule and on nothing else: an execution that is slow, that
    gives a result other than the expected one and that has failed
    actions passes.  The score is 100 minus 10, 50, 30 and 20 for the
    four kinds of issue, of which there is at most one each. *)
Theorem validateRuleExecution_fails_on_error_only (a : agent) (data : value)
  (v : verdict) :
  validateRuleExecution a data = Ok v ->
  passed v = negb (truthy (get (get data "ruleResult") "error"))
  /\ score v = num_of_Z (100 - Reach.penalties (issues v))
  /\ (List.length (issues v) <= 4)%nat.
Proof.
  unfold validateRuleExecution. intros H.
  destruct (member data "ruleResult") as [ruleResult | |] eqn:Hresult;
    simpl in H; try discriminate.
  assert (Hsame : get data "ruleResult" = ruleResult).
  { unfold member in Hresult. destruct (nullish data); [discriminate |].
    injection Hresult as <-. reflexivity. }
  rewrite Hsame.
  destruct (member ruleResult "executionTime") as [executionTime | |];
    simpl in H; try discriminate.
  destruct (js_gt executionTime (VNumber (executionTimeThreshold a)));
    destruct (truthy (get ruleResult "error"));
    destruct (negb (strict_equals (get data "expectedResult") VUndefined)
              && negb (strict_equals (get ruleResult "result")
                         (get data "expectedResult")));
    destruct (truthy (get ruleResult "actions")
              && js_gt (get (get ruleResult "actions") "length") (VInt 0));
    cbn [bind] in H;
    try (destruct (filter_on_array (get ruleResult "actions")
                     "ruleResult.actions.filter" _) as [failed | |];
         cbn [bind] in H; try discriminate;
         destruct (0 <? List.length failed)%nat; cbn [bind] in H);
    (destruct (member (get data "transactionData") "id");
     cbn [bind] in H; try discriminate);
    injection H as <-; cbn; repeat split; lia.
Qed.

End WithHost.

(** An instance of X15: [amount > 100] and [amount <= 100]. *)
Lemma contradictory_leaves_exclude_each_other_witness :
  let above := Spec.to_value (Spec.Leaf "amount" "greater_than" (VInt 100)) in
  let upto :=
    Spec.to_value (Spec.Leaf "amount" "less_than_or_equal" (VInt 100)) in
  let context := VObject [ ("amount", VInt 150) ] in
  areConditionsContradictory upto above = true
  /\ ~ (parseCondition (host := ExampleHost.host) above context = Ok true
        /\ parseCondition (host := ExampleHost.host) upto context = Ok true).
Proof.
  intros above upto context.
  apply (contradictory_leaves_exclude_each_other (host := ExampleHost.host)
           above upto (VString "amount") (VInt 100) context
           "greater_than" "less_than_or_equal");
    try reflexivity; repeat split; reflexivity.
Defined.

(** An instance of X17: the rule of [Examples.logic_request]. *)
Lemma validateRuleLogic_counts_issues_witness :
  exists v,
    validateRuleLogic (host := ExampleHost.host)
      (Examples.logic_request Examples.nested_condition) = Ok v
    /\ score v = num_of_Z (100 - 10 * Z.of_nat (List.length (issues v)))
    /\ passed v = (List.length (issues v) <=? 3)%nat.
Proof.
  eexists. split; [reflexivity |].
  apply (validateRuleLogic_counts_issues (host := ExampleHost.host)
           (Examples.logic_request Examples.nested_condition)).
  reflexivity.
Defined.

(** An instance of X18: an execution that is slow, gives a result other
    than the expected one and has a failed action passes, with a score
    of 40. *)
Lemma validateRuleExecution_fails_on_error_only_witness :
  exists v,
    validateRuleExecution (host := ExampleHost.host) fresh
      Examples.slow_wrong_execution = Ok v
    /\ passed v = true
    /\ score v = num_of_Z 40.
Proof.
  eexists. split; [reflexivity |].
  match goal with
  | |- passed ?v = _ /\ _ =>
      destruct (validateRuleExecution_fails_on_error_only
                  (host := ExampleHost.host) fresh
                  Examples.slow_wrong_execution v eq_refl)
        as (Hpassed & Hscore & _)
  end.
  split; [exact Hpassed | exact Hscore].
Defined.

End Verdicts.

(* ===================================================================== *)
(** * The validation agent: the queue and the history *)
(* ===================================================================== *)

Module Validations.

Import RuleProcessor AIValidationAgent ValueFacts.

(** The fields of an agent after the operations on it. *)
Ltac agent_fields :=
  cbn [maxConcurrentValidations executionTimeThreshold errorRateThreshold
       validationQueue activeValidations validationHistory
       rulePerformanceMetrics anomalies emitted immediates written
       with_queue with_active with_history with_metrics with_anomalies
       emit setImmediate saveValidationHistory with_thresholds].

Lemma plain_set (v : value) (k : string) (x : value) :
  Reach.plain v = true ->
  k <> "passed" -> k <> "executionTime" -> k <> "hasErrors" ->
  Reach.plain (set v k x) = true.
Proof.
  intros Hplain Hp He Hh.
  destruct v; try discriminate. cbn [set Reach.plain] in *.
  rewrite !assoc_set_assoc_other by congruence. exact Hplain.
Qed.

Lemma plain_entry (v result : value) :
  Reach.plain v = true ->
  Reach.plain
    (VObject
       (extend
          (own_properties
             (set (set v "status" (VString "completed")) "result" result))
          [("result", result)])) = true.
Proof.
  intros Hplain. destruct v; try discriminate.
  unfold extend. cbn [set own_properties fold_left fst snd Reach.plain] in *.
  rewrite !assoc_set_assoc_other by discriminate. exact Hplain.
Qed.

Lemma forallb_skipn (A : Type) (f : A -> bool) (n : nat) (xs : list A) :
  forallb f xs = true -> forallb f (skipn n xs) = true.
Proof.
  rewrite !forallb_forall. intros H x Hin. apply H.
  rewrite <- (firstn_skipn n xs). apply in_or_app. right. exact Hin.
Qed.

Lemma forallb_snoc (A : Type) (f : A -> bool) (xs : list A) (x : A) :
  forallb f xs = true -> f x = true -> forallb f (xs ++ [x]) = true.
Proof.
  intros Hxs Hx. rewrite forallb_app, Hxs. simpl. rewrite Hx. reflexivity.
Qed.

Lemma map_get_consistent (key : value) (entries : list (value * ruleMetrics)) :
  Forall (fun entry => Reach.consistent (snd entry)) entries ->
  Reach.consistent
    match map_get key entries with
    | Some m => m
    | None => initial_metrics
    end.
Proof.
  induction 1 as [| [k m] rest Hm _ IH]; simpl; [reflexivity |].
  destruct (same_value_zero k key); [exact Hm | exact IH].
Qed.

Lemma map_set_consistent (key : value) (m : ruleMetrics)
  (entries : list (value * ruleMetrics)) :
  Reach.consistent m ->
  Forall (fun entry => Reach.consistent (snd entry)) entries ->
  Forall (fun entry => Reach.consistent (snd entry)) (map_set key m entries).
Proof.
  intros Hm. induction 1 as [| [k old] rest Hold Hrest IH]; simpl.
  - constructor; [exact Hm | constructor].
  - destruct (same_value_zero k key); constructor; assumption.
Qed.

Lemma set_delete_length (id : value) (ids : list value) :
  (List.length (set_delete id ids) <= List.length ids)%nat.
Proof. apply filter_length_le. Qed.

Lemma get_id_after_status (v : value) (s : string) :
  get (set v "status" (VString s)) "id" = get v "id".
Proof. apply Retry.get_set_apart. discriminate. Qed.

(** Deleting the identifiers of a list of validations, one after the
    other, keeps the identifiers that none of them has. *)
Lemma fold_delete_filter (started : list value) :
  forall ids : list value,
    fold_left (fun ids v => set_delete (get v "id") ids) started ids
    = filter (fun x =>
                forallb (fun v => negb (same_value_zero (get v "id") x)) started)
        ids.
Proof.
  induction started as [| v rest IH]; intros ids; cbn [fold_left forallb].
  - induction ids as [| x ids IHids]; simpl; [reflexivity |].
    rewrite <- IHids. reflexivity.
  - rewrite IH. unfold set_delete.
    induction ids as [| x ids IHids]; simpl; [reflexivity |].
    destruct (negb (same_value_zero (get v "id") x)); simpl;
      rewrite IHids; reflexivity.
Qed.

Lemma fold_add_members (started : list value) :
  forall (ids : list value) (x : value),
    In x (fold_left (fun ids v => set_add (get v "id") ids) started ids) ->
    In x ids \/ exists v, In v started /\ x = get v "id".
Proof.
  induction started as [| v rest IH]; intros ids x; cbn [fold_left].
  - tauto.
  - intros Hin. destruct (IH _ _ Hin) as [Hx | (w & Hw & Hx)].
    + unfold set_add in Hx.
      destruct (existsb (same_value_zero (get v "id")) ids); [tauto |].
      apply in_app_or in Hx. destruct Hx as [Hx | [Hx | []]]; [tauto |].
      right. exists v. split; [left; reflexivity | congruence].
    + right. exists w. split; [right; exact Hw | exact Hx].
Qed.

Lemma filter_none (A : Type) (f : A -> bool) (xs : list A) :
  (forall x, In x xs -> f x = false) -> filter f xs = [].
Proof.
  induction xs as [| x rest IH]; intros Hnone; simpl; [reflexivity |].
  rewrite (Hnone x (or_introl eq_refl)).
  apply IH. intros y Hy. apply Hnone. right. exact Hy.
Qed.

(** Once the promises of the validations that were started are
    settled, their slots are free. *)
Lemma slots_released (started : list value) :
  forallb Reach.has_text_id started = true ->
  fold_left (fun ids v => set_delete (get v "id") ids) started
    (fold_left (fun ids v => set_add (get v "id") ids) started [])
  = [].
Proof.
  intros Htext. rewrite fold_delete_filter.
  match goal with
  | |- filter ?f ?l = [] =>
      assert (Hnone : forall x, In x l -> f x = false)
  end.
  { intros x Hin. apply fold_add_members in Hin.
    destruct Hin as [[] | (v & Hv & ->)].
    apply not_true_is_false. intros Hall.
    rewrite forallb_forall in Hall, Htext.
    specialize (Hall v Hv). specialize (Htext v Hv).
    unfold Reach.has_text_id in Htext.
    destruct (get v "id"); try discriminate.
    cbn [same_value_zero strict_equals] in Hall.
    rewrite String.eqb_refl in Hall. discriminate. }
  apply filter_none. exact Hnone.
Qed.

(** ** The order in which the promises settle *)

Lemma picked_in_range (started : list value) (order : list nat) :
  Forall (fun i => (i < List.length started)%nat) order ->
  Forall2 (fun i v => nth_error started i = Some v) order (picked started order).
Proof.
  induction 1 as [| i rest Hi _ IH]; cbn [picked flat_map]; [constructor |].
  destruct (nth_error started i) as [v |] eqn:Hv.
  - cbn [app]. constructor; [exact Hv | exact IH].
  - apply nth_error_None in Hv. lia.
Qed.

Lemma permutation_in_range (n : nat) (order : list nat) :
  Permutation order (seq 0 n) ->
  Forall (fun i => (i < n)%nat) order.
Proof.
  intros Hperm. apply Forall_forall. intros i Hin.
  apply (Permutation_in _ Hperm) in Hin. apply in_seq in Hin. lia.
Qed.

Lemma picked_all (started : list value) (order : list nat) :
  Permutation order (seq 0 (List.length started)) ->
  forall v, In v started -> In v (picked started order).
Proof.
  intros Hperm v Hin.
  destruct (In_nth_error _ _ Hin) as (i & Hi).
  assert (Hrange : (i < List.length started)%nat).
  { apply nth_error_Some. congruence. }
  assert (Hi_order : In i order).
  { apply (Permutation_in _ (Permutation_sym Hperm)).
    apply in_seq. lia. }
  unfold picked. apply in_flat_map. exists i. split; [exact Hi_order |].
  rewrite Hi. left. reflexivity.
Qed.

Lemma picked_started (started : list value) (order : list nat) :
  forall v, In v (picked started order) -> In v started.
Proof.
  intros v Hin. unfold picked in Hin. apply in_flat_map in Hin.
  destruct Hin as (i & _ & Hv).
  destruct (nth_error started i) as [w |] eqn:Hw; [| destruct Hv].
  destruct Hv as [<- | []]. exact (nth_error_In _ _ Hw).
Qed.

(** Once the promises are settled, in whatever order, the slots of the
    validations that were started are free. *)
Lemma slots_released_in (started settled : list value) :
  forallb Reach.has_text_id started = true ->
  (forall v, In v started -> In v settled) ->
  fold_left (fun ids v => set_delete (get v "id") ids) settled
    (fold_left (fun ids v => set_add (get v "id") ids) started [])
  = [].
Proof.
  intros Htext Hall. rewrite fold_delete_filter.
  apply filter_none. intros x Hin.
  apply fold_add_members in Hin.
  destruct Hin as [[] | (v & Hv & ->)].
  apply not_true_is_false. intros Hfalse.
  rewrite forallb_forall in Hfalse, Htext.
  specialize (Hfalse v (Hall v Hv)). specialize (Htext v Hv).
  unfold Reach.has_text_id in Htext.
  destruct (get v "id"); try discriminate.
  cbn [same_value_zero strict_equals] in Hfalse.
  rewrite String.eqb_refl in Hfalse. discriminate.
Qed.

Lemma has_text_id_object (v : value) :
  Reach.has_text_id v = true -> Reach.is_object v = true.
Proof.
  unfold Reach.has_text_id. destruct v; try discriminate. reflexivity.
Qed.

Lemma Forall2_through (A B C : Type) (P : A -> B -> Prop) (Q : B -> C -> Prop)
  (xs : list A) (ys : list B) :
  Forall2 P xs ys ->
  forall zs, Forall2 Q ys zs ->
  Forall2 (fun x z => exists y, P x y /\ Q y z) xs zs.
Proof.
  induction 1 as [| x y xs ys Hxy _ IH]; intros zs Hzs;
    inversion Hzs; subst; constructor.
  - exists y. split; assumption.
  - apply IH. assumption.
Qed.

Section WithHost.
Context {host : Host}.

(** The counts of a rule after one more validation of it. *)
Lemma updateRulePerformanceMetrics_consistent (a : agent) (r : readings)
  (ruleId result : value) :
  Forall (fun entry => Reach.consistent (snd entry)) (rulePerformanceMetrics a) ->
  Forall (fun entry => Reach.consistent (snd entry))
    (rulePerformanceMetrics (updateRulePerformanceMetrics a r ruleId result)).
Proof.
  intros Hall. unfold updateRulePerformanceMetrics. agent_fields.
  apply map_set_consistent; [| exact Hall].
  pose proof (map_get_consistent ruleId _ Hall) as Hold.
  unfold Reach.consistent in *. cbn [successCount errorCount executionCount].
  destruct (truthy (get result "passed")); lia.
Qed.

(** What the promise of one started validation does to the agent. *)
Lemma settle_cases (a : agent) (r : readings) (validation : value) :
  exists a',
    settle a r validation = Ok a'
    /\ validationQueue a' = validationQueue a
    /\ maxConcurrentValidations a' = maxConcurrentValidations a
    /\ executionTimeThreshold a' = executionTimeThreshold a
    /\ errorRateThreshold a' = errorRateThreshold a
    /\ activeValidations a'
       = set_delete (get validation "id") (activeValidations a)
    /\ List.length (emitted a') = S (List.length (emitted a))
    /\ (forallb Reach.plain (validationHistory a) = true ->
        Reach.plain validation = true ->
        forallb Reach.plain (validationHistory a') = true)
    /\ (Forall (fun entry => Reach.consistent (snd entry))
          (rulePerformanceMetrics a) ->
        Forall (fun entry => Reach.consistent (snd entry))
          (rulePerformanceMetrics a')).
Proof.
  unfold settle, processValidation.
  pose proof (Verdicts.dispatch_not_out_of_fuel a
                (set validation "status" (VString "processing"))) as Hfuel.
  destruct (dispatch a (set validation "status" (VString "processing")))
    as [v | e |]; [| | congruence]; cbn [bind].
  - eexists. split; [reflexivity |].
    set (result := set (set (verdict_to_value v) "executionTime"
                          (VNumber (took r)))
                     "validationId"
                     (get (set validation "status" (VString "processing")) "id")).
    unfold handleValidationResult.
    set (entry := VObject (extend _ [("result", result)])).
    set (history := validationHistory a ++ [entry]).
    set (kept := if (1000 <? List.length history)%nat
                 then slice_last 1000 history else history).
    assert (Hkept : forallb Reach.plain (validationHistory a) = true ->
                    Reach.plain validation = true ->
                    forallb Reach.plain kept = true).
    { intros Hhistory Hplain.
      assert (Hall : forallb Reach.plain history = true).
      { apply forallb_snoc; [exact Hhistory |].
        apply plain_entry. apply plain_set; try discriminate. exact Hplain. }
      unfold kept. destruct (1000 <? List.length history)%nat; [| exact Hall].
      apply forallb_skipn. exact Hall. }
    destruct (truthy (get result "details")
              && truthy (get (get result "details") "ruleId")).
    + match goal with
      | |- context [updateRulePerformanceMetrics ?x ?y ?z ?w] =>
          pose proof (updateRulePerformanceMetrics_consistent x y z w) as Hmetrics;
          revert Hmetrics;
          unfold updateRulePerformanceMetrics
      end.
      agent_fields. intros Hmetrics.
      match goal with
      | |- context [if ?b then _ else _] => destruct b
      end; agent_fields;
        rewrite ?get_id_after_status, ?length_app; cbn [List.length];
        (repeat split; try reflexivity; try assumption; try lia).
    + agent_fields.
      match goal with
      | |- context [if ?b then _ else _] => destruct b
      end; agent_fields;
        rewrite ?get_id_after_status, ?length_app; cbn [List.length];
        (repeat split; try reflexivity; try assumption; try tauto; try lia).
  - eexists. split; [reflexivity |].
    unfold handleValidationError. agent_fields.
    rewrite ?Retry.get_set_apart by discriminate.
    rewrite length_app. cbn [List.length].
    repeat split; try reflexivity; try tauto; try lia.
    intros Hhistory Hplain. apply forallb_snoc; [exact Hhistory |].
    repeat apply plain_set; try discriminate. exact Hplain.
Qed.

(** The loop of [processValidationQueue]: the validations started are
    the head of the queue, and their identifiers are added to the active
    ones. *)
Lemma take_free_cases (budget : nat) :
  forall a : agent,
    let '(a', started) := take_free a budget in
    validationQueue a = started ++ validationQueue a'
    /\ activeValidations a'
       = fold_left (fun ids v => set_add (get v "id") ids) started
           (activeValidations a)
    /\ maxConcurrentValidations a' = maxConcurrentValidations a
    /\ executionTimeThreshold a' = executionTimeThreshold a
    /\ errorRateThreshold a' = errorRateThreshold a
    /\ validationHistory a' = validationHistory a
    /\ rulePerformanceMetrics a' = rulePerformanceMetrics a
    /\ emitted a' = emitted a
    /\ ((List.length (activeValidations a) <= maxConcurrentValidations a)%nat ->
        (List.length (activeValidations a') <= maxConcurrentValidations a)%nat)
    /\ ((List.length (validationQueue a) <= budget)%nat ->
        validationQueue a' <> [] ->
        (maxConcurrentValidations a <= List.length (activeValidations a'))%nat).
Proof.
  induction budget as [| budget IH]; intros a; cbn [take_free].
  - repeat split; try reflexivity; try tauto.
    intros Hbudget Hleft. destruct (validationQueue a); [congruence |].
    simpl in Hbudget. lia.
  - destruct (validationQueue a) as [| validation rest] eqn:Hqueue.
    + repeat split; try reflexivity; try tauto.
      rewrite Hqueue. reflexivity.
    + destruct (Nat.ltb_spec (List.length (activeValidations a))
                  (maxConcurrentValidations a)) as [Hfree | Hfull].
      * specialize (IH (with_active (with_queue a rest)
                          (set_add (get validation "id")
                             (activeValidations (with_queue a rest))))).
        destruct (take_free _ budget) as (a', started).
        revert IH. agent_fields.
        intros (Hrest & Hactive & Hmax & He & Hr & Hh & Hm & Hemitted
                & Hceiling & Hmaximal).
        split; [cbn [app]; congruence |].
        split; [exact Hactive |].
        repeat (split; [assumption |]).
        split.
        -- intros _. apply Hceiling. unfold set_add.
           destruct (existsb _ _); [lia |].
           rewrite length_app. simpl. lia.
        -- intros Hbudget. apply Hmaximal. simpl in Hbudget. lia.
      * rewrite Hqueue. repeat split; try reflexivity; try tauto.
Qed.

(** X19. The loop of [processValidationQueue] starts the validations
    at the head of the queue, in their order, and leaves the others; it
    never lets the active validations exceed
    [maxConcurrentValidations]; and it stops only when the queue is
    empty or no slot is free. *)
Theorem take_free_respects_ceiling (a : agent) :
  forallb Reach.is_object (validationQueue a) = true ->
  let '(a', started) := take_free a (List.length (validationQueue a)) in
  validationQueue a = started ++ validationQueue a'
  /\ ((List.length (activeValidations a) <= maxConcurrentValidations a)%nat ->
      (List.length (activeValidations a') <= maxConcurrentValidations a)%nat)
  /\ (validationQueue a' <> [] ->
      (maxConcurrentValidations a <= List.length (activeValidations a'))%nat).
Proof.
  intros _.
  pose proof (take_free_cases (List.length (validationQueue a)) a) as H.
  destruct (take_free a (List.length (validationQueue a))) as (a', started).
  destruct H as (Hqueue & _ & _ & _ & _ & _ & _ & _ & Hceiling & Hmaximal).
  split; [exact Hqueue |]. split; [exact Hceiling |].
  apply Hmaximal. lia.
Qed.

(** The promises of the validations that were started. *)
Lemma settle_all_cases (clock : nat -> readings) (started : list value) :
  forall (a : agent) (n : nat),
  exists a',
    settle_all a clock n started = Ok a'
    /\ validationQueue a' = validationQueue a
    /\ maxConcurrentValidations a' = maxConcurrentValidations a
    /\ executionTimeThreshold a' = executionTimeThreshold a
    /\ errorRateThreshold a' = errorRateThreshold a
    /\ activeValidations a'
       = fold_left (fun ids v => set_delete (get v "id") ids) started
           (activeValidations a)
    /\ List.length (emitted a')
       = (List.length (emitted a) + List.length started)%nat
    /\ (forallb Reach.plain (validationHistory a) = true ->
        forallb Reach.plain started = true ->
        forallb Reach.plain (validationHistory a') = true)
    /\ (Forall (fun entry => Reach.consistent (snd entry))
          (rulePerformanceMetrics a) ->
        Forall (fun entry => Reach.consistent (snd entry))
          (rulePerformanceMetrics a')).
Proof.
  induction started as [| validation rest IH]; intros a n; cbn [settle_all].
  - exists a. cbn [fold_left List.length]. rewrite Nat.add_0_r.
    repeat split; try reflexivity; tauto.
  - destruct (settle_cases a (clock n) validation)
      as (a1 & -> & Hq & Hmax & He & Hr & Hactive & Hemitted & Hplain & Hmetrics).
    cbn [bind].
    destruct (IH a1 (S n))
      as (a' & -> & Hq' & Hmax' & He' & Hr' & Hactive' & Hemitted' & Hplain'
          & Hmetrics').
    exists a'. split; [reflexivity |].
    cbn [fold_left List.length forallb].
    rewrite Hactive', Hactive, Hemitted', Hemitted.
    repeat split; try congruence; try lia; try tauto.
    intros Hhistory Hstarted. apply andb_true_iff in Hstarted.
    apply Hplain'; [apply Hplain |]; tauto.
Qed.

(** A pass of [processValidationQueue] with the promises it starts. *)
Lemma processValidationQueue_cases (a : agent) (clock : nat -> readings) :
  exists a' started,
    processValidationQueue a clock = Ok a'
    /\ validationQueue a = started ++ validationQueue a'
    /\ maxConcurrentValidations a' = maxConcurrentValidations a
    /\ executionTimeThreshold a' = executionTimeThreshold a
    /\ errorRateThreshold a' = errorRateThreshold a
    /\ activeValidations a'
       = fold_left (fun ids v => set_delete (get v "id") ids) started
           (fold_left (fun ids v => set_add (get v "id") ids) started
              (activeValidations a))
    /\ List.length (emitted a')
       = (List.length (emitted a) + List.length started)%nat
    /\ (forallb Reach.plain (validationQueue a) = true ->
        forallb Reach.plain (validationHistory a) = true ->
        forallb Reach.plain (validationQueue a') = true
        /\ forallb Reach.plain (validationHistory a') = true)
    /\ (Forall (fun entry => Reach.consistent (snd entry))
          (rulePerformanceMetrics a) ->
        Forall (fun entry => Reach.consistent (snd entry))
          (rulePerformanceMetrics a')).
Proof.
  unfold processValidationQueue.
  pose proof (take_free_cases (List.length (validationQueue a)) a) as Htake.
  destruct (take_free a (List.length (validationQueue a))) as (a1, started).
  destruct Htake as (Hqueue & Hactive & Hmax & He & Hr & Hh & Hm & Hemitted & _).
  destruct (settle_all_cases clock started a1 O)
    as (a' & Hrun & Hq' & Hmax' & He' & Hr' & Hactive' & Hemitted' & Hplain'
        & Hmetrics').
  exists a', started. split; [exact Hrun |].
  rewrite Hq', Hactive', Hactive, Hemitted', Hemitted.
  split; [exact Hqueue |].
  split; [congruence |]. split; [congruence |]. split; [congruence |].
  split; [reflexivity |]. split; [reflexivity |].
  split.
  - intros Hwaiting Hhistory.
    rewrite Hqueue, forallb_app in Hwaiting.
    apply andb_true_iff in Hwaiting. destruct Hwaiting as (Hstarted & Hrest).
    split; [exact Hrest |].
    apply Hplain'; [rewrite Hh; exact Hhistory | exact Hstarted].
  - intros Hconsistent. apply Hmetrics'. rewrite Hm. exact Hconsistent.
Qed.

Lemma handleValidationResult_quiet (heard : listeners) (a : agent)
  (r : readings) (validation result : value) :
  quiet heard ->
  handleValidationResult_among heard a r validation result
  = (handleValidationResult a r validation result, None).
Proof.
  intros Hquiet. unfold handleValidationResult_among, handleValidationResult.
  cbv zeta. rewrite Hquiet. reflexivity.
Qed.

Lemma handleValidationError_quiet (heard : listeners) (a : agent)
  (validation : value) (error : exn) :
  quiet heard ->
  handleValidationError_among heard a validation error
  = (handleValidationError a validation error, None).
Proof.
  intros Hquiet. unfold handleValidationError_among, handleValidationError.
  cbv zeta. rewrite Hquiet. reflexivity.
Qed.

Lemma settle_quiet (heard : listeners) (a : agent) (r : readings)
  (validation : value) :
  quiet heard ->
  settle_among heard a r validation = settle a r validation.
Proof.
  intros Hquiet. unfold settle_among, settle.
  destruct (processValidation a r validation) as (started, [result | error |]).
  - rewrite (handleValidationResult_quiet heard _ _ _ _ Hquiet). reflexivity.
  - rewrite (handleValidationError_quiet heard _ _ _ Hquiet). reflexivity.
  - reflexivity.
Qed.

Lemma settle_each_quiet (heard : listeners) (clock : nat -> readings)
  (settled : list value) :
  quiet heard ->
  forall a n, settle_each heard a clock n settled = settle_all a clock n settled.
Proof.
  intros Hquiet.
  induction settled as [| validation rest IH]; intros a n;
    cbn [settle_each settle_all]; [reflexivity |].
  rewrite (settle_quiet heard _ _ _ Hquiet).
  destruct (settle a (clock n) validation); cbn [bind];
    [apply IH | reflexivity | reflexivity].
Qed.

(** The event of one settled validation. *)
Lemma settle_event (a : agent) (r : readings) (validation : value) :
  Reach.is_object validation = true ->
  exists a' e,
    settle a r validation = Ok a'
    /\ emitted a' = emitted a ++ [e]
    /\ Reach.settles validation e.
Proof.
  intros Hobject.
  destruct validation as [| | | | | | props]; try discriminate.
  unfold settle, processValidation.
  pose proof (Verdicts.dispatch_not_out_of_fuel a
                (set (VObject props) "status" (VString "processing"))) as Hfuel.
  destruct (dispatch a (set (VObject props) "status" (VString "processing")))
    as [v | error |]; [| | congruence]; cbn [bind].
  - eexists. eexists. split; [reflexivity |].
    unfold handleValidationResult.
    match goal with
    | |- context [if ?b then updateRulePerformanceMetrics _ _ _ _ else _] =>
        destruct b
    end;
      [unfold updateRulePerformanceMetrics |];
      agent_fields;
      match goal with
      | |- context [if ?b then _ else _] => destruct b
      end; agent_fields;
      (split; [reflexivity |]);
      cbn [Reach.settles];
      (split;
       [ rewrite !Retry.get_set_apart by discriminate; reflexivity
       | rewrite Retry.get_set_apart by discriminate;
         cbn [set get]; rewrite assoc_set_assoc_same; reflexivity ]).
  - eexists. eexists. split; [reflexivity |].
    unfold handleValidationError. agent_fields.
    split; [reflexivity |]. cbn [Reach.settles].
    split.
    + rewrite !Retry.get_set_apart by discriminate. reflexivity.
    + rewrite Retry.get_set_apart by discriminate.
      cbn [set get]. rewrite assoc_set_assoc_same. reflexivity.
Qed.

Lemma settle_all_events (clock : nat -> readings) (settled : list value) :
  forallb Reach.is_object settled = true ->
  forall (a : agent) (n : nat),
  exists a' events,
    settle_all a clock n settled = Ok a'
    /\ emitted a' = emitted a ++ events
    /\ Forall2 Reach.settles settled events.
Proof.
  induction settled as [| validation rest IH]; intros Hobjects a n;
    cbn [settle_all].
  - exists a, []. rewrite app_nil_r. repeat split; constructor.
  - cbn [forallb] in Hobjects. apply andb_true_iff in Hobjects.
    destruct Hobjects as (Hobject & Hrest).
    destruct (settle_event a (clock n) validation Hobject)
      as (a1 & e & -> & Hemitted & Hsettles).
    cbn [bind].
    destruct (IH Hrest a1 (S n)) as (a' & events & -> & Hemitted' & Hall).
    exists a', (e :: events). split; [reflexivity |].
    split.
    + rewrite Hemitted', Hemitted, <- app_assoc. reflexivity.
    + constructor; assumption.
Qed.


(** X20. Among listeners that return, a pass of
    [processValidationQueue] over validations as [queueValidation] makes
    them returns, whatever their requests hold and in whatever order the
    promises settle: the validations started are the head of the queue;
    each of them ends with one event, [validation_completed] or
    [validation_failed], that carries its [id]; and its slot is freed, so
    that no validation stays active after a pass that began with
    none. *)
Theorem processValidationQueue_settles (heard : listeners) (a : agent)
  (clock : nat -> readings) (order : list nat) :
  quiet heard ->
  forallb Reach.has_text_id (validationQueue a) = true ->
  let started := snd (take_free a (List.length (validationQueue a))) in
  Permutation order (seq 0 (List.length started)) ->
  exists a' events,
    processValidationQueue_in heard a clock order = Ok a'
    /\ validationQueue a = started ++ validationQueue a'
    /\ emitted a' = emitted a ++ events
    /\ Forall2 (fun i e =>
                  exists validation,
                    nth_error started i = Some validation
                    /\ Reach.settles validation e)
         order events
    /\ (activeValidations a = [] -> activeValidations a' = []).
Proof.
  intros Hquiet Htext. unfold processValidationQueue_in.
  pose proof (take_free_cases (List.length (validationQueue a)) a) as Htake.
  destruct (take_free a (List.length (validationQueue a))) as (a1, started).
  destruct Htake as (Hqueue & Hactive & _ & _ & _ & _ & _ & Hemitted & _).
  cbn [snd]. intros Horder.
  rewrite (settle_each_quiet heard clock _ Hquiet).
  assert (Hstarted : forallb Reach.has_text_id started = true).
  { rewrite Hqueue, forallb_app in Htext. apply andb_true_iff in Htext. tauto. }
  assert (Hobjects : forallb Reach.is_object (picked started order) = true).
  { apply forallb_forall. intros v Hin. apply has_text_id_object.
    rewrite forallb_forall in Hstarted. apply Hstarted.
    exact (picked_started started order v Hin). }
  destruct (settle_all_events clock (picked started order) Hobjects a1 O)
    as (a' & events & Hrun & Hevents & Hsettled).
  destruct (settle_all_cases clock (picked started order) a1 O)
    as (a'' & Hrun' & Hrest & _ & _ & _ & Hfreed & _).
  rewrite Hrun in Hrun'. injection Hrun' as <-.
  exists a', events. split; [exact Hrun |].
  split; [rewrite Hrest; exact Hqueue |].
  split; [rewrite Hevents, Hemitted; reflexivity |].
  split.
  - apply (Forall2_through _ _ _ _ _ _ _
             (picked_in_range started order
                (permutation_in_range _ _ Horder))).
    exact Hsettled.
  - intros Hnone. rewrite Hfreed, Hactive, Hnone.
    apply slots_released_in; [exact Hstarted |].
    exact (picked_all started order Horder).
Qed.


(** ** The history and the thresholds *)

Lemma plain_times (history : list value) :
  forallb Reach.plain history = true ->
  exists times,
    map_with (fun v => member v "executionTime") history = Ok times
    /\ filter truthy times = [].
Proof.
  induction history as [| v rest IH]; simpl; intros Hplain.
  - exists []. split; reflexivity.
  - apply andb_true_iff in Hplain. destruct Hplain as (Hv & Hrest).
    destruct (IH Hrest) as (times & -> & Hnone).
    destruct v; try discriminate. cbn [member nullish bind get].
    cbn [Reach.plain] in Hv.
    destruct (assoc "passed" properties); [discriminate |].
    destruct (assoc "executionTime" properties); [discriminate |].
    exists (VUndefined :: times). split; [reflexivity | exact Hnone].
Qed.

Lemma plain_errors (history : list value) :
  forallb Reach.plain history = true ->
  filter_with (fun v => hasErrors <- member v "hasErrors" ;;
                        Ok (truthy hasErrors)) history
  = Ok [].
Proof.
  induction history as [| v rest IH]; simpl; intros Hplain; [reflexivity |].
  apply andb_true_iff in Hplain. destruct Hplain as (Hv & Hrest).
  rewrite (IH Hrest).
  destruct v; try discriminate. cbn [member nullish bind get].
  cbn [Reach.plain] in Hv.
  destruct (assoc "passed" properties); [discriminate |].
  destruct (assoc "executionTime" properties); [discriminate |].
  destruct (assoc "hasErrors" properties); [discriminate |].
  reflexivity.
Qed.

Lemma analyzeHistoricalPatterns_plain (a : agent) :
  forallb Reach.plain (validationHistory a) = true ->
  analyzeHistoricalPatterns a = Ok a.
Proof.
  intros Hplain. unfold analyzeHistoricalPatterns.
  destruct (List.length (validationHistory a) =? 0)%nat; [reflexivity |].
  destruct (plain_times _ Hplain) as (times & Htimes & Hnone).
  rewrite Htimes. cbn [bind]. rewrite Hnone.
  cbn [List.length Nat.ltb Nat.leb].
  rewrite (plain_errors _ Hplain). reflexivity.
Qed.

Lemma detectAnomalies_keeps (a a' : agent) (r : readings) :
  detectAnomalies a r = Ok a' ->
  validationQueue a' = validationQueue a
  /\ validationHistory a' = validationHistory a.
Proof.
  unfold detectAnomalies.
  destruct (List.length (slice_last 100 (validationHistory a)) <? 10)%nat.
  - intros [= <-]. split; reflexivity.
  - destruct (filter_with _ _) as [failed | |]; cbn [bind]; try discriminate.
    destruct (num_gtb _ _); intros [= <-]; split; reflexivity.
Qed.

Lemma reachable_plain (a : agent) :
  Reach.agent_reachable a ->
  forallb Reach.plain (validationQueue a) = true
  /\ forallb Reach.plain (validationHistory a) = true.
Proof.
  induction 1 as [a Hqueue Hhistory
                 | a a' r request id _ (Hqueue & Hhistory) Hstep
                 | a a' clock _ (Hqueue & Hhistory) Hstep
                 | a a' r _ (Hqueue & Hhistory) Hstep].
  - split; assumption.
  - unfold queueValidation in Hstep.
    destruct (member request "type") as [type | |]; cbn [bind] in Hstep;
      try discriminate.
    match type of Hstep with
    | Ok (_, ?x) = Ok _ => assert (Ha : x = a') by congruence
    end.
    subst a'.
    match goal with
    | |- context [if ?b then _ else _] => destruct b
    end; agent_fields; (split; [| exact Hhistory]);
      apply forallb_snoc; try exact Hqueue; reflexivity.
  - destruct (processValidationQueue_cases a clock)
      as (a1 & started & Hrun & _ & _ & _ & _ & _ & _ & Hplain & _).
    rewrite Hstep in Hrun. injection Hrun as <-.
    apply Hplain; assumption.
  - destruct (detectAnomalies_keeps _ _ _ Hstep) as (-> & ->).
    split; assumption.
Qed.

(** X22. The thresholds never adapt to what the agent records.  In
    every state that an agent reaches from one whose queue and history
    hold entries of its own making, by requests that are queued, passes
    of [processValidationQueue] and detections of anomalies,
    [analyzeHistoricalPatterns] leaves the agent as it is: no entry of
    the history has an [executionTime] or a [hasErrors] at the place
    where they are read. *)
Theorem thresholds_never_adapt (a : agent) :
  Reach.agent_reachable a ->
  analyzeHistoricalPatterns a = Ok a.
Proof.
  intros Hreach. apply analyzeHistoricalPatterns_plain.
  apply (reachable_plain a Hreach).
Qed.

(** What a completed validation writes, for listeners that return. *)
Lemma written_after_result (a : agent) (r : readings)
  (validation result : value) :
  Reach.is_object validation = true ->
  let a' := handleValidationResult a r validation result in
  written a'
  = (if (Nat.modulo (List.length (validationHistory a')) 10 =? 0)%nat
     then written a ++ [validationHistory a'] else written a)
  /\ ((1000 <= List.length (validationHistory a))%nat ->
      List.length (validationHistory a') = 1000%nat
      /\ written a' = written a ++ [validationHistory a']).
Proof.
  intros _ a'.
  assert (Hwritten :
    written a'
    = (if (Nat.modulo (List.length (validationHistory a')) 10 =? 0)%nat
       then written a ++ [validationHistory a'] else written a)).
  { unfold a', handleValidationResult.
    match goal with
    | |- context [if _ then saveValidationHistory ?x else ?x] => set (a1 := x)
    end.
    assert (Hsame : written a1 = written a).
    { unfold a1.
      destruct (truthy (get result "details")
                && truthy (get (get result "details") "ruleId"));
        reflexivity. }
    destruct (Nat.modulo (List.length (validationHistory a1)) 10 =? 0)%nat
      eqn:Hround.
    - change (validationHistory (saveValidationHistory a1))
        with (validationHistory a1).
      rewrite Hround. cbn [written saveValidationHistory].
      rewrite Hsame. reflexivity.
    - rewrite Hround. exact Hsame. }
  split; [exact Hwritten |].
  intros Hfull.
  assert (Hlength : List.length (validationHistory a') = 1000%nat).
  { unfold a'. rewrite ValidationHistory.handleValidationResult_keeps_last.
    rewrite ValidationHistory.slice_last_length, length_app.
    cbn [List.length]. lia. }
  split; [exact Hlength |].
  rewrite Hwritten, Hlength. reflexivity.
Qed.

(** X23. Among listeners that return, the history is handed to
    [fs.writeFile] after a completed validation exactly when it then
    holds a multiple of ten entries; so from 1000 entries on, where the
    history is cut back to 1000, every completed validation writes the
    whole history again.  The history is a list of values, which are
    trees: [JSON.stringify] prints them. *)
Theorem full_history_is_written_every_time (heard : listeners) (a : agent)
  (r : readings) (validation result : value) :
  quiet heard ->
  Reach.is_object validation = true ->
  let a' := fst (handleValidationResult_among heard a r validation result) in
  written a'
  = (if (Nat.modulo (List.length (validationHistory a')) 10 =? 0)%nat
     then written a ++ [validationHistory a'] else written a)
  /\ ((1000 <= List.length (validationHistory a))%nat ->
      List.length (validationHistory a') = 1000%nat
      /\ written a' = written a ++ [validationHistory a']).
Proof.
  intros Hquiet Hobject.
  rewrite (handleValidationResult_quiet heard _ _ _ _ Hquiet). cbn [fst].
  exact (written_after_result a r validation result
           Hobject).
Qed.

(** A listener of [validation_completed] that throws keeps the history
    from being written: the exception rejects the promise of the method
    before the history is saved. *)
Lemma listener_that_throws_skips_the_write (heard : listeners) (a : agent)
  (r : readings) (validation result : value) (error : exn) :
  (forall v, heard (validation_completed v) = Some error) ->
  written (fst (handleValidationResult_among heard a r validation result))
  = written a
  /\ snd (handleValidationResult_among heard a r validation result)
     = Some error.
Proof.
  intros Hthrows. unfold handleValidationResult_among. cbv zeta.
  rewrite Hthrows. cbn [fst snd]. split; [| reflexivity].
  destruct (truthy (get result "details")
            && truthy (get (get result "details") "ruleId")); reflexivity.
Qed.

(** X24. The log level [debug] does not exist for [shouldLog]: its
    rank 0 is falsy and is replaced by the rank 1 of [info].  With the
    level of the configuration at [debug] the same messages pass as at
    [info], and a message at [debug] passes whenever one at [info]
    does, also at the level [info] of the configuration. *)
Theorem debug_is_info (other : value) :
  shouldLog (VString "debug") other = shouldLog (VString "info") other
  /\ shouldLog other (VString "debug") = shouldLog other (VString "info")
  /\ shouldLog (VString "info") (VString "debug") = true.
Proof. repeat split; reflexivity. Qed.

End WithHost.

(** An instance of X19: five validations wait and three slots are
    free. *)
Lemma take_free_respects_ceiling_witness :
  let '(a', started) :=
    take_free Examples.five_queued
      (List.length (validationQueue Examples.five_queued)) in
  List.length started = 3%nat
  /\ (List.length (activeValidations a') <= 3)%nat
  /\ (3 <= List.length (activeValidations a'))%nat.
Proof.
  pose proof (take_free_respects_ceiling Examples.five_queued eq_refl) as H.
  destruct (take_free Examples.five_queued
              (List.length (validationQueue Examples.five_queued)))
    as (a', started) eqn:Htake.
  destruct H as (_ & Hceiling & Hmaximal).
  vm_compute in Htake. injection Htake as <- <-.
  split; [reflexivity |].
  split; [apply Hceiling; cbn; lia | apply Hmaximal; discriminate].
Defined.

(** An instance of X20: the same agent, whose three started validations
    settle in the order third, first, second. *)
Lemma processValidationQueue_settles_witness :
  exists a' events,
    processValidationQueue_in (host := ExampleHost.host) (fun _ => None)
      Examples.five_queued (fun _ => Examples.agent_readings 0) [2; 0; 1]%nat
    = Ok a'
    /\ validationQueue a' = map Examples.queued_validation [3; 4]%nat
    /\ emitted a' = events
    /\ List.length events = 3%nat
    /\ activeValidations a' = [].
Proof.
  destruct (processValidationQueue_settles (host := ExampleHost.host)
              (fun _ => None) Examples.five_queued
              (fun _ => Examples.agent_readings 0) [2; 0; 1]%nat
              (fun _ => eq_refl) eq_refl)
    as (a' & events & Hrun & Hqueue & Hemitted & Hsettled & Hfree).
  { eapply perm_trans; [apply perm_swap | apply perm_skip; apply perm_swap]. }
  exists a', events.
  split; [exact Hrun |].
  split.
  { cbn in Hqueue. injection Hqueue as Hqueue. symmetry. exact Hqueue. }
  split; [exact Hemitted |].
  split.
  { apply Forall2_length in Hsettled. symmetry. exact Hsettled. }
  apply Hfree. reflexivity.
Defined.


(** An instance of X22: the agent after one validation. *)
Lemma thresholds_never_adapt_witness :
  analyzeHistoricalPatterns (host := ExampleHost.host) Examples.validated_once
  = Ok Examples.validated_once.
Proof.
  apply (thresholds_never_adapt (host := ExampleHost.host)).
  eapply (Reach.agent_process (host := ExampleHost.host)
            _ Examples.validated_once (fun _ => Examples.agent_readings 0)).
  - eapply (Reach.agent_queue (host := ExampleHost.host)
              fresh _ (Examples.agent_readings 0) Examples.performance_request).
    + apply Reach.agent_start; reflexivity.
    + reflexivity.
  - reflexivity.
Defined.

(** An instance of X23: a history of 1000 entries. *)
Lemma full_history_is_written_every_time_witness :
  let a' :=
    fst (handleValidationResult_among (host := ExampleHost.host)
           (fun _ => None) Examples.full_history
           (Examples.agent_readings 0) (Examples.queued_validation 1)
           (verdict_to_value (pass_through "performance"))) in
  List.length (validationHistory a') = 1000%nat
  /\ written a' = [validationHistory a'].
Proof.
  intros a'.
  apply (proj2 (full_history_is_written_every_time (host := ExampleHost.host)
                  (fun _ => None)
                  Examples.full_history (Examples.agent_readings 0)
                  (Examples.queued_validation 1)
                  (verdict_to_value (pass_through "performance"))
                  (fun _ => eq_refl) eq_refl)).
  unfold Examples.full_history. cbn [validationHistory with_history].
  rewrite repeat_length. apply Nat.le_refl.
Defined.

End Validations.

(* ===================================================================== *)
(** * The default rules *)
(* ===================================================================== *)

Module DefaultRules.

Import RuleProcessor TransactionMonitor ValueFacts.

Section WithHost.
Context {host : Host}.

Lemma at_least (q : Q) (z : Z) :
  js_ge (VNumber (Fin q)) (VInt z) = Qle_bool (inject_Z z) q.
Proof.
  unfold js_ge, is_less_than, VInt, num_of_Z.
  cbn [ToPrimitive ToNumber num_is_nan orb num_ltb]. unfold Qltb.
  destruct (Qle_bool (inject_Z z) q); reflexivity.
Qed.

Lemma at_most (q : Q) (z : Z) :
  js_le (VNumber (Fin q)) (VInt z) = Qle_bool q (inject_Z z).
Proof.
  unfold js_le, is_less_than, VInt, num_of_Z.
  cbn [ToPrimitive ToNumber num_is_nan orb num_ltb]. unfold Qltb.
  destruct (Qle_bool q (inject_Z z)); reflexivity.
Qed.

Lemma at_most_infinity (q : Q) :
  js_le (VNumber (Fin q)) (VNumber PosInf) = true.
Proof. reflexivity. Qed.

Lemma above (q : Q) (z : Z) :
  Qle_bool q (inject_Z z) = false -> Qle_bool (inject_Z z) q = true.
Proof.
  intros Hnot. apply Qle_bool_iff. apply Qlt_le_weak. apply Qnot_le_lt.
  intros Hle. apply Qle_bool_iff in Hle. congruence.
Qed.

(** The first default rule on an amount above 10000: it triggers, flags
    the transaction and scores it by the range of the amount. *)
Lemma high_amount_rule (t : timing) (props : list (string * value)) (q : Q) :
  get (VObject props) "amount" = VNumber (Fin q) ->
  (10000 < q)%Q ->
  exists r,
    evaluateRule t
      (nth 0 (match getDefaultRules with VArray l => l | _ => [] end) VUndefined)
      (VObject props) = Ok r
    /\ result r = true
    /\ is_flagged r = true
    /\ map score_or_zero (filter (is_successful "calculate_score") (actions r))
       = [ if Qle_bool q 50000 then Fin 30
           else if Qle_bool q 100000 then Fin 60 else Fin 90 ].
Proof.
  intros Hamount Hhigh.
  assert (Hhas : has_property (VObject props) "amount" = true).
  { cbn [has_property]. cbn [get] in Hamount.
    destruct (assoc "amount" props); [reflexivity | discriminate]. }
  pose proof (ActionExecutor.getFieldValue_own props "amount" Hhas) as Hfield.
  rewrite Hamount in Hfield.
  assert (Hlow : Qle_bool q (inject_Z 10000) = false).
  { apply not_true_is_false. intros Hle. apply Qle_bool_iff in Hle.
    apply (Qlt_not_le _ _ Hhigh). exact Hle. }
  pose proof (above q 10000 Hlow) as Hfirst.
  change (Qle_bool q 50000) with (Qle_bool q (inject_Z 50000)).
  change (Qle_bool q 100000) with (Qle_bool q (inject_Z 100000)).
  unfold getDefaultRules. cbn [nth].
  unfold evaluateRule.
  cbn -[getFieldValue parseFloat num_gtb js_ge js_le js_mul num_add
        Math_min Math_max].
  rewrite Hfield. cbn [parseFloat VInt].
  assert (Hgreater : num_gtb (Fin q) (num_of_Z 10000) = true).
  { unfold num_gtb, num_of_Z, num_ltb, Qltb. rewrite Hlow. reflexivity. }
  rewrite Hgreater. cbn [andb].
  unfold executeOne, executeAction.
  cbn -[getFieldValue parseFloat num_gtb js_ge js_le js_mul num_add
        Math_min Math_max].
  rewrite Hfield, !at_least, !at_most, Hfirst.
  destruct (Qle_bool q (inject_Z 50000)) eqn:Hsecond.
  - eexists. split; [reflexivity |]. repeat split; reflexivity.
  - rewrite (above q 50000 Hsecond).
    destruct (Qle_bool q (inject_Z 100000)) eqn:Hthird.
    + eexists. split; [reflexivity |]. repeat split; reflexivity.
    + rewrite (above q 100000 Hthird).
      eexists. split; [reflexivity |]. repeat split; reflexivity.
Qed.

Lemma executeOne_type (action transactionData : value) (entry : executedAction) :
  executeOne action transactionData = Ok entry ->
  action_type entry = get action "type".
Proof.
  unfold executeOne.
  destruct (executeAction action transactionData) as [r | e |]; simpl.
  - intros [= <-]. reflexivity.
  - unfold member. destruct (nullish action); simpl; [discriminate |].
    intros [= <-]. reflexivity.
  - discriminate.
Qed.

Lemma executeEach_types (transactionData : value) (actions : list value) :
  forall entries,
    executeEach actions transactionData = Ok entries ->
    Forall (fun entry =>
              exists action,
                In action actions /\ action_type entry = get action "type")
      entries.
Proof.
  induction actions as [| action rest IH]; simpl; intros entries.
  - intros [= <-]. constructor.
  - destruct (executeOne action transactionData) as [entry | |] eqn:Hone;
      simpl; try discriminate.
    destruct (executeEach rest transactionData) as [more | |]; simpl;
      try discriminate.
    intros [= <-]. constructor.
    + exists action. split; [left; reflexivity |].
      exact (executeOne_type _ _ _ Hone).
    + specialize (IH more eq_refl).
      rewrite Forall_forall in *. intros other Hin.
      destruct (IH other Hin) as (a & Ha & Htype).
      exists a. split; [right; exact Ha | exact Htype].
Qed.

(** The entries that [evaluateRule] records are those of the actions of
    the rule. *)
Lemma evaluateRule_action_types (t : timing) (rule transactionData : value)
  (acts : list value) (r : ruleResult) :
  get rule "actions" = VArray acts ->
  evaluateRule t rule transactionData = Ok r ->
  Forall (fun entry =>
            exists action,
              In action acts /\ action_type entry = get action "type")
    (actions r).
Proof.
  intros Hacts. unfold evaluateRule.
  destruct (member rule "id") as [id | e |]; simpl;
    [| destruct e; discriminate | discriminate].
  destruct (member rule "name") as [name | e |]; simpl;
    [| destruct e; discriminate | discriminate].
  destruct (member transactionData "id") as [tid | e |]; simpl;
    [| destruct e; discriminate | discriminate].
  destruct (if truthy (get rule "conditions")
            then parseCondition (get rule "conditions") transactionData
            else Ok false) as [[|] | e |]; simpl;
    try (intros [= <-]; constructor); try discriminate.
  rewrite Hacts. cbn [truthy]. unfold executeActions. cbn [iterate bind].
  destruct (executeEach acts transactionData) as [entries | e |] eqn:Heach;
    simpl; try (intros [= <-]; constructor); try discriminate.
  intros [= <-]. exact (executeEach_types _ _ _ Heach).
Qed.

Lemma no_scores (acts : list value) (entries : list executedAction) :
  Forall (fun action =>
            strict_equals (get action "type") (VString "calculate_score")
            = false) acts ->
  Forall (fun entry =>
            exists action,
              In action acts /\ action_type entry = get action "type")
    entries ->
  filter (is_successful "calculate_score") entries = [].
Proof.
  intros Hacts. rewrite Forall_forall in Hacts.
  induction 1 as [| entry rest (action & Hin & Htype) _ IH]; simpl;
    [reflexivity |].
  unfold is_successful at 1. rewrite Htype, (Hacts action Hin). exact IH.
Qed.

Lemma evaluateEnabled_enabled (clock : nat -> timing) (n : nat)
  (rule : value) (rest : list value) (transactionData : value) :
  nullish rule = false ->
  Reach.is_enabled rule = true ->
  evaluateEnabled clock n (rule :: rest) transactionData
  = (r <- evaluateRule (clock n) rule transactionData ;;
     more <- evaluateEnabled clock (S n) rest transactionData ;;
     Ok (r :: more)).
Proof.
  intros Hrule Henabled. cbn [evaluateEnabled].
  rewrite (member_defined rule _ Hrule). cbn [bind].
  unfold Reach.is_enabled in Henabled. rewrite Henabled. reflexivity.
Qed.

(** X25. Under the default rules, every transaction with an amount
    above 10000 goes to review, whatever else it holds: the three rules
    are evaluated, the first one triggers and flags the transaction,
    the recommendation is [REVIEW_REQUIRED], and the risk score is 30
    for an amount up to 50000, 60 up to 100000 and 90 above. *)
Theorem default_rules_review_high_amounts (clock : nat -> timing)
  (now : string) (props : list (string * value)) (q : Q) :
  get (VObject props) "amount" = VNumber (Fin q) ->
  (10000 < q)%Q ->
  exists r,
    RuleProcessor.processTransaction clock now getDefaultRules (VObject props)
    = Ok r
    /\ totalRules r = 3%nat
    /\ (1 <= rulesFlagged (createResultSummary r))%nat
    /\ recommendation (createResultSummary r) = "REVIEW_REQUIRED"
    /\ riskScore (createResultSummary r)
       = if Qle_bool q 50000 then Fin 30
         else if Qle_bool q 100000 then Fin 60 else Fin 90.
Proof.
  intros Hamount Hhigh.
  set (rules := match getDefaultRules with VArray l => l | _ => [] end).
  set (rule1 := nth 0 rules VUndefined).
  set (rule2 := nth 1 rules VUndefined).
  set (rule3 := nth 2 rules VUndefined).
  change getDefaultRules with (VArray [rule1; rule2; rule3]).
  destruct (high_amount_rule (clock 0%nat) props q Hamount Hhigh)
    as (r1 & Hr1 & Htriggered & Hflagged & Hscores).
  fold rules in Hr1. fold rule1 in Hr1.
  destruct (RuleResults.evaluateRule_returns (clock 1%nat) rule2 (VObject props)
              eq_refl eq_refl) as (r2 & Hr2 & _).
  destruct (RuleResults.evaluateRule_returns (clock 2%nat) rule3 (VObject props)
              eq_refl eq_refl) as (r3 & Hr3 & _).
  assert (Hnone2 : filter (is_successful "calculate_score") (actions r2) = []).
  { apply (no_scores
             (match get rule2 "actions" with VArray l => l | _ => [] end)).
    - repeat constructor.
    - apply (evaluateRule_action_types (clock 1%nat) rule2 (VObject props));
        [reflexivity | exact Hr2]. }
  assert (Hnone3 : filter (is_successful "calculate_score") (actions r3) = []).
  { apply (no_scores
             (match get rule3 "actions" with VArray l => l | _ => [] end)).
    - repeat constructor.
    - apply (evaluateRule_action_types (clock 2%nat) rule3 (VObject props));
        [reflexivity | exact Hr3]. }
  unfold RuleProcessor.processTransaction. cbn [iterate bind].
  rewrite !evaluateEnabled_enabled by reflexivity.
  rewrite Hr1, Hr2, Hr3. cbn [bind evaluateEnabled member nullish].
  eexists. split; [reflexivity |].
  split; [reflexivity |].
  unfold createResultSummary.
  cbn [results rulesFlagged recommendation riskScore filter].
  rewrite Htriggered. cbn [filter]. rewrite Hflagged.
  split; [cbn [List.length]; lia |].
  split; [reflexivity |].
  rewrite Pipeline.calculateOverallRiskScore_scores.
  match goal with
  | |- context [TransactionMonitor.added_scores ?triggered] =>
      assert (Hall : TransactionMonitor.added_scores triggered
                     = [ if Qle_bool q 50000 then Fin 30
                         else if Qle_bool q 100000 then Fin 60 else Fin 90 ])
  end.
  { unfold TransactionMonitor.added_scores. cbn [flat_map]. rewrite Hscores.
    destruct (result r2), (result r3); cbn [flat_map];
      rewrite ?Hnone2, ?Hnone3; reflexivity. }
  rewrite Hall.
  destruct (Qle_bool q 50000); [reflexivity |].
  destruct (Qle_bool q 100000); reflexivity.
Qed.

End WithHost.

(** An instance of X25: a transfer of 15000. *)
Lemma default_rules_review_high_amounts_witness :
  exists r,
    RuleProcessor.processTransaction (host := ExampleHost.host)
      (fun _ => Examples.timing0) "" getDefaultRules Examples.large_transfer
    = Ok r
    /\ recommendation (createResultSummary r) = "REVIEW_REQUIRED"
    /\ riskScore (createResultSummary r) = Fin 30.
Proof.
  destruct (default_rules_review_high_amounts (host := ExampleHost.host)
              (fun _ => Examples.timing0) ""
              [ ("amount", VInt 15000);
                ("userId", VString "u1");
                ("type", VString "transfer");
                ("location", VObject [ ("country", VString "US") ]) ]
              (inject_Z 15000) eq_refl eq_refl)
    as (r & Hr & _ & _ & Hrecommendation & Hscore).
  exists r. split; [exact Hr |]. split; [exact Hrecommendation | exact Hscore].
Defined.

End DefaultRules.
